(** * Fund forecast service: waterfall, cohort generation and quarterly timeline

    A shallow embedding of [FundForecastService]
    (src/services/excel-export-service.ts, second half) together with the
    input types of src/shared/enhanced-types.ts, and the properties of it
    that the specification states.

    Numbers.  A JavaScript [number] is modelled by [num]: a finite value is
    an exact rational (rounding is abstracted away), and the three
    non-finite values [Infinity], [-Infinity] and [NaN] are kept, because
    the service divides by quantities that can be zero.  Signed zero is not
    modelled: a zero divisor counts as [+0].  The fields of the input
    structure are finite numbers, hence plain rationals. *)

From Stdlib Require Import QArith Qround Qminmax Qabs.
From Stdlib Require Import ZArith List String DecimalString Bool.
From Stdlib Require Import Lia Lqa.
From Stdlib Require DecimalNat.
Import ListNotations.

Local Open Scope Q_scope.

(** ** JavaScript numbers *)

Module JsNumber.

Inductive num : Type :=
| Fin (q : Q)
| PInf
| NInf
| NaN.

Definition Qlt_bool (a b : Q) : bool := negb (Qle_bool b a).

(** Sign of a finite value, as the comparison with zero. *)
Definition sgn (a : Q) : comparison := a ?= 0.

Definition nopp (x : num) : num :=
  match x with
  | Fin a => Fin (- a)
  | PInf => NInf
  | NInf => PInf
  | NaN => NaN
  end.

Definition nadd (x y : num) : num :=
  match x, y with
  | NaN, _ | _, NaN => NaN
  | Fin a, Fin b => Fin (a + b)
  | PInf, NInf | NInf, PInf => NaN
  | PInf, _ | _, PInf => PInf
  | NInf, _ | _, NInf => NInf
  end.

Definition nsub (x y : num) : num := nadd x (nopp y).

(** An infinity scaled by a finite factor of the given sign. *)
Definition scale_inf (positive : bool) (s : comparison) : num :=
  match s with
  | Eq => NaN
  | Gt => if positive then PInf else NInf
  | Lt => if positive then NInf else PInf
  end.

Definition nmul (x y : num) : num :=
  match x, y with
  | NaN, _ | _, NaN => NaN
  | Fin a, Fin b => Fin (a * b)
  | PInf, Fin b => scale_inf true (sgn b)
  | NInf, Fin b => scale_inf false (sgn b)
  | Fin a, PInf => scale_inf true (sgn a)
  | Fin a, NInf => scale_inf false (sgn a)
  | PInf, PInf | NInf, NInf => PInf
  | PInf, NInf | NInf, PInf => NInf
  end.

(** Division: a finite value over zero is an infinity of its sign, [0/0] is
    [NaN], a finite value over an infinity is zero. *)
Definition ndiv (x y : num) : num :=
  match x, y with
  | NaN, _ | _, NaN => NaN
  | Fin a, Fin b =>
      if Qeq_bool b 0 then scale_inf true (sgn a) else Fin (a / b)
  | Fin _, (PInf | NInf) => Fin 0
  | (PInf | NInf), (PInf | NInf) => NaN
  | PInf, Fin b => if Qlt_bool b 0 then NInf else PInf
  | NInf, Fin b => if Qlt_bool b 0 then PInf else NInf
  end.

(** [Math.min] of two arguments. *)
Definition nmin (x y : num) : num :=
  match x, y with
  | NaN, _ | _, NaN => NaN
  | Fin a, Fin b => Fin (Qmin a b)
  | NInf, _ | _, NInf => NInf
  | PInf, z | z, PInf => z
  end.

(** [Math.abs]. *)
Definition nabs (x : num) : num :=
  match x with
  | Fin a => Fin (Qabs a)
  | PInf | NInf => PInf
  | NaN => NaN
  end.

(** The relational operators; every comparison with [NaN] is false. *)
Definition nlt (x y : num) : bool :=
  match x, y with
  | NaN, _ | _, NaN => false
  | Fin a, Fin b => Qlt_bool a b
  | Fin _, PInf => true
  | Fin _, NInf => false
  | PInf, _ => false
  | NInf, NInf => false
  | NInf, _ => true
  end.

Definition ngt (x y : num) : bool := nlt y x.

Definition nle (x y : num) : bool :=
  match x, y with
  | NaN, _ | _, NaN => false
  | Fin a, Fin b => Qle_bool a b
  | Fin _, PInf => true
  | Fin _, NInf => false
  | NInf, _ => true
  | PInf, PInf => true
  | PInf, _ => false
  end.

Definition nge (x y : num) : bool := nle y x.

(** Strict equality [===] on numbers: [NaN] equals nothing. *)
Definition num_eq (x y : num) : Prop :=
  match x, y with
  | Fin a, Fin b => a == b
  | PInf, PInf | NInf, NInf => True
  | _, _ => False
  end.

(** The finite number zero. *)
Definition is_zero (x : num) : Prop := num_eq x (Fin 0).

End JsNumber.
Export JsNumber.

Declare Scope num_scope.
Delimit Scope num_scope with num.
Bind Scope num_scope with num.
Infix "+" := nadd : num_scope.
Infix "-" := nsub : num_scope.
Infix "*" := nmul : num_scope.
Infix "/" := ndiv : num_scope.
Infix ">?" := ngt (at level 70, no associativity) : num_scope.
Infix "<?" := nlt (at level 70, no associativity) : num_scope.
Infix "===" := num_eq (at level 70, no associativity) : num_scope.

Coercion Fin : Q >-> num.

(** ** Results of calls that can throw *)

Inductive outcome (A : Type) : Type :=
| Returned (value : A)
| Threw (message : string).
Arguments Returned {A} value.
Arguments Threw {A} message.

(** Decimal rendering of a counter inside a template string. *)
Definition decimal (n : nat) : string :=
  DecimalString.NilEmpty.string_of_uint (Nat.to_uint n).

(** [Math.round] on a finite number: the nearest integer, halves upward. *)
Definition Math_round (x : Q) : Z := Qfloor (x + (1 # 2)).

(** A loop counter or an array length read as a number. *)
Definition of_nat (n : nat) : num := Fin (inject_Z (Z.of_nat n)).

(** ** Data model (src/shared/enhanced-types.ts and the types it imports) *)

Inductive FundStage : Type :=
| PreSeed | Seed | SeriesA | SeriesB | SeriesC | SeriesDPlus.

Definition stageName (s : FundStage) : string :=
  match s with
  | PreSeed => "Pre-Seed"
  | Seed => "Seed"
  | SeriesA => "Series A"
  | SeriesB => "Series B"
  | SeriesC => "Series C"
  | SeriesDPlus => "Series D+"
  end.

Inductive CompanyStatus : Type := active | exited | written_off.

Record StageStrategy : Type := {
  stage : FundStage;
  allocationPercent : Q;
  checkSize : Q;
  targetCompanies : Q;
  followOnPercent : Q;
  targetOwnership : Q;
  entryValuation : Q;
  reserveRatio : option Q
}.

Record StageExitProbabilities : Type := {
  great : Q;
  good : Q;
  mediocre : Q;
  failure : Q
}.

(** An object with one row per stage. *)
Definition ExitProbabilityMatrix : Type := FundStage -> StageExitProbabilities.

(** The fields of [EnhancedFundInputs] that the forecast service or the
    specification refers to; optional fields are options. *)
Record EnhancedFundInputs : Type := {
  fundSize : Q;                        (* in millions *)
  vintage : option Q;
  managementFeeRate : Q;
  carryRate : Q;
  gpCommitment : Q;
  hurdleRate : Q;
  catchUpRate : option Q;
  investmentPeriodYears : Q;
  fundLifeYears : Q;
  stageStrategies : list StageStrategy;
  exitProbabilityMatrix : ExitProbabilityMatrix
}.

(** [new Date()] reads the clock; the instant itself is not modelled, a date
    is the ordinal of the company whose creation read it. *)
Definition Date : Type := nat.

Record Investment : Type := {
  round : FundStage;
  amount : num;
  date : Date;
  ownership : num;
  valuation : num
}.

Record CompanyMetrics : Type := {
  revenue : num;
  growth : num;
  runway : num
}.

Record PortfolioCompany : Type := {
  id : string;
  name : string;
  currentStage : FundStage;
  investments : list Investment;
  currentValuation : num;
  status : CompanyStatus;
  metrics : CompanyMetrics
}.

(** The two interpolated values of the label [Q<n> <year>]. *)
Record QuarterLabel : Type := {
  labelQuarter : nat;
  labelYear : num
}.

Record TimelineMetrics : Type := {
  quarter : nat;
  quarterLabel : QuarterLabel;
  capitalDeployed : num;
  capitalCalled : num;
  distributions : num;
  netCashFlow : num;
  cumulativeCashFlow : num;
  totalInvested : num;
  totalDistributed : num;
  portfolioValue : num;
  nav : num;
  dpi : num;
  rvpi : num;
  tvpi : num;
  grossMOIC : num;
  netMOIC : num;
  grossIRR : num;
  netIRR : num;
  managementFees : num;
  carriedInterest : num
}.

Record WaterfallSummary : Type := {
  totalDistributions : num;
  lpDistributions : num;
  gpDistributions : num;
  preferredReturn : num;
  carryPaid : num;
  catchUpPaid : num;
  lpShare : num;
  gpShare : num;
  effectiveCarry : num
}.

Record FundMetrics : Type := {
  fm_capitalCalled : num;
  fm_capitalDistributed : num;
  fm_capitalRemaining : num;
  fm_dryPowder : num;
  fm_totalValue : num;
  fm_netAssetValue : num;
  fm_totalManagementFees : num;
  fm_totalCarriedInterest : num;
  fm_lpNetProceeds : num;
  fm_gpTotalCompensation : num
}.

Record ForecastResult : Type := {
  fr_portfolio : list PortfolioCompany;
  fr_timeline : list TimelineMetrics;
  fr_waterfall : WaterfallSummary;
  fr_irr : num * num;                  (* gross, net *)
  fr_moic : num * num;                 (* gross, net *)
  fr_dpi : num;
  fr_rvpi : num;
  fr_tvpi : num;
  fr_totalInvested : num;
  fr_totalDistributed : num;
  fr_portfolioValue : num;
  fr_managementFees : num;
  fr_carriedInterest : num;
  fr_recycledCapital : option num;
  fr_fundMetrics : option FundMetrics
}.

(** ** The forecast service *)

Module FundForecastService.

Section Service.

(** [Math.sin] on finite arguments and [Math.pow]: library functions whose
    values are not rational; they are parameters of the model. *)
Variable Math_sin : Q -> Q.
Variable Math_pow : num -> num -> num.

(** [new EnhancedCohortEngine(inputs).generateForecast()]: the engine lives
    in core/enhanced-cohort-engine, outside the files at hand. *)
Variable generateForecast : EnhancedFundInputs -> outcome ForecastResult.

(** [Math.sin] of a number: [NaN] outside the finite values. *)
Definition nsin (x : num) : num :=
  match x with
  | Fin a => Fin (Math_sin a)
  | _ => NaN
  end.

(** *** validateInputs *)

Definition totalAllocation (inputs : EnhancedFundInputs) : num :=
  fold_left (fun sum s => (sum + Fin (allocationPercent s))%num)
            (stageStrategies inputs) (Fin 0).

Definition validateInputs (inputs : EnhancedFundInputs) : outcome unit :=
  if nle (fundSize inputs) 0 then
    Threw "Fund size must be greater than 0"
  else if nlt (managementFeeRate inputs) 0
          || ngt (managementFeeRate inputs) 0.1 then
    Threw "Management fee rate must be between 0% and 10%"
  else if nlt (carryRate inputs) 0 || ngt (carryRate inputs) 0.5 then
    Threw "Carry rate must be between 0% and 50%"
  else if ngt (nabs (totalAllocation inputs - 1)) 0.001 then
    Threw "Stage allocations must sum to 100%"
  else Returned tt.

(** *** postProcessForecast *)

Definition postProcessForecast (forecast : ForecastResult)
    (inputs : EnhancedFundInputs) : ForecastResult :=
  let committed := (fundSize inputs * 1000000)%num in
  {| fr_portfolio := fr_portfolio forecast;
     fr_timeline := fr_timeline forecast;
     fr_waterfall := fr_waterfall forecast;
     fr_irr := fr_irr forecast;
     fr_moic := fr_moic forecast;
     fr_dpi := fr_dpi forecast;
     fr_rvpi := fr_rvpi forecast;
     fr_tvpi := fr_tvpi forecast;
     fr_totalInvested := fr_totalInvested forecast;
     fr_totalDistributed := fr_totalDistributed forecast;
     fr_portfolioValue := fr_portfolioValue forecast;
     fr_managementFees := fr_managementFees forecast;
     fr_carriedInterest := fr_carriedInterest forecast;
     fr_recycledCapital := fr_recycledCapital forecast;
     fr_fundMetrics := Some
       {| fm_capitalCalled := (fr_totalInvested forecast * 1.1)%num;
          fm_capitalDistributed := fr_totalDistributed forecast;
          fm_capitalRemaining := (committed - fr_totalInvested forecast)%num;
          fm_dryPowder := (committed - fr_totalInvested forecast)%num;
          fm_totalValue :=
            (fr_totalDistributed forecast + fr_portfolioValue forecast)%num;
          fm_netAssetValue := fr_portfolioValue forecast;
          fm_totalManagementFees := fr_managementFees forecast;
          fm_totalCarriedInterest := fr_carriedInterest forecast;
          fm_lpNetProceeds :=
            (fr_totalDistributed forecast - fr_carriedInterest forecast)%num;
          fm_gpTotalCompensation :=
            (fr_managementFees forecast + fr_carriedInterest forecast)%num |}
  |}.

(** *** runForecast

    Every error raised inside the [try] block is rethrown with the prefix
    [Forecast failed: ]. *)

Definition rethrow {A : Type} (message : string) : outcome A :=
  Threw (String.append "Forecast failed: " message).

Definition runForecast (inputs : EnhancedFundInputs)
    : outcome ForecastResult :=
  match validateInputs inputs with
  | Threw message => rethrow message
  | Returned _ =>
      match generateForecast inputs with
      | Threw message => rethrow message
      | Returned forecast => Returned (postProcessForecast forecast inputs)
      end
  end.

(** *** generatePortfolio *)

Definition newCompany (strategy : StageStrategy) (companyId i : nat)
    : PortfolioCompany :=
  {| id := String.append "company-" (decimal companyId);
     name := String.append (stageName (stage strategy))
               (String.append " Company " (decimal (i + 1)));
     currentStage := stage strategy;
     investments :=
       [ {| round := stage strategy;
            amount := checkSize strategy;
            date := companyId;
            ownership := targetOwnership strategy;
            valuation := entryValuation strategy |} ];
     currentValuation :=
       (entryValuation strategy * (1 + targetOwnership strategy))%num;
     status := active;
     metrics := {| revenue := 0; growth := 0; runway := 18 |} |}.

(** The inner [for] loop: [count] more companies, the next one being number
    [i] of its stage and taking identifier [companyId]. *)
Fixpoint stageCompanies (strategy : StageStrategy) (companyId i count : nat)
    : list PortfolioCompany :=
  match count with
  | O => []
  | S count' =>
      newCompany strategy companyId i
        :: stageCompanies strategy (S companyId) (S i) count'
  end.

(** [i < companiesInStage] holds for the first [max 0 companiesInStage]
    values of [i]. *)
Definition companiesInStage (strategy : StageStrategy) : nat :=
  Z.to_nat (Math_round (targetCompanies strategy)).

(** One call of the [forEach] callback on the pair of mutable locals. *)
Definition addStage (acc : list PortfolioCompany * nat)
    (strategy : StageStrategy) : list PortfolioCompany * nat :=
  let (portfolio, companyId) := acc in
  let n := companiesInStage strategy in
  (portfolio ++ stageCompanies strategy companyId 0 n, (companyId + n)%nat).

Definition generatePortfolio (inputs : EnhancedFundInputs)
    : list PortfolioCompany :=
  fst (fold_left addStage (stageStrategies inputs) ([], 1%nat)).

(** *** calculateWaterfall *)

Definition calculateWaterfall (totalDistributions totalInvested : num)
    (inputs : EnhancedFundInputs) : WaterfallSummary :=
  let totalCapitalCalled :=
    (totalInvested / (1 - gpCommitment inputs))%num in
  let lpCapitalCalled :=
    (totalCapitalCalled * (1 - gpCommitment inputs))%num in
  let remainingDistributions := totalDistributions in
  let lpDistributions : num := 0 in
  let gpDistributions : num := 0 in
  let carriedInterest : num := 0 in
  (* Return of capital *)
  let capitalReturn := nmin remainingDistributions lpCapitalCalled in
  let lpDistributions := (lpDistributions + capitalReturn)%num in
  let remainingDistributions :=
    (remainingDistributions - capitalReturn)%num in
  (* Preferred return *)
  let preferredReturn :=
    (lpCapitalCalled * hurdleRate inputs
       * (fundLifeYears inputs * 0.7))%num in
  let prefReturn := nmin remainingDistributions preferredReturn in
  let lpDistributions := (lpDistributions + prefReturn)%num in
  let remainingDistributions := (remainingDistributions - prefReturn)%num in
  (* Carried interest on remaining *)
  let '(carriedInterest, gpDistributions, lpDistributions) :=
    if (remainingDistributions >? 0)%num then
      let carriedInterest :=
        (remainingDistributions * carryRate inputs)%num in
      (carriedInterest,
       (gpDistributions + carriedInterest)%num,
       (lpDistributions + (remainingDistributions - carriedInterest))%num)
    else (carriedInterest, gpDistributions, lpDistributions) in
  {| totalDistributions := totalDistributions;
     lpDistributions := lpDistributions;
     gpDistributions := gpDistributions;
     preferredReturn := prefReturn;
     carryPaid := carriedInterest;
     catchUpPaid := 0;
     lpShare :=
       if (totalDistributions >? 0)%num
       then (lpDistributions / totalDistributions)%num else 0;
     gpShare :=
       if (totalDistributions >? 0)%num
       then (gpDistributions / totalDistributions)%num else 0;
     effectiveCarry :=
       if (totalDistributions >? totalCapitalCalled)%num
       then (carriedInterest / (totalDistributions - totalCapitalCalled))%num
       else 0 |}.

(** *** The per-quarter helpers *)

Definition calculateQuarterlyDeployment (quarter : nat)
    (investmentQuarters totalCapital : num)
    (portfolio : list PortfolioCompany) : num :=
  if nge (of_nat quarter) investmentQuarters then 0
  else
    (* Simple linear deployment *)
    let baseDeployment := (totalCapital * 0.6 / investmentQuarters)%num in
    (* Add some variance *)
    let variance := (nsin (of_nat quarter * 0.5) * 0.2)%num in
    (baseDeployment * (1 + variance))%num.

Definition calculateQuarterlyDistributions (quarter : nat)
    (portfolio : list PortfolioCompany) (inputs : EnhancedFundInputs) : num :=
  if (quarter <? 12)%nat then 0
  else
    let exitRate : num := 0.05 in
    let avgMultiple : num := 3 in
    let avgInvestment :=
      (fundSize inputs * 1000000 / of_nat (List.length portfolio))%num in
    (avgInvestment * avgMultiple * exitRate
       * of_nat (List.length portfolio))%num.

Definition calculateQuarterlyFees (investedCapital feeRate : num)
    (quarter : nat) (investmentQuarters : num) : num :=
  (* Management fees on committed capital during investment period *)
  if nlt (of_nat quarter) investmentQuarters then (feeRate / 4)%num
  (* Fees on invested capital after investment period *)
  else (investedCapital * feeRate / 4)%num.

Definition calculateNAV (portfolio : list PortfolioCompany) (quarter : nat)
    : num :=
  fold_left
    (fun sum company =>
       match status company with
       | active =>
           let quartersSinceInvestment := of_nat quarter in
           let appreciation :=
             Math_pow 1.15 (quartersSinceInvestment / 4)%num in
           (sum + currentValuation company * appreciation)%num
       | _ => sum
       end)
    portfolio (Fin 0).

(** *** calculateIRRs

    Reading [timeline[timeline.length - 1]] of an empty array gives
    [undefined], and the property access on it throws a [TypeError]. *)

Definition setIRRs (grossIRR : num) (t : TimelineMetrics) : TimelineMetrics :=
  {| quarter := quarter t;
     quarterLabel := quarterLabel t;
     capitalDeployed := capitalDeployed t;
     capitalCalled := capitalCalled t;
     distributions := distributions t;
     netCashFlow := netCashFlow t;
     cumulativeCashFlow := cumulativeCashFlow t;
     totalInvested := totalInvested t;
     totalDistributed := totalDistributed t;
     portfolioValue := portfolioValue t;
     nav := nav t;
     dpi := dpi t;
     rvpi := rvpi t;
     tvpi := tvpi t;
     grossMOIC := grossMOIC t;
     netMOIC := netMOIC t;
     grossIRR := grossIRR;
     netIRR := (grossIRR * 0.8)%num;
     managementFees := managementFees t;
     carriedInterest := carriedInterest t |}.

(** The value assigned to every record, from the last record [final] of a
    timeline of [len] records. *)
Definition finalGrossIRR (final : TimelineMetrics) (len : nat) : num :=
  let totalIn := totalInvested final in
  let totalOut := (totalDistributed final + portfolioValue final)%num in
  let years := (of_nat len / 4)%num in
  let grossMOIC := (totalOut / totalIn)%num in
  (Math_pow grossMOIC (1 / years)%num - 1)%num.

Definition calculateIRRs (timeline : list TimelineMetrics)
    : outcome (list TimelineMetrics) :=
  match nth_error timeline (List.length timeline - 1) with
  | None => Threw "TypeError: Cannot read properties of undefined"
  | Some final =>
      let grossIRR := finalGrossIRR final (List.length timeline) in
      Returned (map (setIRRs grossIRR) timeline)
  end.

(** *** calculateTimeline *)

(** The mutable locals of [calculateTimeline]. *)
Record Accumulators : Type := {
  cumulativeInvested : num;
  cumulativeDistributed : num;
  cumulativeFees : num;
  cumulativeCarry : num;
  timeline : list TimelineMetrics
}.

Definition initialAccumulators : Accumulators :=
  {| cumulativeInvested := 0;
     cumulativeDistributed := 0;
     cumulativeFees := 0;
     cumulativeCarry := 0;
     timeline := [] |}.

Definition totalQuarters (inputs : EnhancedFundInputs) : num :=
  (fundLifeYears inputs * 4)%num.

Definition investmentQuarters (inputs : EnhancedFundInputs) : num :=
  (investmentPeriodYears inputs * 4)%num.

Definition vintageNumber (inputs : EnhancedFundInputs) : num :=
  match vintage inputs with
  | Some v => Fin v
  | None => NaN
  end.

(** The body of the [for] loop at one value of [quarter]. *)
Definition quarterBody (portfolio : list PortfolioCompany)
    (inputs : EnhancedFundInputs) (acc : Accumulators) (quarter : nat)
    : Accumulators :=
  let deployment :=
    calculateQuarterlyDeployment quarter (investmentQuarters inputs)
      (fundSize inputs * 1000000)%num portfolio in
  let cumulativeInvested := (cumulativeInvested acc + deployment)%num in
  let distributions :=
    calculateQuarterlyDistributions quarter portfolio inputs in
  let cumulativeDistributed :=
    (cumulativeDistributed acc + distributions)%num in
  let fees :=
    calculateQuarterlyFees cumulativeInvested (managementFeeRate inputs)
      quarter (investmentQuarters inputs) in
  let cumulativeFees := (cumulativeFees acc + fees)%num in
  let nav := calculateNAV portfolio quarter in
  let capitalCalled := (cumulativeInvested + cumulativeFees)%num in
  let cumulativeCarry := cumulativeCarry acc in
  let record :=
    {| quarter := quarter;
       quarterLabel :=
         {| labelQuarter := quarter mod 4 + 1;
            labelYear := (of_nat (quarter / 4) + vintageNumber inputs)%num |};
       capitalDeployed := deployment;
       capitalCalled := (deployment + fees)%num;
       distributions := distributions;
       netCashFlow := (distributions - (deployment + fees))%num;
       cumulativeCashFlow := (cumulativeDistributed - capitalCalled)%num;
       totalInvested := cumulativeInvested;
       totalDistributed := cumulativeDistributed;
       portfolioValue := nav;
       nav := nav;
       dpi :=
         if (capitalCalled >? 0)%num
         then (cumulativeDistributed / capitalCalled)%num else 0;
       rvpi :=
         if (capitalCalled >? 0)%num then (nav / capitalCalled)%num else 0;
       tvpi :=
         if (capitalCalled >? 0)%num
         then ((cumulativeDistributed + nav) / capitalCalled)%num else 0;
       grossMOIC :=
         if (cumulativeInvested >? 0)%num
         then ((cumulativeDistributed + nav) / cumulativeInvested)%num else 0;
       netMOIC :=
         if (capitalCalled >? 0)%num
         then ((cumulativeDistributed + nav - cumulativeCarry)
                 / capitalCalled)%num
         else 0;
       grossIRR := 0;
       netIRR := 0;
       managementFees := fees;
       carriedInterest := 0 |} in
  {| cumulativeInvested := cumulativeInvested;
     cumulativeDistributed := cumulativeDistributed;
     cumulativeFees := cumulativeFees;
     cumulativeCarry := cumulativeCarry;
     timeline := timeline acc ++ [record] |}.

(** [for (let quarter = 0; quarter < totalQuarters; quarter++)], entered at
    [quarter] with at most [fuel] iterations left to run. *)
Fixpoint quarterLoop (portfolio : list PortfolioCompany)
    (inputs : EnhancedFundInputs) (fuel quarter : nat) (acc : Accumulators)
    : Accumulators :=
  match fuel with
  | O => acc
  | S fuel' =>
      if nlt (of_nat quarter) (totalQuarters inputs) then
        quarterLoop portfolio inputs fuel' (S quarter)
          (quarterBody portfolio inputs acc quarter)
      else acc
  end.

(** The number of values of [quarter] below [totalQuarters]. *)
Definition quarterCount (inputs : EnhancedFundInputs) : nat :=
  Z.to_nat (Qceiling (fundLifeYears inputs * 4)).

Definition runQuarters (portfolio : list PortfolioCompany)
    (inputs : EnhancedFundInputs) : Accumulators :=
  quarterLoop portfolio inputs (S (quarterCount inputs)) 0
    initialAccumulators.

Definition calculateTimeline (portfolio : list PortfolioCompany)
    (inputs : EnhancedFundInputs) : outcome (list TimelineMetrics) :=
  calculateIRRs (timeline (runQuarters portfolio inputs)).

(** The accumulators once the loop body has run for quarters [0 .. k-1]. *)
Definition accumulatorsAfter (portfolio : list PortfolioCompany)
    (inputs : EnhancedFundInputs) (k : nat) : Accumulators :=
  fold_left (quarterBody portfolio inputs) (seq 0 k) initialAccumulators.

End Service.

End FundForecastService.

(** ** The model-level validator (core/enhanced-fund-model, [validateInputs])

    Unlike the service's validator it collects every complaint instead of
    throwing at the first, bounds the fund size from above, allows fees up
    to 5% only, and compares the investment period with the fund life. *)

Module EnhancedFundModel.

Record Validation : Type := {
  valid : bool;
  errors : list string
}.

(** [if (condition) errors.push(message)] as the list of pushed messages. *)
Definition pushIf (condition : bool) (message : string) : list string :=
  if condition then [message] else [].

Definition validateInputs (inputs : EnhancedFundInputs) : Validation :=
  let errors : list string := [] in
  (* Validate fund size *)
  let errors :=
    errors ++ pushIf (nle (fundSize inputs) 0 || ngt (fundSize inputs) 10000)
                     "Fund size must be between $0 and $10B" in
  (* Validate fee rates *)
  let errors :=
    errors ++ pushIf (nlt (managementFeeRate inputs) 0
                      || ngt (managementFeeRate inputs) 0.05)
                     "Management fee rate must be between 0% and 5%" in
  let errors :=
    errors ++ pushIf (nlt (carryRate inputs) 0 || ngt (carryRate inputs) 0.5)
                     "Carry rate must be between 0% and 50%" in
  (* Validate stage strategies *)
  let totalAllocation :=
    fold_left (fun sum strategy => (sum + Fin (allocationPercent strategy))%num)
              (stageStrategies inputs) (Fin 0) in
  let errors :=
    errors ++ pushIf (ngt (nabs (totalAllocation - 1)) 0.001)
                     "Stage allocations must sum to 100%" in
  (* Validate timeline *)
  let errors :=
    errors ++ pushIf (ngt (investmentPeriodYears inputs)
                          (fundLifeYears inputs))
                     "Investment period cannot exceed fund life" in
  {| valid := (List.length errors =? 0)%nat; errors := errors |}.

End EnhancedFundModel.

(** ** Application state (src/contexts/AppContext.tsx) *)

Module AppContext.

Section Reducer.

(** [ScenarioDefinition] and [ScenarioResult] are declared outside the
    files at hand; the reducer reads the [id] of the one and the
    [scenarioId] of the other, and merges partial updates into a scenario
    with an object spread. *)
Variable ScenarioDefinition : Type.
Variable scenario_id : ScenarioDefinition -> string.
Variable ScenarioUpdates : Type.
Variable spread : ScenarioDefinition -> ScenarioUpdates -> ScenarioDefinition.
Variable ScenarioResult : Type.
Variable scenarioId : ScenarioResult -> string.
Variable ActualInvestment : Type.

Record AppState : Type := {
  fundInputs : option EnhancedFundInputs;
  currentForecast : option ForecastResult;
  isCalculating : bool;
  scenarios : list ScenarioDefinition;
  scenarioResults : list ScenarioResult;
  actualInvestments : list ActualInvestment;
  selectedScenarioId : option string;
  isDirty : bool;
  lastSaved : option Date
}.

(** [Partial<AppState>]: a field is present or not. *)
Record PartialAppState : Type := {
  p_fundInputs : option (option EnhancedFundInputs);
  p_currentForecast : option (option ForecastResult);
  p_isCalculating : option bool;
  p_scenarios : option (list ScenarioDefinition);
  p_scenarioResults : option (list ScenarioResult);
  p_actualInvestments : option (list ActualInvestment);
  p_selectedScenarioId : option (option string);
  p_isDirty : option bool;
  p_lastSaved : option (option Date)
}.

Inductive AppAction : Type :=
| SET_FUND_INPUTS (payload : EnhancedFundInputs)
| SET_FORECAST_RESULT (payload : ForecastResult)
| SET_CALCULATING (payload : bool)
| ADD_SCENARIO (payload : ScenarioDefinition)
| UPDATE_SCENARIO (id : string) (updates : ScenarioUpdates)
| DELETE_SCENARIO (payload : string)
| SET_SCENARIO_RESULTS (payload : list ScenarioResult)
| SELECT_SCENARIO (payload : option string)
| SET_DIRTY (payload : bool)
| SET_LAST_SAVED (payload : Date)
| LOAD_STATE (payload : PartialAppState).

Definition initialState : AppState :=
  {| fundInputs := None;
     currentForecast := None;
     isCalculating := false;
     scenarios := [];
     scenarioResults := [];
     actualInvestments := [];
     selectedScenarioId := None;
     isDirty := false;
     lastSaved := None |}.

(** A field of a spread [{...state, ...payload}]. *)
Definition overridden {A : Type} (current : A) (given : option A) : A :=
  match given with
  | Some a => a
  | None => current
  end.

Definition appReducer (state : AppState) (action : AppAction) : AppState :=
  match action with
  | SET_FUND_INPUTS payload =>
      {| fundInputs := Some payload;
         currentForecast := currentForecast state;
         isCalculating := isCalculating state;
         scenarios := scenarios state;
         scenarioResults := scenarioResults state;
         actualInvestments := actualInvestments state;
         selectedScenarioId := selectedScenarioId state;
         isDirty := true;
         lastSaved := lastSaved state |}
  | SET_FORECAST_RESULT payload =>
      {| fundInputs := fundInputs state;
         currentForecast := Some payload;
         isCalculating := false;
         scenarios := scenarios state;
         scenarioResults := scenarioResults state;
         actualInvestments := actualInvestments state;
         selectedScenarioId := selectedScenarioId state;
         isDirty := isDirty state;
         lastSaved := lastSaved state |}
  | SET_CALCULATING payload =>
      {| fundInputs := fundInputs state;
         currentForecast := currentForecast state;
         isCalculating := payload;
         scenarios := scenarios state;
         scenarioResults := scenarioResults state;
         actualInvestments := actualInvestments state;
         selectedScenarioId := selectedScenarioId state;
         isDirty := isDirty state;
         lastSaved := lastSaved state |}
  | ADD_SCENARIO payload =>
      {| fundInputs := fundInputs state;
         currentForecast := currentForecast state;
         isCalculating := isCalculating state;
         scenarios := scenarios state ++ [payload];
         scenarioResults := scenarioResults state;
         actualInvestments := actualInvestments state;
         selectedScenarioId := selectedScenarioId state;
         isDirty := true;
         lastSaved := lastSaved state |}
  | UPDATE_SCENARIO id updates =>
      {| fundInputs := fundInputs state;
         currentForecast := currentForecast state;
         isCalculating := isCalculating state;
         scenarios :=
           map (fun s =>
                  if String.eqb (scenario_id s) id then spread s updates
                  else s)
               (scenarios state);
         scenarioResults := scenarioResults state;
         actualInvestments := actualInvestments state;
         selectedScenarioId := selectedScenarioId state;
         isDirty := true;
         lastSaved := lastSaved state |}
  | DELETE_SCENARIO payload =>
      {| fundInputs := fundInputs state;
         currentForecast := currentForecast state;
         isCalculating := isCalculating state;
         scenarios :=
           filter (fun s => negb (String.eqb (scenario_id s) payload))
                  (scenarios state);
         scenarioResults :=
           filter (fun r => negb (String.eqb (scenarioId r) payload))
                  (scenarioResults state);
         actualInvestments := actualInvestments state;
         selectedScenarioId :=
           match selectedScenarioId state with
           | Some selected =>
               if String.eqb selected payload then None else Some selected
           | None => None
           end;
         isDirty := true;
         lastSaved := lastSaved state |}
  | SET_SCENARIO_RESULTS payload =>
      {| fundInputs := fundInputs state;
         currentForecast := currentForecast state;
         isCalculating := isCalculating state;
         scenarios := scenarios state;
         scenarioResults := payload;
         actualInvestments := actualInvestments state;
         selectedScenarioId := selectedScenarioId state;
         isDirty := isDirty state;
         lastSaved := lastSaved state |}
  | SELECT_SCENARIO payload =>
      {| fundInputs := fundInputs state;
         currentForecast := currentForecast state;
         isCalculating := isCalculating state;
         scenarios := scenarios state;
         scenarioResults := scenarioResults state;
         actualInvestments := actualInvestments state;
         selectedScenarioId := payload;
         isDirty := isDirty state;
         lastSaved := lastSaved state |}
  | SET_DIRTY payload =>
      {| fundInputs := fundInputs state;
         currentForecast := currentForecast state;
         isCalculating := isCalculating state;
         scenarios := scenarios state;
         scenarioResults := scenarioResults state;
         actualInvestments := actualInvestments state;
         selectedScenarioId := selectedScenarioId state;
         isDirty := payload;
         lastSaved := lastSaved state |}
  | SET_LAST_SAVED payload =>
      {| fundInputs := fundInputs state;
         currentForecast := currentForecast state;
         isCalculating := isCalculating state;
         scenarios := scenarios state;
         scenarioResults := scenarioResults state;
         actualInvestments := actualInvestments state;
         selectedScenarioId := selectedScenarioId state;
         isDirty := false;
         lastSaved := Some payload |}
  | LOAD_STATE payload =>
      {| fundInputs := overridden (fundInputs state) (p_fundInputs payload);
         currentForecast :=
           overridden (currentForecast state) (p_currentForecast payload);
         isCalculating :=
           overridden (isCalculating state) (p_isCalculating payload);
         scenarios := overridden (scenarios state) (p_scenarios payload);
         scenarioResults :=
           overridden (scenarioResults state) (p_scenarioResults payload);
         actualInvestments :=
           overridden (actualInvestments state)
                      (p_actualInvestments payload);
         selectedScenarioId :=
           overridden (selectedScenarioId state)
                      (p_selectedScenarioId payload);
         isDirty := overridden (isDirty state) (p_isDirty payload);
         lastSaved := overridden (lastSaved state) (p_lastSaved payload) |}
  end.

(** The state after a sequence of dispatched actions. *)
Definition dispatched (state : AppState) (actions : list AppAction)
    : AppState :=
  fold_left appReducer actions state.

(** *** The provider's helper methods

    Each helper is described by the actions it dispatches, in order, and
    by whether it returns or rethrows.  The engine, the scenario runner
    and the storage are collaborators outside the files at hand: a helper
    takes the outcome of each of their calls. *)

Definition calculateForecast
    (generateForecast : EnhancedFundInputs -> outcome ForecastResult)
    (state : AppState) : list AppAction * outcome unit :=
  match fundInputs state with
  | None => ([], Returned tt)
  | Some inputs =>
      match generateForecast inputs with
      | Returned forecast =>
          ([SET_CALCULATING true; SET_FORECAST_RESULT forecast],
           Returned tt)
      | Threw message =>
          ([SET_CALCULATING true; SET_CALCULATING false], Threw message)
      end
  end.

Definition runScenarios
    (runner : EnhancedFundInputs -> list ScenarioDefinition
              -> outcome (list ScenarioResult))
    (state : AppState) : list AppAction * outcome unit :=
  match fundInputs state with
  | None => ([], Returned tt)
  | Some inputs =>
      if (List.length (scenarios state) =? 0)%nat then ([], Returned tt)
      else
        match runner inputs (scenarios state) with
        | Returned results =>
            ([SET_CALCULATING true; SET_SCENARIO_RESULTS results;
              SET_CALCULATING false],
             Returned tt)
        | Threw message =>
            ([SET_CALCULATING true; SET_CALCULATING false], Threw message)
        end
  end.

(** A write handed to the storage, by key. *)
Inductive StorageWrite : Type :=
| WriteFundInputs (value : EnhancedFundInputs)
| WriteScenarios (value : list ScenarioDefinition).

(** What a helper did: the writes it handed to the storage, the actions it
    dispatched, and how it ended. *)
Record Effects : Type := {
  writes : list StorageWrite;
  actions : list AppAction;
  result : outcome unit
}.

(** [saveFund]: [fund_inputs] is written first, then [scenarios]; [now] is
    the clock read of the final dispatch. *)
Definition saveFund
    (saveInputs : EnhancedFundInputs -> outcome unit)
    (saveScenarios : list ScenarioDefinition -> outcome unit)
    (now : Date) (state : AppState) : Effects :=
  match fundInputs state with
  | None => {| writes := []; actions := []; result := Returned tt |}
  | Some inputs =>
      match saveInputs inputs with
      | Threw message =>
          {| writes := [WriteFundInputs inputs];
             actions := [];
             result := Threw message |}
      | Returned _ =>
          match saveScenarios (scenarios state) with
          | Threw message =>
              {| writes := [WriteFundInputs inputs;
                            WriteScenarios (scenarios state)];
                 actions := [];
                 result := Threw message |}
          | Returned _ =>
              {| writes := [WriteFundInputs inputs;
                            WriteScenarios (scenarios state)];
                 actions := [SET_LAST_SAVED now];
                 result := Returned tt |}
          end
      end
  end.

(** [loadFund]: both reads are made first; a missing key reads as [None]. *)
Definition loadFund
    (storedInputs : outcome (option EnhancedFundInputs))
    (storedScenarios : outcome (option (list ScenarioDefinition)))
    (now : Date) : list AppAction * outcome unit :=
  match storedInputs with
  | Threw message => ([], Threw message)
  | Returned inputs =>
      match storedScenarios with
      | Threw message => ([], Threw message)
      | Returned stored =>
          match inputs with
          | Some loaded =>
              ([LOAD_STATE
                  {| p_fundInputs := Some (Some loaded);
                     p_currentForecast := None;
                     p_isCalculating := None;
                     p_scenarios :=
                       Some match stored with
                            | Some l => l
                            | None => []
                            end;
                     p_scenarioResults := None;
                     p_actualInvestments := None;
                     p_selectedScenarioId := None;
                     p_isDirty := Some false;
                     p_lastSaved := Some (Some now) |}],
               Returned tt)
          | None => ([], Returned tt)
          end
      end
  end.

End Reducer.

Arguments fundInputs {_ _ _} _.
Arguments currentForecast {_ _ _} _.
Arguments isCalculating {_ _ _} _.
Arguments scenarios {_ _ _} _.
Arguments scenarioResults {_ _ _} _.
Arguments actualInvestments {_ _ _} _.
Arguments selectedScenarioId {_ _ _} _.
Arguments isDirty {_ _ _} _.
Arguments lastSaved {_ _ _} _.
Arguments SET_FUND_INPUTS {_ _ _ _} payload.
Arguments SET_FORECAST_RESULT {_ _ _ _} payload.
Arguments SET_CALCULATING {_ _ _ _} payload.
Arguments ADD_SCENARIO {_ _ _ _} payload.
Arguments UPDATE_SCENARIO {_ _ _ _} id updates.
Arguments DELETE_SCENARIO {_ _ _ _} payload.
Arguments SET_SCENARIO_RESULTS {_ _ _ _} payload.
Arguments SELECT_SCENARIO {_ _ _ _} payload.
Arguments SET_DIRTY {_ _ _ _} payload.
Arguments SET_LAST_SAVED {_ _ _ _} payload.
Arguments LOAD_STATE {_ _ _ _} payload.
Arguments appReducer {_} scenario_id {_} spread {_} scenarioId {_}
  state action.
Arguments dispatched {_} scenario_id {_} spread {_} scenarioId {_}
  state actions.
Arguments calculateForecast {_ _ _ _} generateForecast state.
Arguments runScenarios {_ _ _ _} runner state.
Arguments saveFund {_ _ _ _} saveInputs saveScenarios now state.
Arguments WriteFundInputs {_} value.
Arguments WriteScenarios {_} value.
Arguments writes {_ _ _ _} _.
Arguments actions {_ _ _ _} _.
Arguments result {_ _ _ _} _.
Arguments loadFund {_ _ _ _} storedInputs storedScenarios now.

End AppContext.

(** ** The fund set-up form (pages/FundSetup) *)

Module FundSetup.

(** The fields of the form data that validation reads; the exit
    probabilities of a strategy are the values of its object, in key
    order. *)
Record FormStrategy : Type := {
  stage : FundStage;
  allocationPercent : Q;
  exitProbabilities : list Q
}.

Record FormData : Type := {
  fundName : string;
  fundSize : Q;
  stageStrategies : list FormStrategy
}.

Inductive Toast : Type :=
| ToastError (message : string)
| ToastSuccess (message : string).

Section Form.

(** [String.prototype.trim]. *)
Variable trim : string -> string.

Definition sumOf (values : list Q) : num :=
  fold_left (fun sum p => (sum + Fin p)%num) values (Fin 0).

Definition strategyError (strategy : FormStrategy) : list string :=
  let totalProb := sumOf (exitProbabilities strategy) in
  if ngt (nabs (totalProb - 1)) 0.001 then
    [String.append "Exit probabilities for "
       (String.append (stageName (stage strategy)) " must sum to 100%")]
  else [].

Definition validateForm (formData : FormData) : list string :=
  let errors : list string := [] in
  let errors :=
    errors ++ (if String.eqb (trim (fundName formData)) ""
               then ["Fund name is required"%string] else []) in
  let errors :=
    errors ++ (if nle (fundSize formData) 0
               then ["Fund size must be greater than 0"%string] else []) in
  (* Validate stage allocations sum to 100% *)
  let totalAllocation :=
    sumOf (map allocationPercent (stageStrategies formData)) in
  let errors :=
    errors ++ (if ngt (nabs (totalAllocation - 1)) 0.001
               then ["Stage allocations must sum to 100%"%string] else []) in
  (* Validate exit probabilities for each stage *)
  fold_left (fun errors strategy => errors ++ strategyError strategy)
            (stageStrategies formData) errors.

(** *** handleSave

    The form data is dispatched as the new fund inputs ([payloadOf] is the
    cast of the form data to the inputs type), and [saveFund] is then
    called.  The [saveFund] at hand is the one of the last render: it reads
    the application state as rendered before the click, [rendered]. *)

Variable ScenarioDefinition ScenarioUpdates ScenarioResult : Type.
Variable ActualInvestment : Type.
Variable payloadOf : FormData -> EnhancedFundInputs.

Record SaveEffects : Type := {
  dispatchedActions :
    list (AppContext.AppAction ScenarioDefinition ScenarioUpdates
            ScenarioResult ActualInvestment);
  storageWrites : list (AppContext.StorageWrite ScenarioDefinition);
  toast : Toast;
  navigatedTo : option string
}.

Definition handleSave
    (saveInputs : EnhancedFundInputs -> outcome unit)
    (saveScenarios : list ScenarioDefinition -> outcome unit)
    (now : Date)
    (rendered : AppContext.AppState ScenarioDefinition ScenarioResult
                  ActualInvestment)
    (formData : FormData) : SaveEffects :=
  match validateForm formData with
  | first :: _ =>
      {| dispatchedActions := [];
         storageWrites := [];
         toast := ToastError first;
         navigatedTo := None |}
  | [] =>
      let save := AppContext.saveFund saveInputs saveScenarios now rendered in
      {| dispatchedActions :=
           AppContext.SET_FUND_INPUTS (payloadOf formData)
             :: AppContext.actions save;
         storageWrites := AppContext.writes save;
         toast :=
           match AppContext.result save with
           | Returned _ => ToastSuccess "Fund configuration saved"
           | Threw _ => ToastError "Failed to save fund configuration"
           end;
         navigatedTo :=
           match AppContext.result save with
           | Returned _ => Some "/dashboard"%string
           | Threw _ => None
           end |}
  end.

End Form.

Arguments dispatchedActions {_ _ _ _} _.
Arguments storageWrites {_ _ _ _} _.
Arguments toast {_ _ _ _} _.
Arguments navigatedTo {_ _ _ _} _.
Arguments handleSave trim {_ _ _ _} payloadOf saveInputs saveScenarios now
  rendered formData.

End FundSetup.

(** ** Percentage inputs (components/inputs/PercentInput) *)

Module PercentInput.

Definition isDigit (c : Ascii.ascii) : bool :=
  let n := Ascii.nat_of_ascii c in ((48 <=? n) && (n <=? 57))%nat.

Definition isDot (c : Ascii.ascii) : bool :=
  (Ascii.nat_of_ascii c =? 46)%nat.

(** [input.replace(/[^0-9.]/g, '')]. *)
Fixpoint cleaned (input : string) : string :=
  match input with
  | EmptyString => EmptyString
  | String c rest =>
      if isDigit c || isDot c then String c (cleaned rest) else cleaned rest
  end.

Section Component.

(** The built-in [parseFloat]: the double nearest to the longest numeric
    prefix of the string, [NaN] when there is none. *)
Variable parseFloat : string -> num.

(** The [Percent] class lives in utils/MoneyTypes, outside the files at
    hand; [fromPercentage] may throw. *)
Variable Percent : Type.
Variable toPercentage : Percent -> Q.
Variable fromPercentage : num -> outcome Percent.

(** The props [min] and [max]. *)
Variables min max : Q.

Definition parseInput (input : string) : option Percent :=
  (* Remove all non-numeric characters except decimal point *)
  let cleaned := cleaned input in
  (* Handle empty input *)
  if String.eqb cleaned "" then None
  else
    (* Parse to number *)
    let num := parseFloat cleaned in
    (* Validate number *)
    match num with
    | NaN => None
    | _ =>
        (* Check constraints *)
        if nlt num min || ngt num max then None
        else
          (* Create Percent instance *)
          match fromPercentage num with
          | Returned percent => Some percent
          | Threw _ => None
          end
    end.

(** *** AllocationInput

    An array that may have holes: an assignment past the end leaves the
    skipped positions empty, and [reduce] passes over them. *)
Definition SparseArray : Type := list (option Percent).

Definition assignAt (array : SparseArray) (index : nat) (value : Percent)
    : SparseArray :=
  if (index <? List.length array)%nat then
    firstn index array ++ Some value :: skipn (S index) array
  else array ++ repeat None (index - List.length array) ++ [Some value].

Definition totalOf (array : SparseArray) : num :=
  fold_left
    (fun sum pct =>
       match pct with
       | Some p => (sum + Fin (toPercentage p))%num
       | None => sum
       end)
    array (Fin 0).

(** [handleChange (index, value)]: the array handed to [onChange], if it
    is called. *)
Definition handleChange (allocations : list Percent) (index : nat)
    (value : option Percent) : outcome (option SparseArray) :=
  match value with
  | None => Returned None
  | Some value =>
      let newAllocations := assignAt (map Some allocations) index value in
      (* Auto-adjust if close to 100% *)
      let newTotal := totalOf newAllocations in
      if nlt (nabs (newTotal - 100)) 1
         && (index + 1 <? List.length allocations)%nat then
        (* Adjust the last allocation to make it exactly 100% *)
        let lastIndex := (List.length allocations - 1)%nat in
        match nth_error newAllocations lastIndex with
        | Some (Some last) =>
            let adjustment :=
              (100 - newTotal + Fin (toPercentage last))%num in
            if nge adjustment 0 && nle adjustment 100 then
              match fromPercentage adjustment with
              | Returned adjusted =>
                  Returned (Some (assignAt newAllocations lastIndex adjusted))
              | Threw message => Threw message
              end
            else Returned (Some newAllocations)
        | _ => Threw "TypeError: Cannot read properties of undefined"
        end
      else Returned (Some newAllocations)
  end.

End Component.

End PercentInput.

(** ** The Excel export

    [exportFundModel] builds a workbook by calling, in a fixed order, the
    methods that append one sheet each.  The workbook is modelled by the
    sheets appended, in order; the cells of a sheet are modelled for the
    rows of the portfolio sheet only. *)

Module ExcelExportService.

(** The flags of [ExcelExportOptions] that [exportFundModel] reads; a flag
    left out is [None]. *)
Record ExcelExportOptions : Type := {
  includeSummary : option bool;
  includeCashFlows : option bool;
  includePortfolio : option bool;
  includeReserves : option bool;
  includePacing : option bool;
  includeAssumptions : option bool;
  includeWaterfall : option bool;
  lpFriendly : option bool
}.

(** The default [options = {}]. *)
Definition noOptions : ExcelExportOptions :=
  {| includeSummary := None;
     includeCashFlows := None;
     includePortfolio := None;
     includeReserves := None;
     includePacing := None;
     includeAssumptions := None;
     includeWaterfall := None;
     lpFriendly := None |}.

(** A destructuring default: it applies when the property is missing. *)
Definition orDefault (given : option bool) (default : bool) : bool :=
  match given with
  | Some flag => flag
  | None => default
  end.

(** The sheets, named after the methods that append them. *)
Inductive Sheet : Type :=
  | SummarySheet
  | CashFlowSheet
  | PortfolioSheet
  | ReserveAnalysisSheet
  | PacingAnalysisSheet
  | AssumptionsSheet
  | WaterfallSheet.

(** The name handed to [book_append_sheet]. *)
Definition sheetName (sheet : Sheet) : string :=
  match sheet with
  | SummarySheet => "Summary"
  | CashFlowSheet => "Cash Flows"
  | PortfolioSheet => "Portfolio"
  | ReserveAnalysisSheet => "Reserve Analysis"
  | PacingAnalysisSheet => "Pacing Analysis"
  | AssumptionsSheet => "Assumptions"
  | WaterfallSheet => "Waterfall"
  end.

Section Sheets.

Variables ReserveAllocation PacingAnalysis : Type.

Record AdditionalData : Type := {
  reserveAnalysis : option (list ReserveAllocation);
  pacingAnalysis : option PacingAnalysis
}.

(** [additionalData?.field] as a condition: an array or an object is
    truthy, a missing one is not. *)
Definition given {A : Type} (field : AdditionalData -> option A)
    (additionalData : option AdditionalData) : bool :=
  match additionalData with
  | Some data =>
      match field data with
      | Some _ => true
      | None => false
      end
  | None => false
  end.

Definition sheetIf (condition : bool) (sheet : Sheet) : list Sheet :=
  if condition then [sheet] else [].

Definition exportFundModel (forecastResult : ForecastResult)
    (fundInputs : EnhancedFundInputs)
    (additionalData : option AdditionalData)
    (options : ExcelExportOptions) : list Sheet :=
  let includeSummary := orDefault (includeSummary options) true in
  let includeCashFlows := orDefault (includeCashFlows options) true in
  let includePortfolio := orDefault (includePortfolio options) true in
  let includeReserves := orDefault (includeReserves options) true in
  let includePacing := orDefault (includePacing options) true in
  let includeAssumptions := orDefault (includeAssumptions options) true in
  let includeWaterfall := orDefault (includeWaterfall options) true in
  let lpFriendly := orDefault (lpFriendly options) false in
  (* Add sheets based on options *)
  sheetIf includeSummary SummarySheet
  ++ sheetIf includeCashFlows CashFlowSheet
  ++ sheetIf (includePortfolio && negb lpFriendly) PortfolioSheet
  ++ sheetIf (includeReserves && given reserveAnalysis additionalData)
       ReserveAnalysisSheet
  ++ sheetIf (includePacing && given pacingAnalysis additionalData)
       PacingAnalysisSheet
  ++ sheetIf includeAssumptions AssumptionsSheet
  ++ sheetIf includeWaterfall WaterfallSheet.

Definition exportLPReport (forecastResult : ForecastResult)
    (fundInputs : EnhancedFundInputs) : list Sheet :=
  exportFundModel forecastResult fundInputs None
    {| includeSummary := Some true;
       includeCashFlows := Some true;
       includePortfolio := Some false; (* Hide individual companies *)
       includeReserves := Some false;  (* Hide detailed reserves *)
       includePacing := Some true;
       includeAssumptions := Some true;
       includeWaterfall := Some true;
       lpFriendly := Some true |}.

End Sheets.

Arguments reserveAnalysis {ReserveAllocation PacingAnalysis} _.
Arguments pacingAnalysis {ReserveAllocation PacingAnalysis} _.
Arguments exportFundModel {ReserveAllocation PacingAnalysis} _ _ _ _.

(** *** addPortfolioSheet

    Truthiness of a number: [0] and [NaN] are falsy. *)
Definition truthy (x : num) : bool :=
  match x with
  | Fin q => negb (Qeq_bool q 0)
  | NaN => false
  | PInf | NInf => true
  end.

(** The cells of a portfolio row that are computed; a cell holding the
    empty string is [None].  The exit date goes through a formatter and the
    rate column is always empty. *)
Record PortfolioRow : Type := {
  companyName : string;
  rowStage : FundStage;
  rowStatus : CompanyStatus;
  initialInvestment : num;
  totalInvested : num;
  numberOfRounds : nat;
  rowValuation : num;
  exitValueCell : option num;
  multiple : num
}.

(** The callback of [portfolio.map]. [exitValue] is the optional property
    of that name, which no company built by the forecast service has. *)
Definition portfolioRow (company : PortfolioCompany)
    (exitValue : option num) : PortfolioRow :=
  let totalInvested :=
    fold_left (fun sum inv => (sum + amount inv)%num)
              (investments company) (Fin 0) in
  let exitOr {A : Type} (present : num -> A) (fallback : A) : A :=
    match exitValue with
    | Some value => if truthy value then present value else fallback
    | None => fallback
    end in
  let currentValue := exitOr (fun value => value) (currentValuation company) in
  {| companyName := name company;
     rowStage := currentStage company;
     rowStatus := status company;
     initialInvestment :=
       match investments company with
       | first :: _ => if truthy (amount first) then amount first else Fin 0
       | [] => Fin 0
       end;
     totalInvested := totalInvested;
     numberOfRounds := List.length (investments company);
     rowValuation := currentValuation company;
     exitValueCell := exitOr Some None;
     multiple :=
       if (totalInvested >? 0)%num then (currentValue / totalInvested)%num
       else Fin 0 |}.

End ExcelExportService.

(** ** Concrete instances

    Stand-ins for the two library functions, used only to run the model on
    concrete inputs (every general statement below quantifies over all
    functions), and the fund of the specification's scenario. *)

Module Samples.

(** A rational approximation of the sine: Bhaskara's formula on a half
    period, with the period taken as [2 * 355/113]. *)
Definition pi_approx : Q := 355 # 113.

Definition bhaskara (y : Q) : Q :=
  16 * (y * (pi_approx - y))
  / (5 * (pi_approx * pi_approx) - 4 * (y * (pi_approx - y))).

Definition approx_sin (x : Q) : Q :=
  let period := 2 * pi_approx in
  let y := x - inject_Z (Qfloor (x / period)) * period in
  if Qle_bool y pi_approx then bhaskara y else - bhaskara (y - pi_approx).

(** A power function that is exact on finite bases with integral exponents
    and gives [NaN] elsewhere. *)
Definition integral_pow (base exponent : num) : num :=
  match base, exponent with
  | Fin b, Fin e =>
      let e' := Qred e in
      if (Qden e' =? 1)%positive then Fin (Qred (Qpower b (Qnum e')))
      else NaN
  | _, _ => NaN
  end.

Definition standardRow : StageExitProbabilities :=
  {| great := 0.05; good := 0.15; mediocre := 0.3; failure := 0.5 |}.

Definition failureRow : StageExitProbabilities :=
  {| great := 0; good := 0; mediocre := 0; failure := 1 |}.

Definition seedStrategy (companies : Q) : StageStrategy :=
  {| stage := Seed;
     allocationPercent := 1;
     checkSize := 1000000;
     targetCompanies := companies;
     followOnPercent := 0.6;
     targetOwnership := 0.12;
     entryValuation := 15000000;
     reserveRatio := Some 0.5 |}.

(** A fund with 2% fee, 20% carry, 8% hurdle, 2% GP commitment and full
    catch-up. *)
Definition fund (size investmentPeriod life : Q)
    (strategies : list StageStrategy) (matrix : ExitProbabilityMatrix)
    : EnhancedFundInputs :=
  {| fundSize := size;
     vintage := Some 2024;
     managementFeeRate := 0.02;
     carryRate := 0.2;
     gpCommitment := 0.02;
     hurdleRate := 0.08;
     catchUpRate := Some 1;
     investmentPeriodYears := investmentPeriod;
     fundLifeYears := life;
     stageStrategies := strategies;
     exitProbabilityMatrix := matrix |}.

(** The scenario of the specification: $50M, 5-year investment period,
    10-year life, one Seed stage at 100% with 10 target companies. *)
Definition seedFund : EnhancedFundInputs :=
  fund 50 5 10 [seedStrategy 10] (fun _ => standardRow).

(** The same fund when every exit lands in the failure bucket. *)
Definition failingFund : EnhancedFundInputs :=
  fund 50 5 10 [seedStrategy 10] (fun _ => failureRow).

(** A one-year fund that never deploys: no investment period. *)
Definition idleFund : EnhancedFundInputs :=
  fund 50 0 1 [seedStrategy 10] (fun _ => standardRow).

(** A four-year fund whose only stage targets less than half a company. *)
Definition thinFund : EnhancedFundInputs :=
  fund 50 2 4 [seedStrategy 0.3] (fun _ => standardRow).

(** A four-year fund with two investment years and ten companies. *)
Definition shortFund : EnhancedFundInputs :=
  fund 50 2 4 [seedStrategy 10] (fun _ => standardRow).

Definition shortTimeline : list TimelineMetrics :=
  Eval vm_compute in
    match
      FundForecastService.calculateTimeline approx_sin integral_pow
        (FundForecastService.generatePortfolio shortFund) shortFund
    with
    | Returned tl => tl
    | Threw _ => []
    end.

(** The timeline of the idle fund under the stand-in functions. *)
Definition idleTimeline : list TimelineMetrics :=
  Eval vm_compute in
    match
      FundForecastService.calculateTimeline approx_sin integral_pow
        (FundForecastService.generatePortfolio idleFund) idleFund
    with
    | Returned tl => tl
    | Threw _ => []
    end.

End Samples.

(** ** Notions used by the statements *)

(** Cumulative invested and cumulative distributed capital do not decrease
    from a record to the next, under the order of numbers. *)
Definition non_decreasing (tl : list TimelineMetrics) : Prop :=
  forall k r1 r2,
    nth_error tl k = Some r1 ->
    nth_error tl (S k) = Some r2 ->
    nle (totalInvested r1) (totalInvested r2) = true
    /\ nle (totalDistributed r1) (totalDistributed r2) = true.

(** A company seeded from a stage strategy: one initial investment at the
    strategy's check size, target ownership and entry valuation, the
    post-money proxy as current valuation, and status [active]. *)
Definition seededFrom (s : StageStrategy) (c : PortfolioCompany) : Prop :=
  currentStage c = stage s
  /\ (exists d,
        investments c
        = [ {| round := stage s;
               amount := checkSize s;
               date := d;
               ownership := targetOwnership s;
               valuation := entryValuation s |} ])
  /\ currentValuation c = Fin (entryValuation s * (1 + targetOwnership s))
  /\ status c = active.

(** The cohorts of a list of strategies, the first company taking
    identifier [companyId]. *)
Fixpoint cohortsFrom (strategies : list StageStrategy) (companyId : nat)
    : list (list PortfolioCompany) :=
  match strategies with
  | [] => []
  | s :: rest =>
      let n := FundForecastService.companiesInStage s in
      FundForecastService.stageCompanies s companyId 0 n
        :: cohortsFrom rest (companyId + n)
  end.

(** The three conditions on a configuration that the specification names,
    and the four that [validateInputs] tests. *)
Definition allocationSum (inputs : EnhancedFundInputs) : Q :=
  fold_left (fun sum s => sum + allocationPercent s)
            (stageStrategies inputs) 0.

Definition allocationsSumToOne (inputs : EnhancedFundInputs) : Prop :=
  Qabs (allocationSum inputs - 1) <= 0.001.

Definition rowSum (row : StageExitProbabilities) : Q :=
  great row + good row + mediocre row + failure row.

Definition exitRowsSumToOne (inputs : EnhancedFundInputs) : Prop :=
  forall s, Qabs (rowSum (exitProbabilityMatrix inputs s) - 1) <= 0.001.

Definition periodWithinLife (inputs : EnhancedFundInputs) : Prop :=
  investmentPeriodYears inputs <= fundLifeYears inputs.

Definition passesValidation (inputs : EnhancedFundInputs) : Prop :=
  0 < fundSize inputs
  /\ 0 <= managementFeeRate inputs <= 0.1
  /\ 0 <= carryRate inputs <= 0.5
  /\ allocationsSumToOne inputs.

(** The members of the [FundStage] union. *)
Definition allStages : list FundStage :=
  [PreSeed; Seed; SeriesA; SeriesB; SeriesC; SeriesDPlus].

(** Modelled from the spec: the configuration test of the engine
    [EnhancedCohortEngine] (core/enhanced-cohort-engine), which is not
    among the sources.  The spec (sections 6 and 7) has a configuration
    rejected with a [ConfigurationError] when an exit-probability row does
    not sum to 1.0 within 1e-3 or when the investment period exceeds the
    fund life. *)
Definition configurationAccepted (inputs : EnhancedFundInputs) : bool :=
  forallb
    (fun s =>
       Qle_bool (Qabs (rowSum (exitProbabilityMatrix inputs s) - 1)) 0.001)
    allStages
  && Qle_bool (investmentPeriodYears inputs) (fundLifeYears inputs).

(** Modelled from the spec: the engine [EnhancedCohortEngine] that
    [runForecast] constructs and asks for the forecast, which is not among
    the sources.  The spec (section 7) has every configuration error
    detected before any simulation work, never mid-loop: the engine makes
    the test above first and only then runs the simulation proper,
    [simulate]. *)
Definition specEngine
    (simulate : EnhancedFundInputs -> outcome ForecastResult)
    (inputs : EnhancedFundInputs) : outcome ForecastResult :=
  if configurationAccepted inputs then simulate inputs
  else Threw "ConfigurationError".

(** ** Further notions and instances *)

(** The sum, in record order, of one per-quarter field over the records
    [0 .. k] of a timeline. *)
Definition runningTotal (field : TimelineMetrics -> num)
    (tl : list TimelineMetrics) (k : nat) : num :=
  fold_left nadd (map field (firstn (S k) tl)) (Fin 0).

Definition isActive (c : PortfolioCompany) : bool :=
  match status c with
  | active => true
  | _ => false
  end.

Module Cases.

(** A fund whose life is zero years. *)
Definition lifelessFund : EnhancedFundInputs :=
  Samples.fund 50 0 0 [Samples.seedStrategy 10] (fun _ => Samples.standardRow).

(** The short fund with the whole capital committed by the GP. *)
Definition gpOnlyFund : EnhancedFundInputs :=
  {| fundSize := 50;
     vintage := Some 2024;
     managementFeeRate := 0.02;
     carryRate := 0.2;
     gpCommitment := 1;
     hurdleRate := 0.08;
     catchUpRate := None;
     investmentPeriodYears := 2;
     fundLifeYears := 4;
     stageStrategies := [Samples.seedStrategy 10];
     exitProbabilityMatrix := fun _ => Samples.standardRow |}.

(** The short fund without GP commitment. *)
Definition lpOnlyFund : EnhancedFundInputs :=
  {| fundSize := 50;
     vintage := Some 2024;
     managementFeeRate := 0.02;
     carryRate := 0.2;
     gpCommitment := 0;
     hurdleRate := 0.08;
     catchUpRate := None;
     investmentPeriodYears := 2;
     fundLifeYears := 4;
     stageStrategies := [Samples.seedStrategy 10];
     exitProbabilityMatrix := fun _ => Samples.standardRow |}.

(** A fund without stage strategies. *)
Definition stagelessFund : EnhancedFundInputs :=
  Samples.fund 50 2 4 [] (fun _ => Samples.standardRow).

(** The scenario fund with a carry of 60%. *)
Definition highCarryFund : EnhancedFundInputs :=
  {| fundSize := 50;
     vintage := Some 2024;
     managementFeeRate := 0.02;
     carryRate := 0.6;
     gpCommitment := 0.02;
     hurdleRate := 0.08;
     catchUpRate := Some 1;
     investmentPeriodYears := 5;
     fundLifeYears := 10;
     stageStrategies := [Samples.seedStrategy 10];
     exitProbabilityMatrix := fun _ => Samples.standardRow |}.

(** A four-year fund that charges no management fee and invests during
    its first year. *)
Definition feelessFund : EnhancedFundInputs :=
  {| fundSize := 50;
     vintage := Some 2024;
     managementFeeRate := 0;
     carryRate := 0.2;
     gpCommitment := 0.02;
     hurdleRate := 0.08;
     catchUpRate := Some 1;
     investmentPeriodYears := 1;
     fundLifeYears := 4;
     stageStrategies := [Samples.seedStrategy 10];
     exitProbabilityMatrix := fun _ => Samples.standardRow |}.

(** A fund of five quarters that never deploys: no investment period. *)
Definition dormantFund : EnhancedFundInputs :=
  Samples.fund 50 0 (5 # 4) [Samples.seedStrategy 10]
    (fun _ => Samples.standardRow).

(** [Samples.integral_pow] extended to the base [+Infinity], where
    [Math.pow] gives [+Infinity] for a positive exponent, 1 for the
    exponent 0 and 0 for a negative one. *)
Definition pow_with_infinity (base exponent : num) : num :=
  match base, exponent with
  | PInf, Fin e =>
      if Qlt_bool 0 e then PInf else if Qeq_bool e 0 then Fin 1 else Fin 0
  | _, _ => Samples.integral_pow base exponent
  end.

End Cases.

(** The exact sum of a list of finite numbers. *)
Definition qsum (values : list Q) : Q := fold_left Qplus values 0.

Module FormCases.

(** A form that passes validation: one Seed stage at 100%. *)
Definition seedForm : FundSetup.FormData :=
  {| FundSetup.fundName := "Fund I";
     FundSetup.fundSize := 50;
     FundSetup.stageStrategies :=
       [ {| FundSetup.stage := Seed;
            FundSetup.allocationPercent := 1;
            FundSetup.exitProbabilities := [0.4; 0.3; 0.15; 0.1; 0.05] |} ]
  |}.

(** The same form without a name and with a size of zero. *)
Definition blankForm : FundSetup.FormData :=
  {| FundSetup.fundName := "";
     FundSetup.fundSize := 0;
     FundSetup.stageStrategies := FundSetup.stageStrategies seedForm |}.

(** The cast of the form data to fund inputs, on the fields both have. *)
Definition formInputs (f : FundSetup.FormData) : EnhancedFundInputs :=
  Samples.fund (FundSetup.fundSize f) 5 10
    (map (fun s =>
            {| stage := FundSetup.stage s;
               allocationPercent := FundSetup.allocationPercent s;
               checkSize := 1000000;
               targetCompanies := 10;
               followOnPercent := 0.6;
               targetOwnership := 0.1;
               entryValuation := 15000000;
               reserveRatio := None |})
         (FundSetup.stageStrategies f))
    (fun _ => Samples.standardRow).

End FormCases.

Module PercentCases.

(** The longest run of digits at the head of a string, and what follows. *)
Fixpoint leadingDigits (s : string) : list nat * string :=
  match s with
  | String c rest =>
      if PercentInput.isDigit c then
        let (digits, tail) := leadingDigits rest in
        ((Ascii.nat_of_ascii c - 48)%nat :: digits, tail)
      else ([], s)
  | EmptyString => ([], EmptyString)
  end.

Definition digitsValue (digits : list nat) : Q :=
  fold_left (fun value d => value * 10 + inject_Z (Z.of_nat d)) digits 0.

(** A stand-in for [parseFloat] on a string of digits and dots: the exact
    value of the longest prefix of the form [digits], [digits.],
    [digits.digits] or [.digits], [NaN] when there is none.  The built-in
    rounds that value to the nearest double; the stand-in does not. *)
Definition exactParseFloat (s : string) : num :=
  let (whole, rest) := leadingDigits s in
  let fraction :=
    match rest with
    | String c after =>
        if PercentInput.isDot c then fst (leadingDigits after) else []
    | EmptyString => []
    end in
  match whole, fraction with
  | [], [] => NaN
  | _, _ =>
      Fin (digitsValue whole
           + digitsValue fraction
             / inject_Z (10 ^ Z.of_nat (List.length fraction)))
  end.

(** A stand-in for the [Percent] class: the percentage itself, accepted
    when it is a finite number. *)
Definition fromPercentage (x : num) : outcome Q :=
  match x with
  | Fin q => Returned q
  | _ => Threw "Invalid percentage"
  end.

Definition parse : string -> option Q :=
  PercentInput.parseInput exactParseFloat Q fromPercentage 0 100.

End PercentCases.

(** * Properties *)

Import FundForecastService.

(** ** The model on small inputs *)

Example division_by_zero :
  (Fin 1 / Fin 0)%num = PInf /\ (Fin 0 / Fin 0)%num = NaN
  /\ (PInf * Fin 0)%num = NaN /\ nle (Fin 0) NaN = false.
Proof. repeat split. Qed.

Example round_halves_upward :
  Math_round 2.5 = 3%Z /\ Math_round (-2.5) = (-2)%Z
  /\ Math_round 0.3 = 0%Z /\ Math_round 10 = 10%Z.
Proof. repeat split. Qed.

Example scenario_portfolio :
  List.length (generatePortfolio Samples.seedFund) = 10%nat
  /\ option_map id (nth_error (generatePortfolio Samples.seedFund) 0)
     = Some "company-1"%string
  /\ option_map name (nth_error (generatePortfolio Samples.seedFund) 9)
     = Some "Seed Company 10"%string.
Proof. repeat split. Qed.

Example scenario_waterfall :
  (lpDistributions (calculateWaterfall 300 100 Samples.seedFund)
   === 271.2)%num
  /\ (carryPaid (calculateWaterfall 300 100 Samples.seedFund) === 28.8)%num.
Proof. split; vm_compute; reflexivity. Qed.

(** ** Arithmetic on finite numbers *)

Lemma Qlt_bool_iff (a b : Q) : Qlt_bool a b = true <-> a < b.
Proof.
  unfold Qlt_bool. rewrite negb_true_iff. split; intro H.
  - apply Qnot_le_lt. intro Hle. apply Qle_bool_iff in Hle. congruence.
  - destruct (Qle_bool b a) eqn:E; [|reflexivity].
    apply Qle_bool_iff in E. exfalso. lra.
Qed.

Lemma Qlt_bool_false (a b : Q) : Qlt_bool a b = false <-> b <= a.
Proof.
  unfold Qlt_bool. rewrite negb_false_iff. apply Qle_bool_iff.
Qed.

Lemma Qle_bool_false (a b : Q) : Qle_bool a b = false <-> b < a.
Proof.
  split; intro H.
  - apply Qnot_le_lt. intro Hle. apply Qle_bool_iff in Hle. congruence.
  - destruct (Qle_bool a b) eqn:E; [|reflexivity].
    apply Qle_bool_iff in E. exfalso. lra.
Qed.

Lemma ndiv_finite (a b : Q) : ~ b == 0 -> (Fin a / Fin b)%num = Fin (a / b).
Proof.
  intro Hb. simpl. destruct (Qeq_bool b 0) eqn:E; [|reflexivity].
  apply Qeq_bool_eq in E. contradiction.
Qed.

Lemma Qmin_cases (a b : Q) :
  (a <= b /\ Qmin a b == a) \/ (b <= a /\ Qmin a b == b).
Proof.
  destruct (Q.min_spec a b) as [[H1 H2]|[H1 H2]]; [left|right]; split;
    auto; lra.
Qed.

(** Decide a boolean comparison of rationals and keep the fact as an
    inequality. *)
Ltac case_cmp :=
  match goal with
  | |- context [Qlt_bool ?a ?b] =>
      let E := fresh "E" in
      destruct (Qlt_bool a b) eqn:E;
      [apply Qlt_bool_iff in E | apply Qlt_bool_false in E]
  | |- context [Qle_bool ?a ?b] =>
      let E := fresh "E" in
      destruct (Qle_bool a b) eqn:E;
      [apply Qle_bool_iff in E | apply Qle_bool_false in E]
  | |- context [Qeq_bool ?a ?b] =>
      let E := fresh "E" in
      destruct (Qeq_bool a b) eqn:E;
      [apply Qeq_bool_eq in E | apply Qeq_bool_neq in E]
  end.

(** ** The waterfall *)

(** C1. For finite totals with [totalDistributions >= 0] and
    [gpCommitment < 1], the summary returned by [calculateWaterfall]
    splits the whole amount it was given: [lpDistributions] and
    [gpDistributions] add up to the [totalDistributions] passed in, which
    is also what the summary reports as its total. *)
Theorem waterfall_conserves_distributions
    (total invested : Q) (inputs : EnhancedFundInputs) :
  0 <= total ->
  gpCommitment inputs < 1 ->
  let w := calculateWaterfall total invested inputs in
  (lpDistributions w + gpDistributions w === Fin total)%num
  /\ totalDistributions w = Fin total.
Proof.
  intros Htotal Hgp w. subst w.
  split;
    [|unfold calculateWaterfall;
      match goal with
      | |- context [if ?c then _ else _] => destruct c
      end; reflexivity].
  unfold calculateWaterfall.
  cbn [nsub nopp nadd].
  rewrite ndiv_finite by (intro; lra).
  cbn [nmul nmin nsub nopp nadd ngt nlt].
  set (lpCap := invested / (1 + - gpCommitment inputs)
                  * (1 + - gpCommitment inputs)).
  set (pref := lpCap * hurdleRate inputs * (fundLifeYears inputs * 0.7)).
  destruct (Qmin_cases total lpCap) as [[Hc Ec]|[Hc Ec]];
  destruct (Qmin_cases (total + - Qmin total lpCap) pref) as [[Hp Ep]|[Hp Ep]];
  case_cmp; cbn; first [ring | lra].
Qed.

Lemma waterfall_conserves_distributions_witness :
  (lpDistributions (calculateWaterfall 300 100 Samples.seedFund)
   + gpDistributions (calculateWaterfall 300 100 Samples.seedFund)
   === 300)%num
  /\ totalDistributions (calculateWaterfall 300 100 Samples.seedFund)
     = Fin 300.
Proof.
  apply (waterfall_conserves_distributions 300 100 Samples.seedFund);
    [discriminate | reflexivity].
Defined.

(** ** The quarterly loop *)

Section Timeline.

Variable Math_sin : Q -> Q.
Variable Math_pow : num -> num -> num.
Variable portfolio : list PortfolioCompany.
Variable inputs : EnhancedFundInputs.

Abbreviation body := (quarterBody Math_sin Math_pow portfolio inputs).
Abbreviation after := (accumulatorsAfter Math_sin Math_pow portfolio inputs).

Lemma below_ceiling (k : nat) (x : Q) :
  inject_Z (Z.of_nat k) < x <-> (k < Z.to_nat (Qceiling x))%nat.
Proof.
  split; intro H.
  - assert (Hc : (Z.of_nat k < Qceiling x)%Z).
    { rewrite Zlt_Qlt. eapply Qlt_le_trans; [exact H | apply Qle_ceiling]. }
    lia.
  - assert (Hc : (Z.of_nat k <= Qceiling x - 1)%Z) by lia.
    rewrite Zle_Qle in Hc.
    eapply Qle_lt_trans; [exact Hc | apply Qceiling_lt].
Qed.

(** The loop guard holds exactly below [quarterCount]. *)
Lemma guard_iff (k : nat) :
  nlt (of_nat k) (totalQuarters inputs) = true
  <-> (k < quarterCount inputs)%nat.
Proof.
  unfold totalQuarters, quarterCount, of_nat. cbn [nmul nlt].
  rewrite Qlt_bool_iff. apply below_ceiling.
Qed.

Lemma quarterLoop_fold (fuel q : nat) (acc : Accumulators) :
  (q <= quarterCount inputs)%nat ->
  (quarterCount inputs - q < fuel)%nat ->
  quarterLoop Math_sin Math_pow portfolio inputs fuel q acc
  = fold_left body (seq q (quarterCount inputs - q)) acc.
Proof.
  revert q acc. induction fuel as [|fuel IH]; intros q acc Hq Hfuel; [lia|].
  cbn [quarterLoop].
  destruct (nlt (of_nat q) (totalQuarters inputs)) eqn:G.
  - apply guard_iff in G.
    replace (quarterCount inputs - q)%nat
      with (S (quarterCount inputs - S q)) by lia.
    cbn [seq fold_left]. apply IH; lia.
  - assert (~ (q < quarterCount inputs)%nat) as Hn
      by (rewrite <- guard_iff; congruence).
    replace (quarterCount inputs - q)%nat with 0%nat by lia. reflexivity.
Qed.

(** The loop leaves by its guard: it runs the body for the quarters
    [0 .. quarterCount - 1] and no fuel is missing. *)
Lemma runQuarters_after :
  runQuarters Math_sin Math_pow portfolio inputs
  = after (quarterCount inputs).
Proof.
  unfold runQuarters, accumulatorsAfter.
  rewrite quarterLoop_fold by lia. now rewrite Nat.sub_0_r.
Qed.

Lemma after_S (k : nat) : after (S k) = body (after k) k.
Proof.
  unfold accumulatorsAfter. rewrite seq_S, fold_left_app. reflexivity.
Qed.

Lemma timeline_length (k : nat) : List.length (timeline (after k)) = k.
Proof.
  induction k as [|k IH]; [reflexivity|].
  rewrite after_S. cbn [quarterBody timeline].
  rewrite length_app, IH. cbn. lia.
Qed.

Lemma timeline_grows (k : nat) :
  exists r, timeline (after (S k)) = timeline (after k) ++ [r].
Proof.
  rewrite after_S. cbn [quarterBody timeline]. eexists. reflexivity.
Qed.

(** Later quarters leave the earlier records in place. *)
Lemma timeline_stable (n k : nat) :
  (k < n)%nat ->
  nth_error (timeline (after n)) k = nth_error (timeline (after (S k))) k.
Proof.
  induction n as [|n IH]; intro Hk; [lia|].
  destruct (Nat.eq_dec k n) as [->|Hne]; [reflexivity|].
  rewrite <- IH by lia.
  destruct (timeline_grows n) as [r ->].
  apply nth_error_app1. rewrite timeline_length. lia.
Qed.

End Timeline.

(** ** The stand-in sine stays within the range of [Math.sin] *)

Lemma bhaskara_range (y : Q) :
  0 <= y <= Samples.pi_approx -> 0 <= Samples.bhaskara y <= 1.
Proof.
  unfold Samples.bhaskara, Samples.pi_approx. intros [H0 H1].
  set (t := y * ((355 # 113) - y)).
  assert (Ht0 : 0 <= t) by (unfold t; nra).
  assert (Hs : 0 <= (2 * y - (355 # 113)) * (2 * y - (355 # 113))).
  { destruct (Qlt_le_dec (2 * y) (355 # 113)); nra. }
  assert (Ht1 : 4 * t <= (355 # 113) * (355 # 113)) by (unfold t; lra).
  assert (Hd : 0 < 5 * ((355 # 113) * (355 # 113)) - 4 * t) by lra.
  split.
  - apply Qle_shift_div_l; [exact Hd | lra].
  - apply Qle_shift_div_r; [exact Hd | lra].
Qed.

Lemma approx_sin_range (x : Q) : -1 <= Samples.approx_sin x <= 1.
Proof.
  unfold Samples.approx_sin.
  set (period := 2 * Samples.pi_approx).
  set (z := x / period).
  assert (Hp : 0 < period) by (unfold period, Samples.pi_approx; lra).
  assert (Hx : x == z * period) by (unfold z; field; intro; lra).
  pose proof (Qfloor_le z) as Hlo.
  pose proof (Qlt_floor z) as Hhi.
  rewrite inject_Z_plus in Hhi. change (inject_Z 1) with 1 in Hhi.
  set (f := inject_Z (Qfloor z)) in *.
  assert (Hy0 : 0 <= x - f * period) by nra.
  assert (Hy1 : x - f * period < period) by nra.
  set (y := x - f * period) in *.
  case_cmp.
  - pose proof (bhaskara_range y (conj Hy0 E)). lra.
  - assert (Hr : 0 <= y - Samples.pi_approx <= Samples.pi_approx)
      by (unfold period in Hy1; lra).
    pose proof (bhaskara_range _ Hr). lra.
Qed.

(** ** The records of a timeline *)

Lemma ngt_zero_false (x : num) : is_zero x -> (x >? 0)%num = false.
Proof.
  destruct x as [q| | |]; cbn; try contradiction.
  intro H. apply Qlt_bool_false. lra.
Qed.

Lemma ndiv_zero_l (c : Q) (y : num) :
  c == 0 -> (y >? 0)%num = true -> is_zero (Fin c / y)%num.
Proof.
  intros Hc. destruct y as [q| | |]; cbn; try discriminate.
  - intro Hq. apply Qlt_bool_iff in Hq. case_cmp; [lra|].
    cbn. rewrite Hc. field. intro; lra.
  - reflexivity.
Qed.

Section TimelineRecords.

Variable Math_sin : Q -> Q.
Variable Math_pow : num -> num -> num.
Variable portfolio : list PortfolioCompany.
Variable inputs : EnhancedFundInputs.

Abbreviation after' := (accumulatorsAfter Math_sin Math_pow portfolio inputs).
Abbreviation timelineOf :=
  (calculateTimeline Math_sin Math_pow portfolio inputs).

(** What [calculateTimeline] returns: the records pushed by the loop, each
    with the two rates computed from the last of them. *)
Lemma calculateTimeline_returned (tl : list TimelineMetrics) :
  timelineOf = Returned tl ->
  exists final,
    nth_error (timeline (after' (quarterCount inputs)))
              (quarterCount inputs - 1) = Some final
    /\ tl = map (setIRRs (finalGrossIRR Math_pow final (quarterCount inputs)))
                (timeline (after' (quarterCount inputs))).
Proof.
  unfold calculateTimeline, calculateIRRs.
  rewrite runQuarters_after, timeline_length.
  destruct (nth_error _ _) as [final|]; [|discriminate].
  intros [= <-]. now exists final.
Qed.

(** The call returns as soon as the loop runs at least once. *)
Lemma calculateTimeline_total :
  (0 < quarterCount inputs)%nat -> exists tl, timelineOf = Returned tl.
Proof.
  intro Hn. unfold calculateTimeline, calculateIRRs.
  rewrite runQuarters_after, timeline_length.
  destruct (nth_error _ _) as [final|] eqn:E; [eexists; reflexivity|].
  apply nth_error_None in E. rewrite timeline_length in E. lia.
Qed.

Lemma quarterCount_positive :
  0 < fundLifeYears inputs -> (0 < quarterCount inputs)%nat.
Proof.
  intro H. unfold quarterCount.
  apply (proj1 (below_ceiling 0 (fundLifeYears inputs * 4))).
  change (inject_Z (Z.of_nat 0)) with 0. lra.
Qed.

(** Record [k] of the result is the record pushed in quarter [k], up to the
    two rates. *)
Lemma record_of_quarter (tl : list TimelineMetrics) (k : nat)
    (r : TimelineMetrics) :
  timelineOf = Returned tl ->
  nth_error tl k = Some r ->
  exists r0 g,
    nth_error (timeline (after' (S k))) k = Some r0
    /\ r = setIRRs g r0
    /\ (k < quarterCount inputs)%nat.
Proof.
  intros Htl Hr. apply calculateTimeline_returned in Htl as (final & _ & ->).
  rewrite nth_error_map in Hr.
  destruct (nth_error (timeline (after' (quarterCount inputs))) k)
    as [r0|] eqn:E; [|discriminate].
  injection Hr as <-.
  assert (Hk : (k < quarterCount inputs)%nat).
  { rewrite <- (timeline_length Math_sin Math_pow portfolio inputs).
    apply nth_error_Some. congruence. }
  exists r0. eexists. split; [|split; [reflexivity | exact Hk]].
  now rewrite <- (timeline_stable _ _ _ _ (quarterCount inputs) k Hk).
Qed.

(** The fields of the record pushed in quarter [k], in terms of the
    accumulators at the end of that quarter. *)
Lemma pushed_record (k : nat) (r0 : TimelineMetrics) :
  nth_error (timeline (after' (S k))) k = Some r0 ->
  let acc := after' (S k) in
  let called := (cumulativeInvested acc + cumulativeFees acc)%num in
  quarter r0 = k
  /\ totalInvested r0 = cumulativeInvested acc
  /\ totalDistributed r0 = cumulativeDistributed acc
  /\ managementFees r0
     = calculateQuarterlyFees (cumulativeInvested acc)
         (managementFeeRate inputs) k (investmentQuarters inputs)
  /\ dpi r0
     = (if (called >? 0)%num
        then (cumulativeDistributed acc / called)%num else 0)
  /\ rvpi r0 = (if (called >? 0)%num then (nav r0 / called)%num else 0)
  /\ tvpi r0
     = (if (called >? 0)%num
        then ((cumulativeDistributed acc + nav r0) / called)%num else 0)
  /\ grossMOIC r0
     = (if (cumulativeInvested acc >? 0)%num
        then ((cumulativeDistributed acc + nav r0)
                / cumulativeInvested acc)%num
        else 0)
  /\ netMOIC r0
     = (if (called >? 0)%num
        then ((cumulativeDistributed acc + nav r0 - cumulativeCarry acc)
                / called)%num
        else 0).
Proof.
  intro H. rewrite after_S in *. cbn [quarterBody timeline] in H.
  rewrite nth_error_app2 in H by (rewrite timeline_length; lia).
  rewrite timeline_length, Nat.sub_diag in H. cbn [nth_error] in H.
  injection H as <-. repeat split; reflexivity.
Qed.

End TimelineRecords.

(** ** The shares of an empty waterfall *)

Lemma waterfall_shares_of_zero_total (total invested : num)
    (inputs : EnhancedFundInputs) :
  is_zero total ->
  lpShare (calculateWaterfall total invested inputs) = Fin 0
  /\ gpShare (calculateWaterfall total invested inputs) = Fin 0.
Proof.
  intro Hz. unfold calculateWaterfall.
  match goal with
  | |- context [if ?c then (_, _, _) else _] => destruct c
  end; cbn [lpShare gpShare]; now rewrite (ngt_zero_false _ Hz).
Qed.

(** ** The length of a returned timeline *)

Section Rates.

Variable Math_sin : Q -> Q.
Variable Math_pow : num -> num -> num.
Variable portfolio : list PortfolioCompany.
Variable inputs : EnhancedFundInputs.

Lemma timeline_result_length (tl : list TimelineMetrics) :
  calculateTimeline Math_sin Math_pow portfolio inputs = Returned tl ->
  List.length tl = quarterCount inputs.
Proof.
  intro Htl. apply calculateTimeline_returned in Htl as (final & _ & ->).
  now rewrite length_map, timeline_length.
Qed.

Lemma record_exists (tl : list TimelineMetrics) (k : nat) :
  calculateTimeline Math_sin Math_pow portfolio inputs = Returned tl ->
  (k < quarterCount inputs)%nat ->
  exists r, nth_error tl k = Some r.
Proof.
  intros Htl Hk. apply timeline_result_length in Htl.
  destruct (nth_error tl k) as [r|] eqn:E; [now exists r|].
  apply nth_error_None in E. lia.
Qed.

End Rates.

(** ** Management fees *)

Lemma fees_in_investment_period (invested feeRate : num) (q : nat)
    (investmentQuarters : num) :
  nlt (of_nat q) investmentQuarters = true ->
  calculateQuarterlyFees invested feeRate q investmentQuarters
  = (feeRate / 4)%num.
Proof.
  intro H. unfold calculateQuarterlyFees. now rewrite H.
Qed.

Lemma fees_after_investment_period (invested feeRate : num) (q : nat)
    (investmentQuarters : num) :
  nlt (of_nat q) investmentQuarters = false ->
  calculateQuarterlyFees invested feeRate q investmentQuarters
  = (invested * feeRate / 4)%num.
Proof.
  intro H. unfold calculateQuarterlyFees. now rewrite H.
Qed.

(** C3. On the $50M scenario fund (2% fee, 20 investment quarters) the fee
    charged in quarter 0 is [0.02 / 4 = 0.005], whatever the library
    functions return: the rate is not applied to the committed capital,
    which would give [50,000,000 * 0.005 = 250,000]. *)
Theorem investment_period_fee_omits_committed_capital :
  forall (Math_sin : Q -> Q) (Math_pow : num -> num -> num),
  exists tl r,
    calculateTimeline Math_sin Math_pow (generatePortfolio Samples.seedFund)
      Samples.seedFund = Returned tl
    /\ nth_error tl 0 = Some r
    /\ (managementFees r === 0.005)%num
    /\ ~ (managementFees r === 50 * 1000000 * (0.02 / 4))%num.
Proof.
  intros Math_sin Math_pow.
  set (p := generatePortfolio Samples.seedFund).
  assert (Hn : quarterCount Samples.seedFund = 40%nat) by reflexivity.
  destruct (calculateTimeline_total Math_sin Math_pow p Samples.seedFund)
    as [tl Htl]; [rewrite Hn; lia|].
  destruct (record_exists _ _ _ _ tl 0 Htl) as [r Hr]; [rewrite Hn; lia|].
  exists tl, r. split; [exact Htl|]. split; [exact Hr|].
  destruct (record_of_quarter _ _ _ _ tl 0 r Htl Hr) as (r0 & g & H0 & -> & _).
  destruct (pushed_record _ _ _ _ 0 r0 H0) as (_ & _ & _ & Hfee & _).
  cbn [setIRRs managementFees]. rewrite Hfee.
  rewrite fees_in_investment_period by reflexivity.
  split; vm_compute; [reflexivity | discriminate].
Qed.

(** ** What the accumulators hold *)

Lemma of_nat_nonneg (k : nat) : 0 <= inject_Z (Z.of_nat k).
Proof.
  change 0 with (inject_Z 0). rewrite <- Zle_Qle. lia.
Qed.

Lemma of_nat_positive (k : nat) : (0 < k)%nat -> 0 < inject_Z (Z.of_nat k).
Proof.
  intro H. change 0 with (inject_Z 0). rewrite <- Zlt_Qlt. lia.
Qed.

Section Accumulation.

Variable Math_sin : Q -> Q.
Variable Math_pow : num -> num -> num.
Variable portfolio : list PortfolioCompany.
Variable inputs : EnhancedFundInputs.

Hypothesis sin_range : forall x, -1 <= Math_sin x <= 1.
Hypothesis fund_positive : 0 < fundSize inputs.

Abbreviation acc_after :=
  (accumulatorsAfter Math_sin Math_pow portfolio inputs).
Abbreviation deployment_in k :=
  (calculateQuarterlyDeployment Math_sin k (investmentQuarters inputs)
     (fundSize inputs * 1000000)%num portfolio).

Lemma cumulativeInvested_S (k : nat) :
  cumulativeInvested (acc_after (S k))
  = (cumulativeInvested (acc_after k) + deployment_in k)%num.
Proof. rewrite after_S. reflexivity. Qed.

Lemma cumulativeDistributed_S (k : nat) :
  cumulativeDistributed (acc_after (S k))
  = (cumulativeDistributed (acc_after k)
     + calculateQuarterlyDistributions k portfolio inputs)%num.
Proof. rewrite after_S. reflexivity. Qed.

Lemma cumulativeFees_S (k : nat) :
  cumulativeFees (acc_after (S k))
  = (cumulativeFees (acc_after k)
     + calculateQuarterlyFees (cumulativeInvested (acc_after (S k)))
         (managementFeeRate inputs) k (investmentQuarters inputs))%num.
Proof. rewrite !after_S. reflexivity. Qed.

(** A quarter's deployment is a finite, non-negative amount: the divisor
    [investmentQuarters] exceeds the quarter when the division is reached,
    and the variance factor is at least [0.8]. *)
Lemma deployment_nonneg (k : nat) :
  exists d, deployment_in k = Fin d /\ 0 <= d.
Proof.
  unfold calculateQuarterlyDeployment, investmentQuarters, of_nat, nge.
  cbn [nmul nle]. pose proof (of_nat_nonneg k) as Hk.
  case_cmp; [exists 0; split; [reflexivity | lra]|].
  cbn [nmul ndiv nsin nadd]. case_cmp; [exfalso; lra|].
  eexists. split; [reflexivity|].
  set (x := fundSize inputs * 1000000 * 0.6).
  set (y := investmentPeriodYears inputs * 4) in *.
  assert (Hq : 0 < x / y) by (apply Qlt_shift_div_l; unfold x; lra).
  pose proof (sin_range (inject_Z (Z.of_nat k) * 0.5)) as Hs.
  set (s := Math_sin _) in *. nra.
Qed.

(** With an investment period, quarter 0 deploys a positive amount. *)
Lemma first_deployment_positive :
  0 < investmentPeriodYears inputs ->
  exists d, deployment_in 0 = Fin d /\ 0 < d.
Proof.
  intro Hip.
  unfold calculateQuarterlyDeployment, investmentQuarters, of_nat, nge.
  cbn [nmul nle]. change (inject_Z (Z.of_nat 0)) with 0.
  case_cmp; [exfalso; lra|].
  cbn [nmul ndiv nsin nadd]. case_cmp; [exfalso; lra|].
  eexists. split; [reflexivity|].
  set (x := fundSize inputs * 1000000 * 0.6).
  set (y := investmentPeriodYears inputs * 4) in *.
  assert (Hq : 0 < x / y) by (apply Qlt_shift_div_l; unfold x; lra).
  pose proof (sin_range (0 * 0.5)) as Hs.
  set (s := Math_sin _) in *. nra.
Qed.

Lemma invested_nonneg (k : nat) :
  exists c, cumulativeInvested (acc_after k) = Fin c /\ 0 <= c.
Proof.
  induction k as [|k (c & Hc & Hc0)]; [exists 0; split; [reflexivity|lra]|].
  destruct (deployment_nonneg k) as (d & Hd & Hd0).
  rewrite cumulativeInvested_S, Hc, Hd. exists (c + d).
  split; [reflexivity | lra].
Qed.

Lemma invested_positive (k : nat) :
  0 < investmentPeriodYears inputs ->
  exists c, cumulativeInvested (acc_after (S k)) = Fin c /\ 0 < c.
Proof.
  intro Hip. induction k as [|k (c & Hc & Hc0)].
  - destruct (first_deployment_positive Hip) as (d & Hd & Hd0).
    rewrite cumulativeInvested_S, Hd. exists (0 + d).
    split; [reflexivity | lra].
  - destruct (deployment_nonneg (S k)) as (d & Hd & Hd0).
    rewrite cumulativeInvested_S, Hc, Hd. exists (c + d).
    split; [reflexivity | lra].
Qed.

(** Fees accumulate to a finite, non-negative amount when the fee rate is
    not negative. *)
Lemma fees_nonneg (k : nat) :
  0 <= managementFeeRate inputs ->
  exists c, cumulativeFees (acc_after k) = Fin c /\ 0 <= c.
Proof.
  intro Hrate.
  induction k as [|k (c & Hc & Hc0)]; [exists 0; split; [reflexivity|lra]|].
  rewrite cumulativeFees_S, Hc.
  destruct (invested_nonneg (S k)) as (v & -> & Hv).
  unfold calculateQuarterlyFees.
  destruct (nlt (of_nat k) (investmentQuarters inputs));
    cbn -[Qmult Qdiv Qplus]; eexists; (split; [reflexivity|]).
  - assert (0 <= managementFeeRate inputs / 4)
      by (apply Qle_shift_div_l; lra). lra.
  - assert (0 <= v * managementFeeRate inputs / 4)
      by (apply Qle_shift_div_l; nra). lra.
Qed.

End Accumulation.

(** ** Distributions *)

Section Distributions.

Variable Math_sin : Q -> Q.
Variable Math_pow : num -> num -> num.
Variable portfolio : list PortfolioCompany.
Variable inputs : EnhancedFundInputs.

Abbreviation dist_after :=
  (accumulatorsAfter Math_sin Math_pow portfolio inputs).

(** Nothing is distributed in the first twelve quarters. *)
Lemma distributions_before_lockup (k : nat) :
  (k < 12)%nat -> calculateQuarterlyDistributions k portfolio inputs = Fin 0.
Proof.
  intro Hk. unfold calculateQuarterlyDistributions.
  apply Nat.ltb_lt in Hk. now rewrite Hk.
Qed.

(** From quarter 12 on, a non-empty portfolio distributes 15% of the fund
    size each quarter, whatever the exit probabilities. *)
Lemma distributions_after_lockup (k : nat) :
  (12 <= k)%nat -> portfolio <> [] ->
  exists x,
    calculateQuarterlyDistributions k portfolio inputs = Fin x
    /\ x == fundSize inputs * 1000000 * 3 * 0.05.
Proof.
  intros Hk Hne. unfold calculateQuarterlyDistributions, of_nat.
  apply Nat.ltb_ge in Hk. rewrite Hk.
  assert (Hlen : 0 < inject_Z (Z.of_nat (List.length portfolio))).
  { apply of_nat_positive. destruct portfolio; [congruence | cbn; lia]. }
  cbn [nmul ndiv]. case_cmp; [exfalso; lra|].
  eexists. split; [reflexivity|]. field. intro; lra.
Qed.

Lemma distributions_nonneg (k : nat) :
  portfolio <> [] -> 0 < fundSize inputs ->
  exists x,
    calculateQuarterlyDistributions k portfolio inputs = Fin x /\ 0 <= x.
Proof.
  intros Hne Hsize. destruct (Nat.lt_ge_cases k 12) as [Hk|Hk].
  - rewrite distributions_before_lockup by exact Hk.
    exists 0. split; [reflexivity | lra].
  - destruct (distributions_after_lockup k Hk Hne) as (x & -> & Hx).
    exists x. split; [reflexivity | lra].
Qed.

Lemma distributed_before_lockup (k : nat) :
  (k <= 12)%nat ->
  exists c, cumulativeDistributed (dist_after k) = Fin c /\ c == 0.
Proof.
  induction k as [|k IH]; intro Hk; [exists 0; split; reflexivity|].
  destruct IH as (c & Hc & Hc0); [lia|].
  rewrite cumulativeDistributed_S, Hc, distributions_before_lockup by lia.
  exists (c + 0). split; [reflexivity | lra].
Qed.

Lemma distributed_nonneg (k : nat) :
  portfolio <> [] -> 0 < fundSize inputs ->
  exists c, cumulativeDistributed (dist_after k) = Fin c /\ 0 <= c.
Proof.
  intros Hne Hsize.
  induction k as [|k (c & Hc & Hc0)]; [exists 0; split; [reflexivity|lra]|].
  destruct (distributions_nonneg k Hne Hsize) as (x & Hx & Hx0).
  rewrite cumulativeDistributed_S, Hc, Hx. exists (c + x).
  split; [reflexivity | lra].
Qed.

End Distributions.

(** With no company in the portfolio the average investment is a division
    by zero, and the quarter's distributions are [NaN]. *)
Lemma empty_portfolio_distributions (k : nat) (inputs : EnhancedFundInputs) :
  (12 <= k)%nat -> 0 < fundSize inputs ->
  calculateQuarterlyDistributions k [] inputs = NaN.
Proof.
  intros Hk Hsize. unfold calculateQuarterlyDistributions, of_nat.
  apply Nat.ltb_ge in Hk. rewrite Hk. cbn [List.length nmul ndiv].
  change (Qeq_bool (inject_Z (Z.of_nat 0)) 0) with true. cbv iota.
  assert (Hs : sgn (fundSize inputs * 1000000) = Gt)
    by (apply Qgt_alt; lra).
  rewrite Hs. reflexivity.
Qed.

(** The sample timeline is what [calculateTimeline] returns on the short
    fund under the stand-in functions. *)
Lemma shortTimeline_returned :
  calculateTimeline Samples.approx_sin Samples.integral_pow
    (generatePortfolio Samples.shortFund) Samples.shortFund
  = Returned Samples.shortTimeline.
Proof. vm_compute. reflexivity. Qed.

(** ** Monotone cumulative totals *)

(** X28. For a positive fund size and a portfolio with at least one
    company, cumulative invested and cumulative distributed capital are
    non-decreasing from each record of the timeline to the next. *)
Theorem timeline_cumulative_totals_non_decreasing
    (Math_sin : Q -> Q) (Math_pow : num -> num -> num)
    (portfolio : list PortfolioCompany) (inputs : EnhancedFundInputs)
    (tl : list TimelineMetrics) :
  (forall x, -1 <= Math_sin x <= 1) ->
  0 < fundSize inputs ->
  portfolio <> [] ->
  calculateTimeline Math_sin Math_pow portfolio inputs = Returned tl ->
  non_decreasing tl.
Proof.
  intros Hsin Hsize Hne Htl k r1 r2 H1 H2.
  destruct (record_of_quarter _ _ _ _ tl k r1 Htl H1)
    as (a1 & g1 & Ha1 & -> & _).
  destruct (record_of_quarter _ _ _ _ tl (S k) r2 Htl H2)
    as (a2 & g2 & Ha2 & -> & _).
  destruct (pushed_record _ _ _ _ k a1 Ha1) as (_ & Hi1 & Hd1 & _).
  destruct (pushed_record _ _ _ _ (S k) a2 Ha2) as (_ & Hi2 & Hd2 & _).
  cbn [setIRRs totalInvested totalDistributed].
  rewrite Hi1, Hi2, Hd1, Hd2.
  rewrite (cumulativeInvested_S _ _ _ _ (S k)).
  rewrite (cumulativeDistributed_S _ _ _ _ (S k)).
  destruct (invested_nonneg Math_sin Math_pow portfolio inputs Hsin Hsize (S k))
    as (c & -> & _).
  destruct (deployment_nonneg Math_sin portfolio inputs Hsin Hsize (S k))
    as (d & -> & Hd).
  destruct (distributed_nonneg Math_sin Math_pow portfolio inputs (S k)
              Hne Hsize) as (c' & -> & _).
  destruct (distributions_nonneg portfolio inputs (S k) Hne Hsize)
    as (x & -> & Hx).
  cbn [nadd nle]. split; apply Qle_bool_iff; lra.
Qed.

Lemma timeline_cumulative_totals_non_decreasing_witness :
  non_decreasing Samples.shortTimeline.
Proof.
  apply (timeline_cumulative_totals_non_decreasing
           Samples.approx_sin Samples.integral_pow
           (generatePortfolio Samples.shortFund) Samples.shortFund).
  - exact approx_sin_range.
  - reflexivity.
  - discriminate.
  - exact shortTimeline_returned.
Defined.

Lemma nle_nan_r (x : num) : nle x NaN = false.
Proof. destruct x; reflexivity. Qed.

(** C7. Cumulative totals are meant to be non-decreasing for every fund of
    positive size, and the code breaks this on an empty portfolio: the fund
    below has a positive size and its only stage targets 0.3 companies,
    which rounds to none.  Whatever the library functions return, the
    timeline is produced, cumulative distributed capital is 0 in quarter 11
    and [NaN] from quarter 12 on (the average investment divides by the
    number of companies, unguarded), and [0 <= NaN] is false. *)
Theorem empty_portfolio_breaks_monotonicity :
  0 < fundSize Samples.thinFund
  /\ generatePortfolio Samples.thinFund = []
  /\ forall (Math_sin : Q -> Q) (Math_pow : num -> num -> num),
       exists tl,
         calculateTimeline Math_sin Math_pow
           (generatePortfolio Samples.thinFund) Samples.thinFund
         = Returned tl
         /\ ~ non_decreasing tl.
Proof.
  split; [reflexivity|]. split; [reflexivity|].
  intros Math_sin Math_pow.
  change (generatePortfolio Samples.thinFund) with (@nil PortfolioCompany).
  assert (Hn : quarterCount Samples.thinFund = 16%nat) by reflexivity.
  destruct (calculateTimeline_total Math_sin Math_pow [] Samples.thinFund)
    as [tl Htl]; [rewrite Hn; lia|].
  exists tl. split; [exact Htl|]. intro Hmono.
  destruct (record_exists _ _ _ _ tl 11 Htl) as [r1 H1]; [rewrite Hn; lia|].
  destruct (record_exists _ _ _ _ tl 12 Htl) as [r2 H2]; [rewrite Hn; lia|].
  destruct (Hmono 11%nat r1 r2 H1 H2) as [_ Hd].
  destruct (record_of_quarter _ _ _ _ tl 12 r2 Htl H2)
    as (a2 & g2 & Ha2 & -> & _).
  destruct (pushed_record _ _ _ _ 12 a2 Ha2) as (_ & _ & Hd2 & _).
  cbn [setIRRs totalDistributed] in Hd. rewrite Hd2 in Hd.
  rewrite cumulativeDistributed_S in Hd.
  rewrite empty_portfolio_distributions in Hd by (reflexivity || lia).
  destruct (distributed_before_lockup Math_sin Math_pow [] Samples.thinFund 12)
    as (c & Hc & _); [lia|].
  rewrite Hc in Hd. cbn [nadd] in Hd. rewrite nle_nan_r in Hd. discriminate.
Qed.

(** ** Distributions and the exit-probability matrix *)

Lemma waterfall_of_zero_total (invested : Q) (inputs : EnhancedFundInputs) :
  0 <= invested ->
  gpCommitment inputs < 1 ->
  0 <= hurdleRate inputs ->
  0 <= fundLifeYears inputs ->
  let w := calculateWaterfall 0 invested inputs in
  totalDistributions w = Fin 0 /\ is_zero (gpDistributions w).
Proof.
  intros Hinv Hgp Hh Hlife w. subst w. unfold calculateWaterfall.
  cbn [nsub nopp nadd]. rewrite ndiv_finite by (intro; lra).
  cbn [nmul nmin nsub nopp nadd ngt nlt].
  set (lpCap := invested / (1 + - gpCommitment inputs)
                  * (1 + - gpCommitment inputs)).
  assert (Hcap : lpCap == invested) by (unfold lpCap; field; intro; lra).
  set (pref := lpCap * hurdleRate inputs * (fundLifeYears inputs * 0.7)).
  assert (Hpref : 0 <= pref).
  { unfold pref. rewrite Hcap.
    apply Qmult_le_0_compat; [apply Qmult_le_0_compat|]; lra. }
  destruct (Qmin_cases 0 lpCap) as [[Hc Ec]|[Hc Ec]];
  destruct (Qmin_cases (0 + - Qmin 0 lpCap) pref) as [[Hp Ep]|[Hp Ep]];
  case_cmp; cbn; split; try reflexivity; lra.
Qed.

(** C4, as amended. Whatever the exit-probability matrix holds, failure
    only included, nothing is distributed during the first twelve quarters:
    in every record of quarters 0 to 11 cumulative distributed capital and
    [dpi] are 0; and a waterfall over total distributions of 0 (invested
    capital, hurdle rate and fund life not negative, GP commitment below 1)
    reports [totalDistributions = 0] and [gpDistributions = 0]. *)
Theorem no_distributions_during_lockup
    (Math_sin : Q -> Q) (Math_pow : num -> num -> num)
    (portfolio : list PortfolioCompany) (inputs : EnhancedFundInputs)
    (tl : list TimelineMetrics) (k : nat) (r : TimelineMetrics)
    (invested : Q) :
  calculateTimeline Math_sin Math_pow portfolio inputs = Returned tl ->
  nth_error tl k = Some r ->
  (k < 12)%nat ->
  0 <= invested ->
  gpCommitment inputs < 1 ->
  0 <= hurdleRate inputs ->
  0 <= fundLifeYears inputs ->
  (is_zero (totalDistributed r) /\ is_zero (dpi r))
  /\ totalDistributions (calculateWaterfall 0 invested inputs) = Fin 0
  /\ is_zero (gpDistributions (calculateWaterfall 0 invested inputs)).
Proof.
  intros Htl Hr Hk Hinv Hgp Hh Hlife.
  split; [|now apply waterfall_of_zero_total].
  destruct (record_of_quarter _ _ _ _ tl k r Htl Hr)
    as (r0 & g & H0 & -> & _).
  destruct (pushed_record _ _ _ _ k r0 H0) as (_ & _ & Hd & _ & Hdpi & _).
  cbn [setIRRs totalDistributed dpi]. rewrite Hd, Hdpi.
  destruct (distributed_before_lockup Math_sin Math_pow portfolio inputs (S k))
    as (c & -> & Hc); [lia|].
  split; [exact Hc|].
  destruct (_ >? 0)%num eqn:G; [|reflexivity].
  now apply ndiv_zero_l.
Qed.

Lemma no_distributions_during_lockup_witness :
  match nth_error Samples.shortTimeline 11 with
  | Some r =>
      (is_zero (totalDistributed r) /\ is_zero (dpi r))
      /\ totalDistributions
           (calculateWaterfall 0 30000000 Samples.shortFund) = Fin 0
      /\ is_zero (gpDistributions
                    (calculateWaterfall 0 30000000 Samples.shortFund))
  | None => False
  end.
Proof.
  destruct (nth_error Samples.shortTimeline 11) as [r|] eqn:E;
    [|vm_compute in E; discriminate].
  apply (no_distributions_during_lockup
           Samples.approx_sin Samples.integral_pow
           (generatePortfolio Samples.shortFund) Samples.shortFund
           Samples.shortTimeline 11 r 30000000).
  - exact shortTimeline_returned.
  - exact E.
  - lia.
  - discriminate.
  - reflexivity.
  - discriminate.
  - discriminate.
Defined.

(** C4, as stated, fails: the scenario fund with every exit probability on
    the failure bucket still distributes.  For every sine within [-1, 1]
    and every power function the timeline is produced, and its record of
    quarter 12 has non-zero cumulative distributions and a non-zero [dpi]:
    the distribution formula never reads the matrix. *)
Lemma failure_only_fund_still_distributes :
  (forall s,
     failure (exitProbabilityMatrix Samples.failingFund s) == 1
     /\ great (exitProbabilityMatrix Samples.failingFund s) == 0
     /\ good (exitProbabilityMatrix Samples.failingFund s) == 0
     /\ mediocre (exitProbabilityMatrix Samples.failingFund s) == 0)
  /\ forall (Math_sin : Q -> Q) (Math_pow : num -> num -> num),
       (forall x, -1 <= Math_sin x <= 1) ->
       exists tl r,
         calculateTimeline Math_sin Math_pow
           (generatePortfolio Samples.failingFund) Samples.failingFund
         = Returned tl
         /\ nth_error tl 12 = Some r
         /\ ~ is_zero (totalDistributed r)
         /\ ~ is_zero (dpi r).
Proof.
  split; [intro s; repeat split; reflexivity|].
  intros Math_sin Math_pow Hsin.
  set (p := generatePortfolio Samples.failingFund).
  assert (Hp : p <> []) by discriminate.
  assert (Hn : quarterCount Samples.failingFund = 40%nat) by reflexivity.
  assert (Hsize : 0 < fundSize Samples.failingFund) by reflexivity.
  destruct (calculateTimeline_total Math_sin Math_pow p Samples.failingFund)
    as [tl Htl]; [rewrite Hn; lia|].
  destruct (record_exists _ _ _ _ tl 12 Htl) as [r Hr]; [rewrite Hn; lia|].
  exists tl, r. split; [exact Htl|]. split; [exact Hr|].
  destruct (record_of_quarter _ _ _ _ tl 12 r Htl Hr)
    as (r0 & g & H0 & -> & _).
  destruct (pushed_record _ _ _ _ 12 r0 H0) as (_ & _ & Hd & _ & Hdpi & _).
  cbn [setIRRs totalDistributed dpi]. rewrite Hd, Hdpi.
  rewrite cumulativeDistributed_S.
  destruct (distributed_before_lockup Math_sin Math_pow p
              Samples.failingFund 12) as (c & -> & Hc); [lia|].
  destruct (distributions_after_lockup p Samples.failingFund 12)
    as (x & -> & Hx); [lia | exact Hp |].
  destruct (invested_positive Math_sin Math_pow p Samples.failingFund
              Hsin Hsize 12) as (ci & -> & Hci); [reflexivity|].
  destruct (fees_nonneg Math_sin Math_pow p Samples.failingFund
              Hsin Hsize 13) as (cf & -> & Hcf); [discriminate|].
  change (fundSize Samples.failingFund) with 50 in Hx.
  cbn [nadd ngt nlt ndiv is_zero num_eq].
  assert (Hpos : 0 < (c + x) / (ci + cf))
    by (apply Qlt_shift_div_l; lra).
  split; [intro; lra|].
  case_cmp; [|exfalso; lra]. case_cmp; [exfalso; lra|].
  unfold is_zero. cbn [num_eq]. intro. lra.
Qed.

(** ** Cohort generation *)

Lemma stageCompanies_length (s : StageStrategy) (companyId i n : nat) :
  List.length (stageCompanies s companyId i n) = n.
Proof.
  revert companyId i. induction n as [|n IH]; intros; cbn; [|rewrite IH];
    reflexivity.
Qed.

Lemma stageCompanies_seeded (s : StageStrategy) (companyId i n : nat) :
  Forall (seededFrom s) (stageCompanies s companyId i n).
Proof.
  revert companyId i. induction n as [|n IH]; intros; cbn; constructor;
    [|apply IH].
  repeat split. now exists companyId.
Qed.

(** The [forEach] appends the cohorts of the strategies in order. *)
Lemma addStage_fold (strategies : list StageStrategy)
    (portfolio : list PortfolioCompany) (companyId : nat) :
  fst (fold_left addStage strategies (portfolio, companyId))
  = portfolio ++ List.concat (cohortsFrom strategies companyId).
Proof.
  revert portfolio companyId.
  induction strategies as [|s rest IH]; intros; cbn.
  - now rewrite app_nil_r.
  - rewrite IH. now rewrite app_assoc.
Qed.

Lemma generatePortfolio_cohorts (inputs : EnhancedFundInputs) :
  generatePortfolio inputs
  = List.concat (cohortsFrom (stageStrategies inputs) 1).
Proof. unfold generatePortfolio. now rewrite addStage_fold. Qed.

Lemma cohortsFrom_each (P : StageStrategy -> list PortfolioCompany -> Prop) :
  (forall s companyId,
     P s (stageCompanies s companyId 0 (companiesInStage s))) ->
  forall strategies companyId,
    Forall2 P strategies (cohortsFrom strategies companyId).
Proof.
  intros HP strategies. induction strategies as [|s rest IH]; intro; cbn;
    constructor; [apply HP | apply IH].
Qed.

(** C5. The generated portfolio is, stage strategy by stage strategy and in
    order, a cohort of exactly [round(targetCompanies)] companies (none when
    that integer is negative), each seeded with one initial investment at
    the strategy's check size, target ownership and entry valuation, with
    [currentValuation = entryValuation * (1 + targetOwnership)] and status
    [active]; a single stage with 10 target companies gives exactly 10
    companies. *)
Theorem generatePortfolio_materializes_each_stage
    (inputs : EnhancedFundInputs) :
  (exists cohorts,
     generatePortfolio inputs = List.concat cohorts
     /\ Forall2
          (fun s cohort =>
             Z.of_nat (List.length cohort)
             = Z.max 0 (Math_round (targetCompanies s))
             /\ Forall (seededFrom s) cohort)
          (stageStrategies inputs) cohorts)
  /\ (forall s,
        stageStrategies inputs = [s] -> targetCompanies s == 10 ->
        List.length (generatePortfolio inputs) = 10%nat
        /\ Forall (seededFrom s) (generatePortfolio inputs)).
Proof.
  split.
  - exists (cohortsFrom (stageStrategies inputs) 1).
    split; [apply generatePortfolio_cohorts|].
    apply cohortsFrom_each. intros s companyId. split.
    + rewrite stageCompanies_length. unfold companiesInStage. lia.
    + apply stageCompanies_seeded.
  - intros s Hs Hten. rewrite generatePortfolio_cohorts, Hs. cbn.
    rewrite app_nil_r. split; [|apply stageCompanies_seeded].
    rewrite stageCompanies_length. unfold companiesInStage, Math_round.
    rewrite Hten. reflexivity.
Qed.

(** A stage that generates no company leaves the identifiers of the
    later stages as they are, so it can be dropped from the list. *)
Lemma cohorts_skip_empty_stage (before after : list StageStrategy)
    (s : StageStrategy) (companyId : nat) :
  companiesInStage s = 0%nat ->
  List.concat (cohortsFrom (before ++ s :: after) companyId)
  = List.concat (cohortsFrom (before ++ after) companyId).
Proof.
  intro Hnone. revert companyId.
  induction before as [|b before IH]; intro companyId; cbn.
  - rewrite Hnone, Nat.add_0_r. reflexivity.
  - f_equal. apply IH.
Qed.

(** C9, as amended. Cohort generation has no failure path: for every input
    it returns, stage strategy by stage strategy and in order, a cohort of
    [max 0 (round targetCompanies)] companies seeded from the strategy.  The
    cohort of a stage strategy whose [targetCompanies] rounds to zero or
    below is therefore empty, whatever its [allocationPercent], and the
    stage is silently omitted: the portfolio is the one generated when that
    stage strategy is left out of the list, other stages being present or
    not. *)
Theorem zero_rounding_stage_contributes_no_company
    (inputs : EnhancedFundInputs) :
  (exists cohorts,
     generatePortfolio inputs = List.concat cohorts
     /\ Forall2
          (fun s cohort =>
             Z.of_nat (List.length cohort)
             = Z.max 0 (Math_round (targetCompanies s))
             /\ Forall (seededFrom s) cohort
             /\ ((Math_round (targetCompanies s) <= 0)%Z -> cohort = []))
          (stageStrategies inputs) cohorts)
  /\ (forall before s after reduced,
        stageStrategies inputs = before ++ s :: after ->
        (Math_round (targetCompanies s) <= 0)%Z ->
        stageStrategies reduced = before ++ after ->
        generatePortfolio inputs = generatePortfolio reduced).
Proof.
  split.
  - exists (cohortsFrom (stageStrategies inputs) 1).
    split; [apply generatePortfolio_cohorts|].
    apply cohortsFrom_each. intros s companyId. split; [|split].
    + rewrite stageCompanies_length. unfold companiesInStage. lia.
    + apply stageCompanies_seeded.
    + intro Hround. unfold companiesInStage.
      replace (Z.to_nat (Math_round (targetCompanies s))) with 0%nat by lia.
      reflexivity.
  - intros before s after reduced Hall Hround Hreduced.
    rewrite !generatePortfolio_cohorts, Hall, Hreduced.
    apply cohorts_skip_empty_stage. unfold companiesInStage. lia.
Qed.

(** A stage that rounds to zero between two others: the fund gets the
    companies of the other two, numbered without a gap. *)
Example mixed_fund_skips_thin_stage :
  map id
    (generatePortfolio
       (Samples.fund 50 2 4
          [Samples.seedStrategy 1; Samples.seedStrategy 0.3;
           Samples.seedStrategy 2]
          (fun _ => Samples.standardRow)))
  = ["company-1"; "company-2"; "company-3"]%string.
Proof. reflexivity. Qed.

(** C9, as stated, fails: the only stage of the fund below has a positive
    allocation and targets 0.3 companies, which rounds to zero; validation
    accepts the fund and cohort generation returns the empty portfolio. *)
Lemma under_specified_stage_silently_omitted :
  (exists s,
     In s (stageStrategies Samples.thinFund)
     /\ Math_round (targetCompanies s) = 0%Z
     /\ 0 < allocationPercent s)
  /\ validateInputs Samples.thinFund = Returned tt
  /\ generatePortfolio Samples.thinFund = [].
Proof.
  split; [|split; reflexivity].
  exists (Samples.seedStrategy 0.3). repeat split. now left.
Qed.

(** ** The tiers of the waterfall *)

(** C6, as amended. The waterfall has no catch-up tier, whether or not a
    catch-up rate is configured: [catchUpPaid] is always 0, and whatever
    remains after return of capital and preferred return is split
    [carryRate] to the GP and [1 - carryRate] to the LPs. *)
Theorem waterfall_has_no_catch_up_tier
    (total invested : Q) (inputs : EnhancedFundInputs) :
  gpCommitment inputs < 1 ->
  let w := calculateWaterfall total invested inputs in
  let lpCapitalCalled :=
    invested / (1 - gpCommitment inputs) * (1 - gpCommitment inputs) in
  let capitalReturn := Qmin total lpCapitalCalled in
  let prefReturn :=
    Qmin (total - capitalReturn)
         (lpCapitalCalled * hurdleRate inputs
            * (fundLifeYears inputs * 0.7)) in
  let remainder := total - capitalReturn - prefReturn in
  lpCapitalCalled == invested
  /\ 0 <= remainder
  /\ catchUpPaid w = Fin 0
  /\ (preferredReturn w === prefReturn)%num
  /\ (gpDistributions w === carryRate inputs * remainder)%num
  /\ (carryPaid w === carryRate inputs * remainder)%num
  /\ (lpDistributions w
      === capitalReturn + prefReturn
          + (1 - carryRate inputs) * remainder)%num.
Proof.
  intros Hgp w lpCap capitalReturn prefReturn remainder.
  subst w. unfold calculateWaterfall.
  cbn [nsub nopp nadd]. rewrite ndiv_finite by (intro; lra).
  cbn [nmul nmin nsub nopp nadd ngt nlt].
  change (invested / (1 + - gpCommitment inputs)
            * (1 + - gpCommitment inputs)) with lpCap.
  change (Qmin total lpCap) with capitalReturn.
  change (Qmin (total + - capitalReturn)
               (lpCap * hurdleRate inputs * (fundLifeYears inputs * 0.7)))
    with prefReturn.
  assert (Hrem : 0 <= remainder).
  { unfold remainder, prefReturn, capitalReturn.
    destruct (Qmin_cases total lpCap) as [[Hc Ec]|[Hc Ec]];
    destruct (Qmin_cases (total - Qmin total lpCap)
                (lpCap * hurdleRate inputs * (fundLifeYears inputs * 0.7)))
      as [[Hp Ep]|[Hp Ep]]; lra. }
  split; [unfold lpCap; field; intro; lra|]. split; [exact Hrem|].
  fold (total - capitalReturn) (total - capitalReturn - prefReturn).
  fold remainder.
  destruct (Qlt_bool 0 remainder) eqn:E; cbn; repeat split;
    try reflexivity; try ring.
  all: apply Qlt_bool_false in E;
    assert (Hz : remainder == 0) by lra; rewrite Hz; ring.
Qed.

Lemma waterfall_has_no_catch_up_tier_witness :
  catchUpPaid (calculateWaterfall 300 100 Samples.seedFund) = Fin 0
  /\ (gpDistributions (calculateWaterfall 300 100 Samples.seedFund)
      === 0.2 * (300 - 100 - 56))%num.
Proof.
  destruct (waterfall_has_no_catch_up_tier 300 100 Samples.seedFund)
    as (_ & _ & Hcatch & _ & Hgp & _); [reflexivity|].
  split; [exact Hcatch|]. vm_compute. reflexivity.
Defined.

(** C6, as stated, fails: with full catch-up configured, distributions of
    300 on 100 invested leave 144 after return of capital (100) and
    preferred return (56), yet [catchUpPaid] is 0 and the GP receives
    [0.2 * 144 = 28.8], not 20% of the 200 of profit above capital
    return. *)
Lemma configured_catch_up_is_not_paid :
  catchUpRate Samples.seedFund = Some 1
  /\ 0 < carryRate Samples.seedFund
  /\ (preferredReturn (calculateWaterfall 300 100 Samples.seedFund)
      === 56)%num
  /\ (gpDistributions (calculateWaterfall 300 100 Samples.seedFund)
      === 28.8)%num
  /\ catchUpPaid (calculateWaterfall 300 100 Samples.seedFund) = Fin 0
  /\ ~ (gpDistributions (calculateWaterfall 300 100 Samples.seedFund)
        === 0.2 * (300 - 100))%num.
Proof.
  repeat split; vm_compute; (reflexivity || discriminate).
Qed.

(** ** Validation and the forecast entry point *)

Lemma totalAllocation_finite (inputs : EnhancedFundInputs) :
  totalAllocation inputs = Fin (allocationSum inputs).
Proof.
  unfold totalAllocation, allocationSum.
  generalize 0. induction (stageStrategies inputs) as [|s rest IH];
    intro a; cbn; [reflexivity | apply IH].
Qed.

(** [validateInputs] returns exactly on the configurations that pass its
    four tests, and throws on all others. *)
Lemma validateInputs_passes (inputs : EnhancedFundInputs) :
  passesValidation inputs -> validateInputs inputs = Returned tt.
Proof.
  unfold passesValidation, allocationsSumToOne, Qminus.
  intros (Hsize & [Hf0 Hf1] & [Hc0 Hc1] & Halloc).
  unfold validateInputs. rewrite totalAllocation_finite.
  cbn [nle nlt ngt nsub nopp nadd nabs].
  repeat (case_cmp; try (exfalso; lra)); cbn; try reflexivity;
    repeat (case_cmp; try (exfalso; lra)); cbn; reflexivity.
Qed.

Lemma validateInputs_throws (inputs : EnhancedFundInputs) :
  ~ passesValidation inputs -> exists msg, validateInputs inputs = Threw msg.
Proof.
  unfold passesValidation, allocationsSumToOne, Qminus. intro Hnot.
  unfold validateInputs. rewrite totalAllocation_finite.
  cbn [nle nlt ngt nsub nopp nadd nabs].
  destruct (Qle_bool (fundSize inputs) 0) eqn:S0; [eexists; reflexivity|].
  destruct (Qlt_bool (managementFeeRate inputs) 0) eqn:F0;
    [eexists; reflexivity|].
  destruct (Qlt_bool 0.1 (managementFeeRate inputs)) eqn:F1;
    [eexists; reflexivity|].
  destruct (Qlt_bool (carryRate inputs) 0) eqn:C0; [eexists; reflexivity|].
  destruct (Qlt_bool 0.5 (carryRate inputs)) eqn:C1; [eexists; reflexivity|].
  destruct (Qlt_bool 0.001 (Qabs (allocationSum inputs + - (1)))) eqn:A;
    [eexists; reflexivity|].
  apply Qle_bool_false in S0.
  apply Qlt_bool_false in F0, F1, C0, C1, A. exfalso. apply Hnot.
  repeat split; assumption.
Qed.

Lemma validateInputs_decides (inputs : EnhancedFundInputs) :
  passesValidation inputs \/ ~ passesValidation inputs.
Proof.
  unfold passesValidation, allocationsSumToOne.
  destruct (Qlt_le_dec 0 (fundSize inputs));
  destruct (Qlt_le_dec (managementFeeRate inputs) 0);
  destruct (Qlt_le_dec 0.1 (managementFeeRate inputs));
  destruct (Qlt_le_dec (carryRate inputs) 0);
  destruct (Qlt_le_dec 0.5 (carryRate inputs));
  destruct (Qlt_le_dec 0.001 (Qabs (allocationSum inputs - 1)));
  first [left; repeat split; assumption | right; intro H; lra].
Qed.

(** The engine of the specification accepts exactly the configurations
    whose exit rows sum to one and whose investment period is within the
    fund life. *)
Lemma configurationAccepted_iff (inputs : EnhancedFundInputs) :
  configurationAccepted inputs = true
  <-> exitRowsSumToOne inputs /\ periodWithinLife inputs.
Proof.
  unfold configurationAccepted, exitRowsSumToOne, periodWithinLife.
  rewrite andb_true_iff, forallb_forall, Qle_bool_iff. split.
  - intros [Hrows Hperiod]. split; [|exact Hperiod].
    intro s. apply Qle_bool_iff, Hrows. destruct s; cbn; tauto.
  - intros [Hrows Hperiod]. split; [|exact Hperiod].
    intros s _. apply Qle_bool_iff, Hrows.
Qed.

(** C2, as amended. [runForecast] fails before any simulation work is
    done, with an error whose message starts with [Forecast failed: ] and
    does not depend on the simulation, whenever the stage allocations do
    not sum to 1.0 within 1e-3, or an exit-probability row does not, or
    the investment period exceeds the fund life, and also whenever the
    configuration fails one of the three further tests of [validateInputs]
    (fund size positive, fee rate in [0, 0.1], carry rate in [0, 0.5]).
    The failures that [validateInputs] raises occur whatever the engine is;
    the rows and the period are left to the engine, taken here as the
    specification has it.  For a configuration violating none of these
    conditions the outcome is that of the simulation: its forecast,
    post-processed, or its error under the prefix.  Sums are taken in
    exact arithmetic. *)
Theorem runForecast_fails_fast_on_validation (inputs : EnhancedFundInputs) :
  (~ allocationsSumToOne inputs \/ ~ exitRowsSumToOne inputs
   \/ ~ periodWithinLife inputs \/ ~ passesValidation inputs ->
   exists reason,
     forall simulate,
       runForecast (specEngine simulate) inputs
       = Threw (String.append "Forecast failed: " reason))
  /\ (~ passesValidation inputs ->
      exists reason,
        validateInputs inputs = Threw reason
        /\ forall engine,
             runForecast engine inputs
             = Threw (String.append "Forecast failed: " reason))
  /\ (passesValidation inputs ->
      exitRowsSumToOne inputs -> periodWithinLife inputs ->
      forall simulate,
        runForecast (specEngine simulate) inputs
        = match simulate inputs with
          | Returned forecast =>
              Returned (postProcessForecast forecast inputs)
          | Threw message =>
              Threw (String.append "Forecast failed: " message)
          end).
Proof.
  split; [|split].
  - intro Hbad. unfold runForecast.
    destruct (validateInputs inputs) as [[]|reason] eqn:Hvalid;
      [|exists reason; reflexivity].
    assert (Hpass : passesValidation inputs).
    { destruct (validateInputs_decides inputs) as [Hpass|Hnot];
        [exact Hpass|].
      destruct (validateInputs_throws inputs Hnot) as [msg Hmsg].
      congruence. }
    assert (Hrejected : configurationAccepted inputs = false).
    { destruct (configurationAccepted inputs) eqn:Haccepted;
        [|reflexivity].
      apply configurationAccepted_iff in Haccepted as [Hrows Hperiod].
      pose proof Hpass as (_ & _ & _ & Halloc).
      destruct Hbad as [H|[H|[H|H]]]; exfalso; apply H; assumption. }
    exists "ConfigurationError"%string. intro simulate.
    unfold specEngine. rewrite Hrejected. reflexivity.
  - intro Hnot. destruct (validateInputs_throws inputs Hnot) as [reason Hv].
    exists reason. split; [exact Hv|]. intro engine.
    unfold runForecast. rewrite Hv. reflexivity.
  - intros Hpass Hrows Hperiod simulate. unfold runForecast, specEngine.
    rewrite (validateInputs_passes inputs Hpass).
    rewrite (proj2 (configurationAccepted_iff inputs) (conj Hrows Hperiod)).
    destruct (simulate inputs); reflexivity.
Qed.

(** The scenario fund violates none of the conditions: the service and the
    engine of the specification both accept it. *)
Example scenario_fund_is_accepted :
  passesValidation Samples.seedFund
  /\ exitRowsSumToOne Samples.seedFund
  /\ periodWithinLife Samples.seedFund
  /\ configurationAccepted Samples.seedFund = true.
Proof.
  assert (Haccepted : configurationAccepted Samples.seedFund = true)
    by reflexivity.
  destruct (proj1 (configurationAccepted_iff _) Haccepted) as [Hrows Hperiod].
  repeat split; try assumption; try discriminate.
Qed.

(** C2, as stated, fails: the fund below has a positive size and rates
    that are fractions, its allocations and exit rows sum to one and its
    investment period is within its life, yet [runForecast] throws, for
    every engine, because its carry rate is above 50%. *)
Lemma valid_shape_rejected_for_high_carry :
  (0 < fundSize Cases.highCarryFund
   /\ 0 <= managementFeeRate Cases.highCarryFund <= 1
   /\ 0 <= carryRate Cases.highCarryFund <= 1)
  /\ allocationsSumToOne Cases.highCarryFund
  /\ exitRowsSumToOne Cases.highCarryFund
  /\ periodWithinLife Cases.highCarryFund
  /\ forall engine,
       runForecast engine Cases.highCarryFund
       = Threw "Forecast failed: Carry rate must be between 0% and 50%".
Proof.
  split; [|split; [|split; [|split]]].
  - repeat split; discriminate.
  - vm_compute. discriminate.
  - intro s. vm_compute. discriminate.
  - vm_compute. discriminate.
  - intro engine. reflexivity.
Qed.
(** Validation tests neither the exit-probability rows nor the investment
    period: a fund whose rows sum to 4 and whose investment period is twice
    its life passes. *)
Lemma validateInputs_ignores_rows_and_period :
  let rows := fun _ : FundStage =>
    {| great := 1; good := 1; mediocre := 1; failure := 1 |} in
  let inputs := Samples.fund 50 10 5 [Samples.seedStrategy 10] rows in
  ~ exitRowsSumToOne inputs
  /\ ~ periodWithinLife inputs
  /\ validateInputs inputs = Returned tt.
Proof.
  cbv zeta. split; [|split].
  - intro H. specialize (H Seed). vm_compute in H. now apply H.
  - intro H. vm_compute in H. now apply H.
  - reflexivity.
Qed.

(** * Further properties of the forecast service *)

(** ** Shape of the timeline *)

Section TimelineShape.

Variable Math_sin : Q -> Q.
Variable Math_pow : num -> num -> num.
Variable portfolio : list PortfolioCompany.
Variable inputs : EnhancedFundInputs.

Abbreviation shape_after :=
  (accumulatorsAfter Math_sin Math_pow portfolio inputs).

(** The per-quarter fields of the record pushed in quarter [k]. *)
Lemma pushed_record_flows (k : nat) (r0 : TimelineMetrics) :
  nth_error (timeline (shape_after (S k))) k = Some r0 ->
  let deployment :=
    calculateQuarterlyDeployment Math_sin k (investmentQuarters inputs)
      (fundSize inputs * 1000000)%num portfolio in
  let distributed := calculateQuarterlyDistributions k portfolio inputs in
  let acc := shape_after (S k) in
  labelQuarter (quarterLabel r0) = (k mod 4 + 1)%nat
  /\ capitalDeployed r0 = deployment
  /\ distributions r0 = distributed
  /\ capitalCalled r0 = (deployment + managementFees r0)%num
  /\ netCashFlow r0
     = (distributed - (deployment + managementFees r0))%num
  /\ cumulativeCashFlow r0
     = (cumulativeDistributed acc
        - (cumulativeInvested acc + cumulativeFees acc))%num
  /\ portfolioValue r0 = calculateNAV Math_pow portfolio k
  /\ nav r0 = calculateNAV Math_pow portfolio k.
Proof.
  intro H. rewrite after_S in *. cbn [quarterBody timeline] in H.
  rewrite nth_error_app2 in H by (rewrite timeline_length; lia).
  rewrite timeline_length, Nat.sub_diag in H. cbn [nth_error] in H.
  injection H as <-. repeat split; reflexivity.
Qed.

(** The records of the first [k] quarters are a prefix of every later
    state of the timeline. *)
Lemma timeline_prefix (n k : nat) :
  (k <= n)%nat ->
  firstn k (timeline (shape_after n)) = timeline (shape_after k).
Proof.
  induction n as [|n IH]; intro Hk.
  - replace k with 0%nat by lia. reflexivity.
  - destruct (Nat.eq_dec k (S n)) as [->|Hne].
    + rewrite <- (timeline_length Math_sin Math_pow portfolio inputs (S n))
        at 1.
      apply firstn_all.
    + destruct (timeline_grows Math_sin Math_pow portfolio inputs n)
        as [r ->].
      rewrite firstn_app, timeline_length.
      replace (k - n)%nat with 0%nat by lia.
      cbn [firstn]. rewrite app_nil_r. apply IH. lia.
Qed.

End TimelineShape.

(** X1. A returned timeline has one record per quarter below
    [fundLifeYears * 4], in order: record [k] is the record of quarter [k]
    and is labelled with quarter [k mod 4 + 1] of its year. *)
Theorem timeline_one_record_per_quarter
    (Math_sin : Q -> Q) (Math_pow : num -> num -> num)
    (portfolio : list PortfolioCompany) (inputs : EnhancedFundInputs)
    (tl : list TimelineMetrics) :
  calculateTimeline Math_sin Math_pow portfolio inputs = Returned tl ->
  Z.of_nat (List.length tl) = Qceiling (fundLifeYears inputs * 4)
  /\ forall k r,
       nth_error tl k = Some r ->
       inject_Z (Z.of_nat k) < fundLifeYears inputs * 4
       /\ quarter r = k
       /\ labelQuarter (quarterLabel r) = (k mod 4 + 1)%nat.
Proof.
  intro Htl. split.
  - rewrite (timeline_result_length _ _ _ _ tl Htl). unfold quarterCount.
    destruct (calculateTimeline_returned _ _ _ _ tl Htl) as (final & Hf & _).
    assert (Hn : (0 < quarterCount inputs)%nat).
    { destruct (quarterCount inputs); [discriminate Hf | lia]. }
    unfold quarterCount in Hn. lia.
  - intros k r Hr.
    destruct (record_of_quarter _ _ _ _ tl k r Htl Hr)
      as (r0 & g & H0 & -> & Hk).
    destruct (pushed_record _ _ _ _ k r0 H0) as (Hq & _).
    destruct (pushed_record_flows _ _ _ _ k r0 H0) as (Hl & _).
    split; [|split; [exact Hq | exact Hl]].
    apply below_ceiling. exact Hk.
Qed.

Lemma timeline_one_record_per_quarter_witness :
  Z.of_nat (List.length Samples.shortTimeline) = 16%Z
  /\ option_map quarter (nth_error Samples.shortTimeline 7) = Some 7%nat.
Proof.
  destruct (timeline_one_record_per_quarter
              Samples.approx_sin Samples.integral_pow
              (generatePortfolio Samples.shortFund) Samples.shortFund
              Samples.shortTimeline) as [Hlen Hrec];
    [exact shortTimeline_returned|].
  split; [exact Hlen|].
  destruct (nth_error Samples.shortTimeline 7) as [r|] eqn:E;
    [|vm_compute in E; discriminate].
  cbn [option_map]. f_equal. apply (Hrec 7%nat r E).
Defined.

(** X2. Without a quarter to simulate, that is when [fundLifeYears <= 0],
    [calculateTimeline] throws: the rate computation reads the last record
    of an empty timeline. *)
Theorem calculateTimeline_throws_without_quarters
    (Math_sin : Q -> Q) (Math_pow : num -> num -> num)
    (portfolio : list PortfolioCompany) (inputs : EnhancedFundInputs) :
  fundLifeYears inputs <= 0 ->
  exists message,
    calculateTimeline Math_sin Math_pow portfolio inputs = Threw message.
Proof.
  intro Hlife. unfold calculateTimeline. rewrite runQuarters_after.
  assert (Hn : quarterCount inputs = 0%nat).
  { destruct (quarterCount inputs) as [|n] eqn:E; [reflexivity|].
    assert (Hlt : (0 < quarterCount inputs)%nat) by lia.
    apply (below_ceiling 0) in Hlt.
    change (inject_Z (Z.of_nat 0)) with 0 in Hlt. lra. }
  rewrite Hn. eexists. reflexivity.
Qed.

Lemma calculateTimeline_throws_without_quarters_witness :
  exists message,
    calculateTimeline Samples.approx_sin Samples.integral_pow
      (generatePortfolio Cases.lifelessFund) Cases.lifelessFund
    = Threw message.
Proof.
  apply calculateTimeline_throws_without_quarters. discriminate.
Defined.

(** ** Cumulative fields and per-quarter flows *)

Section RunningTotals.

Variable Math_sin : Q -> Q.
Variable Math_pow : num -> num -> num.
Variable portfolio : list PortfolioCompany.
Variable inputs : EnhancedFundInputs.

Abbreviation totals_after :=
  (accumulatorsAfter Math_sin Math_pow portfolio inputs).

Lemma sum_snoc (field : TimelineMetrics -> num)
    (l : list TimelineMetrics) (r : TimelineMetrics) :
  fold_left nadd (map field (l ++ [r])) (Fin 0)
  = (fold_left nadd (map field l) (Fin 0) + field r)%num.
Proof. now rewrite map_app, fold_left_app. Qed.

(** The last record pushed by quarter [k]. *)
Lemma last_pushed (k : nat) :
  exists r0,
    timeline (totals_after (S k)) = timeline (totals_after k) ++ [r0]
    /\ nth_error (timeline (totals_after (S k))) k = Some r0.
Proof.
  destruct (timeline_grows Math_sin Math_pow portfolio inputs k) as [r0 Hr].
  exists r0. split; [exact Hr|]. rewrite Hr.
  rewrite nth_error_app2 by (rewrite timeline_length; lia).
  now rewrite timeline_length, Nat.sub_diag.
Qed.

Lemma deployed_sum (k : nat) :
  fold_left nadd (map capitalDeployed (timeline (totals_after k))) (Fin 0)
  = cumulativeInvested (totals_after k).
Proof.
  induction k as [|k IH]; [reflexivity|].
  destruct (last_pushed k) as (r0 & Hgrow & Hnth).
  destruct (pushed_record_flows _ _ _ _ k r0 Hnth) as (_ & Hdep & _).
  rewrite Hgrow, sum_snoc, IH, Hdep. symmetry. apply cumulativeInvested_S.
Qed.

Lemma distributed_sum (k : nat) :
  fold_left nadd (map distributions (timeline (totals_after k))) (Fin 0)
  = cumulativeDistributed (totals_after k).
Proof.
  induction k as [|k IH]; [reflexivity|].
  destruct (last_pushed k) as (r0 & Hgrow & Hnth).
  destruct (pushed_record_flows _ _ _ _ k r0 Hnth) as (_ & _ & Hdis & _).
  rewrite Hgrow, sum_snoc, IH, Hdis. symmetry.
  apply cumulativeDistributed_S.
Qed.

Lemma fees_sum (k : nat) :
  fold_left nadd (map managementFees (timeline (totals_after k))) (Fin 0)
  = cumulativeFees (totals_after k).
Proof.
  induction k as [|k IH]; [reflexivity|].
  destruct (last_pushed k) as (r0 & Hgrow & Hnth).
  destruct (pushed_record _ _ _ _ k r0 Hnth) as (_ & _ & _ & Hfee & _).
  rewrite Hgrow, sum_snoc, IH, Hfee. symmetry. apply cumulativeFees_S.
Qed.

(** The two rates leave every other field of a record alone. *)
Lemma map_setIRRs_field (field : TimelineMetrics -> num) (g : num)
    (l : list TimelineMetrics) :
  (forall t, field (setIRRs g t) = field t) ->
  map field (map (setIRRs g) l) = map field l.
Proof.
  intro H. rewrite map_map. apply map_ext. exact H.
Qed.

(** A running total over the result is the running total over the records
    pushed by the first [k + 1] quarters. *)
Lemma runningTotal_pushed (field : TimelineMetrics -> num)
    (tl : list TimelineMetrics) (k : nat) :
  (forall g t, field (setIRRs g t) = field t) ->
  calculateTimeline Math_sin Math_pow portfolio inputs = Returned tl ->
  (k < quarterCount inputs)%nat ->
  runningTotal field tl k
  = fold_left nadd (map field (timeline (totals_after (S k)))) (Fin 0).
Proof.
  intros Hfield Htl Hk.
  apply calculateTimeline_returned in Htl as (final & _ & ->).
  unfold runningTotal. rewrite firstn_map, map_setIRRs_field by apply Hfield.
  now rewrite timeline_prefix by lia.
Qed.

End RunningTotals.

(** ** Internal rate of return over the whole series *)

(** C8. The rate of return is computed once, after the quarterly loop has
    run every quarter of the fund life, over the whole series: the money in
    is the sum of the capital deployed in all quarters, the money out the
    sum of the distributions of all quarters plus the net asset value of
    the last one (these are the cumulative totals the last record carries),
    and the gross rate is [Math.pow (out / in, 1 / (quarters / 4)) - 1].
    That one value is written as [grossIRR] into every record, and 0.8
    times it as [netIRR]: all records carry identical rates.  The call
    returns whenever the fund life is positive. *)
Theorem irr_computed_once_and_backfilled
    (Math_sin : Q -> Q) (Math_pow : num -> num -> num)
    (portfolio : list PortfolioCompany) (inputs : EnhancedFundInputs) :
  (forall tl,
     calculateTimeline Math_sin Math_pow portfolio inputs = Returned tl ->
     let quarters := List.length tl in
     let totalIn := fold_left nadd (map capitalDeployed tl) (Fin 0) in
     let distributed := fold_left nadd (map distributions tl) (Fin 0) in
     let totalOut :=
       (distributed + calculateNAV Math_pow portfolio (quarters - 1))%num in
     let irr :=
       (Math_pow (totalOut / totalIn) (1 / (of_nat quarters / 4)) - 1)%num in
     Z.of_nat quarters = Qceiling (fundLifeYears inputs * 4)
     /\ (exists final,
           nth_error tl (quarters - 1) = Some final
           /\ totalInvested final = totalIn
           /\ totalDistributed final = distributed
           /\ portfolioValue final
              = calculateNAV Math_pow portfolio (quarters - 1))
     /\ Forall (fun r => grossIRR r = irr /\ netIRR r = (irr * 0.8)%num) tl)
  /\ (0 < fundLifeYears inputs ->
      exists tl,
        calculateTimeline Math_sin Math_pow portfolio inputs = Returned tl
        /\ tl <> []).
Proof.
  split.
  - intros tl Htl. cbv zeta.
    pose proof (timeline_result_length _ _ _ _ tl Htl) as Hlen.
    rewrite Hlen.
    destruct (calculateTimeline_returned _ _ _ _ tl Htl)
      as (final & Hfinal & Htl').
    assert (Hn : (0 < quarterCount inputs)%nat).
    { destruct (quarterCount inputs); [discriminate Hfinal | lia]. }
    assert (HS : S (quarterCount inputs - 1) = quarterCount inputs) by lia.
    assert (Hpushed :
              nth_error
                (timeline (accumulatorsAfter Math_sin Math_pow portfolio
                             inputs (S (quarterCount inputs - 1))))
                (quarterCount inputs - 1) = Some final)
      by (rewrite HS; exact Hfinal).
    destruct (pushed_record _ _ _ _ _ final Hpushed) as (_ & Hi & Hd & _).
    destruct (pushed_record_flows _ _ _ _ _ final Hpushed)
      as (_ & _ & _ & _ & _ & _ & Hvalue & _).
    rewrite HS in Hi, Hd.
    assert (Hin : fold_left nadd (map capitalDeployed tl) (Fin 0)
                  = totalInvested final).
    { rewrite Htl', map_setIRRs_field by reflexivity.
      rewrite deployed_sum. symmetry. exact Hi. }
    assert (Hout : fold_left nadd (map distributions tl) (Fin 0)
                   = totalDistributed final).
    { rewrite Htl', map_setIRRs_field by reflexivity.
      rewrite distributed_sum. symmetry. exact Hd. }
    rewrite Hin, Hout, <- Hvalue.
    split; [|split].
    + unfold quarterCount in *. lia.
    + exists (setIRRs (finalGrossIRR Math_pow final (quarterCount inputs))
                final).
      split; [|repeat split].
      rewrite Htl', nth_error_map, Hfinal. reflexivity.
    + rewrite Htl'. apply Forall_forall. intros r Hr.
      apply in_map_iff in Hr as (r0 & <- & _). split; reflexivity.
  - intro Hlife. apply quarterCount_positive in Hlife.
    destruct (calculateTimeline_total Math_sin Math_pow portfolio inputs Hlife)
      as [tl Htl].
    exists tl. split; [exact Htl|].
    apply timeline_result_length in Htl. intros ->. cbn in Htl. lia.
Qed.

(** ** Guarded ratios *)

Section GuardedRatios.

Variable Math_sin : Q -> Q.
Variable Math_pow : num -> num -> num.
Variable portfolio : list PortfolioCompany.
Variable inputs : EnhancedFundInputs.

Abbreviation ratios_after :=
  (accumulatorsAfter Math_sin Math_pow portfolio inputs).

(** The carry accumulator is never written. *)
Lemma carry_never_accrues (k : nat) :
  cumulativeCarry (ratios_after k) = Fin 0.
Proof.
  induction k as [|k IH]; [reflexivity|].
  unfold accumulatorsAfter in *. rewrite seq_S, fold_left_app. exact IH.
Qed.

(** The divisor of the ratios of record [k], in the fields of the
    timeline: the record's [totalInvested] plus the [managementFees] of
    the records up to it. *)
Lemma called_in_fields (tl : list TimelineMetrics) (k : nat)
    (r0 : TimelineMetrics) (g : num) :
  calculateTimeline Math_sin Math_pow portfolio inputs = Returned tl ->
  nth_error (timeline (ratios_after (S k))) k = Some r0 ->
  (k < quarterCount inputs)%nat ->
  (totalInvested (setIRRs g r0) + runningTotal managementFees tl k)%num
  = (cumulativeInvested (ratios_after (S k))
     + cumulativeFees (ratios_after (S k)))%num.
Proof.
  intros Htl H0 Hk.
  destruct (pushed_record _ _ _ _ k r0 H0) as (_ & Hinv & _).
  cbn [setIRRs totalInvested]. rewrite Hinv.
  rewrite (runningTotal_pushed Math_sin Math_pow portfolio inputs _ tl k)
    by (reflexivity || assumption).
  now rewrite fees_sum.
Qed.

End GuardedRatios.

(** C10, as amended. The ratios [dpi], [rvpi], [tvpi], [netMOIC] and
    [grossMOIC] of a record and the shares of a waterfall summary are
    guarded against a zero divisor.  The divisor of the first four is the
    capital called up to the quarter, that is the record's [totalInvested]
    plus the [managementFees] of the records up to it (not the record's
    [capitalCalled], which holds the amount of the quarter alone): when it
    is zero the four ratios are the number 0, and when it is positive they
    are the quotients.  [grossMOIC] is 0 when [totalInvested] is zero and
    the quotient when it is positive, and a waterfall over zero total
    distributions has [lpShare] and [gpShare] 0. *)
Theorem ratios_guarded_against_zero_divisor
    (Math_sin : Q -> Q) (Math_pow : num -> num -> num)
    (portfolio : list PortfolioCompany) (inputs : EnhancedFundInputs)
    (tl : list TimelineMetrics) (k : nat) (r : TimelineMetrics) :
  calculateTimeline Math_sin Math_pow portfolio inputs = Returned tl ->
  nth_error tl k = Some r ->
  let called :=
    (totalInvested r + runningTotal managementFees tl k)%num in
  let value := (totalDistributed r + nav r)%num in
  (is_zero called ->
     dpi r = Fin 0 /\ rvpi r = Fin 0 /\ tvpi r = Fin 0
     /\ netMOIC r = Fin 0)
  /\ ((called >? 0)%num = true ->
      dpi r = (totalDistributed r / called)%num
      /\ rvpi r = (nav r / called)%num
      /\ tvpi r = (value / called)%num
      /\ netMOIC r = ((value - 0) / called)%num)
  /\ (is_zero (totalInvested r) -> grossMOIC r = Fin 0)
  /\ ((totalInvested r >? 0)%num = true ->
      grossMOIC r = (value / totalInvested r)%num)
  /\ (forall total invested : num,
        is_zero total ->
        lpShare (calculateWaterfall total invested inputs) = Fin 0
        /\ gpShare (calculateWaterfall total invested inputs) = Fin 0).
Proof.
  intros Htl Hr.
  destruct (record_of_quarter _ _ _ _ tl k r Htl Hr)
    as (r0 & g & H0 & Er & Hk).
  subst r. cbv zeta.
  rewrite (called_in_fields Math_sin Math_pow portfolio inputs tl k r0 g
             Htl H0 Hk).
  destruct (pushed_record _ _ _ _ k r0 H0)
    as (_ & Hinv & Hdist & _ & Hdpi & Hrvpi & Htvpi & Hgross & Hnet).
  cbv zeta in Hdpi, Hrvpi, Htvpi, Hnet.
  rewrite carry_never_accrues in Hnet.
  cbn [setIRRs dpi rvpi tvpi netMOIC grossMOIC totalInvested
         totalDistributed nav].
  rewrite Hdpi, Hrvpi, Htvpi, Hnet, Hgross, Hinv, Hdist.
  split; [|split; [|split; [|split]]].
  - intro Hz. rewrite (ngt_zero_false _ Hz). auto.
  - intros ->. auto.
  - intro Hz. now rewrite (ngt_zero_false _ Hz).
  - now intros ->.
  - intros total invested Hz. now apply waterfall_shares_of_zero_total.
Qed.

Lemma ratios_guarded_against_zero_divisor_witness :
  match nth_error Samples.idleTimeline 0 with
  | Some r =>
      is_zero (totalInvested r
               + runningTotal managementFees Samples.idleTimeline 0)%num
      /\ dpi r = Fin 0 /\ rvpi r = Fin 0 /\ tvpi r = Fin 0
      /\ netMOIC r = Fin 0
  | None => False
  end.
Proof.
  assert (Htl : calculateTimeline Samples.approx_sin Samples.integral_pow
                  (generatePortfolio Samples.idleFund) Samples.idleFund
                = Returned Samples.idleTimeline)
    by (vm_compute; reflexivity).
  destruct (nth_error Samples.idleTimeline 0) as [r|] eqn:E;
    [|vm_compute in E; discriminate].
  assert (Hz : is_zero
                 (totalInvested r
                  + runningTotal managementFees Samples.idleTimeline 0)%num)
    by (vm_compute in E; injection E as <-; vm_compute; reflexivity).
  split; [exact Hz|].
  exact (proj1 (ratios_guarded_against_zero_divisor _ _ _ _ _ 0 r Htl E) Hz).
Defined.

(** C10, as stated, fails twice.  In quarter 12 of the fee-less fund
    nothing is deployed and no fee is charged, so the record's
    [capitalCalled] is zero, yet its [dpi] is positive: the guard is on the
    capital called so far.  And the rates are not guarded at all: the
    dormant fund never invests, the division by its [totalInvested] gives
    an infinity, and every record carries an infinite [grossIRR] and
    [netIRR]. *)
Lemma quarterly_capital_called_and_unguarded_rates :
  (exists tl r d,
     calculateTimeline Samples.approx_sin Samples.integral_pow
       (generatePortfolio Cases.feelessFund) Cases.feelessFund
     = Returned tl
     /\ nth_error tl 12 = Some r
     /\ is_zero (capitalCalled r)
     /\ dpi r = Fin d /\ 0 < d)
  /\ (exists tl,
        calculateTimeline Samples.approx_sin Cases.pow_with_infinity
          (generatePortfolio Cases.dormantFund) Cases.dormantFund
        = Returned tl
        /\ List.length tl = 5%nat
        /\ Forall (fun r => is_zero (totalInvested r)
                            /\ grossIRR r = PInf /\ netIRR r = PInf) tl).
Proof.
  split.
  - eexists. eexists. eexists. split; [vm_compute; reflexivity|].
    split; [reflexivity|]. split; [reflexivity|].
    split; reflexivity.
  - eexists. split; [vm_compute; reflexivity|].
    split; [reflexivity|].
    repeat (constructor; [repeat split; reflexivity|]). constructor.
Qed.

(** X3. In every record, cumulative invested capital is the sum of the
    capital deployed in the quarters up to it, cumulative distributed
    capital the sum of their distributions, added in quarter order. *)
Theorem cumulative_totals_are_running_sums
    (Math_sin : Q -> Q) (Math_pow : num -> num -> num)
    (portfolio : list PortfolioCompany) (inputs : EnhancedFundInputs)
    (tl : list TimelineMetrics) (k : nat) (r : TimelineMetrics) :
  calculateTimeline Math_sin Math_pow portfolio inputs = Returned tl ->
  nth_error tl k = Some r ->
  totalInvested r = runningTotal capitalDeployed tl k
  /\ totalDistributed r = runningTotal distributions tl k.
Proof.
  intros Htl Hr.
  destruct (record_of_quarter _ _ _ _ tl k r Htl Hr)
    as (r0 & g & H0 & -> & Hk).
  destruct (pushed_record _ _ _ _ k r0 H0) as (_ & Hi & Hd & _).
  cbn [setIRRs totalInvested totalDistributed]. rewrite Hi, Hd.
  rewrite !(runningTotal_pushed Math_sin Math_pow portfolio inputs _ tl k)
    by (reflexivity || assumption).
  now rewrite deployed_sum, distributed_sum.
Qed.

Lemma cumulative_totals_are_running_sums_witness :
  match nth_error Samples.shortTimeline 13 with
  | Some r =>
      totalInvested r
      = runningTotal capitalDeployed Samples.shortTimeline 13
      /\ totalDistributed r
         = runningTotal distributions Samples.shortTimeline 13
  | None => False
  end.
Proof.
  destruct (nth_error Samples.shortTimeline 13) as [r|] eqn:E;
    [|vm_compute in E; discriminate].
  apply (cumulative_totals_are_running_sums
           Samples.approx_sin Samples.integral_pow
           (generatePortfolio Samples.shortFund) Samples.shortFund);
    [exact shortTimeline_returned | exact E].
Defined.

(** ** Finite flows *)

Section FiniteFlows.

Variable Math_sin : Q -> Q.
Variable Math_pow : num -> num -> num.
Variable portfolio : list PortfolioCompany.
Variable inputs : EnhancedFundInputs.

Hypothesis portfolio_nonempty : portfolio <> [].

Abbreviation flows_after :=
  (accumulatorsAfter Math_sin Math_pow portfolio inputs).

(** The division of the deployment is reached only for a positive number
    of investment quarters, so a deployment is always finite. *)
Lemma deployment_finite (k : nat) :
  exists d,
    calculateQuarterlyDeployment Math_sin k (investmentQuarters inputs)
      (fundSize inputs * 1000000)%num portfolio = Fin d.
Proof.
  unfold calculateQuarterlyDeployment, investmentQuarters, of_nat, nge.
  cbn [nmul nle]. pose proof (of_nat_nonneg k) as Hk.
  case_cmp; [now exists 0|].
  cbn [nmul ndiv nsin nadd]. case_cmp; [exfalso; lra|].
  eexists. reflexivity.
Qed.




End FiniteFlows.



(** ** Deployment over the investment period *)

Lemma of_nat_succ (k : nat) :
  inject_Z (Z.of_nat (S k)) == inject_Z (Z.of_nat k) + 1.
Proof.
  rewrite Nat2Z.inj_succ. unfold Z.succ. now rewrite inject_Z_plus.
Qed.

Section Deployment.

Variable Math_sin : Q -> Q.
Variable Math_pow : num -> num -> num.
Variable portfolio : list PortfolioCompany.
Variable inputs : EnhancedFundInputs.

Abbreviation deploy_after :=
  (accumulatorsAfter Math_sin Math_pow portfolio inputs).
Abbreviation deployed k :=
  (calculateQuarterlyDeployment Math_sin k (investmentQuarters inputs)
     (fundSize inputs * 1000000)%num portfolio).

(** Quarters at or past the end of the investment period deploy nothing. *)
Lemma deployment_zero_after (k : nat) :
  investmentPeriodYears inputs * 4 <= inject_Z (Z.of_nat k) ->
  deployed k = Fin 0.
Proof.
  intro Hk. unfold calculateQuarterlyDeployment, investmentQuarters, of_nat,
    nge.
  cbn [nmul nle]. apply Qle_bool_iff in Hk. now rewrite Hk.
Qed.

Lemma invested_finite (k : nat) :
  exists c, cumulativeInvested (deploy_after k) = Fin c.
Proof.
  induction k as [|k [c Hc]]; [now exists 0|].
  destruct (deployment_finite Math_sin portfolio inputs k) as [d Hd].
  rewrite cumulativeInvested_S, Hc, Hd. now exists (c + d).
Qed.

Lemma invested_frozen (k j : nat) :
  investmentPeriodYears inputs * 4 <= inject_Z (Z.of_nat k) ->
  (k <= j)%nat ->
  (cumulativeInvested (deploy_after j)
   === cumulativeInvested (deploy_after k))%num.
Proof.
  intros Hk Hj. induction j as [|j IH].
  - replace k with 0%nat by lia. cbn. reflexivity.
  - destruct (Nat.eq_dec k (S j)) as [->|Hne].
    + destruct (invested_finite (S j)) as [c ->]. cbn. reflexivity.
    + rewrite cumulativeInvested_S, deployment_zero_after.
      * destruct (invested_finite j) as [c Hc]. rewrite Hc in *.
        destruct (invested_finite k) as [c' Hc']. rewrite Hc' in *.
        cbn in *. rewrite <- IH by lia. ring.
      * eapply Qle_trans; [exact Hk|]. rewrite <- Zle_Qle. lia.
Qed.

Hypothesis sin_range : forall x, -1 <= Math_sin x <= 1.
Hypothesis fund_positive : 0 < fundSize inputs.

(** Within the investment period a quarter deploys between 80% and 120% of
    the even share of 60% of the committed capital. *)
Lemma deployment_in_period (k : nat) :
  inject_Z (Z.of_nat k) < investmentPeriodYears inputs * 4 ->
  let share :=
    fundSize inputs * 1000000 * 0.6 / (investmentPeriodYears inputs * 4) in
  exists d, deployed k = Fin d /\ share * 0.8 <= d <= share * 1.2.
Proof.
  intros Hk share.
  unfold calculateQuarterlyDeployment, investmentQuarters, of_nat, nge.
  cbn [nmul nle]. pose proof (of_nat_nonneg k) as Hk0.
  case_cmp; [exfalso; lra|].
  cbn [nmul ndiv nsin nadd]. case_cmp; [exfalso; lra|].
  eexists. split; [reflexivity|]. fold share.
  assert (Hq : 0 < share)
    by (unfold share; apply Qlt_shift_div_l; lra).
  pose proof (sin_range (inject_Z (Z.of_nat k) * 0.5)) as Hs.
  set (s := Math_sin _) in *. nra.
Qed.

(** After [k] quarters of an investment period of [m] whole quarters, the
    invested capital lies between 80% and 120% of [min k m] even shares. *)
Lemma invested_between (m k : nat) :
  investmentPeriodYears inputs * 4 == inject_Z (Z.of_nat m) ->
  let share :=
    fundSize inputs * 1000000 * 0.6 / (investmentPeriodYears inputs * 4) in
  exists c,
    cumulativeInvested (deploy_after k) = Fin c
    /\ inject_Z (Z.of_nat (Nat.min k m)) * (share * 0.8) <= c
    /\ c <= inject_Z (Z.of_nat (Nat.min k m)) * (share * 1.2).
Proof.
  intros Hm share. induction k as [|k (c & Hc & Hlo & Hhi)].
  - exists 0. cbn [Nat.min]. change (inject_Z (Z.of_nat 0)) with 0.
    repeat split; lra.
  - rewrite cumulativeInvested_S, Hc.
    destruct (Nat.lt_ge_cases k m) as [Hk|Hk].
    + destruct (deployment_in_period k) as (d & -> & Hd).
      { rewrite Hm, <- Zlt_Qlt. lia. }
      fold share in Hd. exists (c + d). split; [reflexivity|].
      replace (Nat.min (S k) m) with (S (Nat.min k m)) by lia.
      rewrite of_nat_succ. split; lra.
    + rewrite deployment_zero_after by (rewrite Hm, <- Zle_Qle; lia).
      exists (c + 0). split; [reflexivity|].
      replace (Nat.min (S k) m) with (Nat.min k m) by lia. split; lra.
Qed.

End Deployment.

(** X5. Once the investment period is over nothing more is deployed: if
    quarter [k + 1] is at or past [investmentPeriodYears * 4], every later
    record has [capitalDeployed = 0] and the cumulative invested capital of
    record [k]. *)
Theorem invested_capital_frozen_after_investment_period
    (Math_sin : Q -> Q) (Math_pow : num -> num -> num)
    (portfolio : list PortfolioCompany) (inputs : EnhancedFundInputs)
    (tl : list TimelineMetrics) (k k' : nat) (r r' : TimelineMetrics) :
  calculateTimeline Math_sin Math_pow portfolio inputs = Returned tl ->
  nth_error tl k = Some r ->
  nth_error tl k' = Some r' ->
  (k < k')%nat ->
  investmentPeriodYears inputs * 4 <= inject_Z (Z.of_nat k) + 1 ->
  capitalDeployed r' = Fin 0
  /\ (totalInvested r' === totalInvested r)%num.
Proof.
  intros Htl Hr Hr' Hlt Hend.
  destruct (record_of_quarter _ _ _ _ tl k r Htl Hr)
    as (a & g & Ha & -> & _).
  destruct (record_of_quarter _ _ _ _ tl k' r' Htl Hr')
    as (a' & g' & Ha' & -> & _).
  destruct (pushed_record _ _ _ _ k a Ha) as (_ & Hi & _).
  destruct (pushed_record _ _ _ _ k' a' Ha') as (_ & Hi' & _).
  destruct (pushed_record_flows _ _ _ _ k' a' Ha') as (_ & Hdep & _).
  cbn [setIRRs capitalDeployed totalInvested]. rewrite Hdep, Hi, Hi'.
  assert (Hk' : investmentPeriodYears inputs * 4 <= inject_Z (Z.of_nat k')).
  { eapply Qle_trans; [exact Hend|].
    rewrite <- of_nat_succ, <- Zle_Qle. lia. }
  split; [now apply deployment_zero_after|].
  apply invested_frozen; [|lia]. now rewrite of_nat_succ.
Qed.

Lemma invested_capital_frozen_after_investment_period_witness :
  match
    nth_error Samples.shortTimeline 7, nth_error Samples.shortTimeline 12
  with
  | Some r, Some r' =>
      capitalDeployed r' = Fin 0
      /\ (totalInvested r' === totalInvested r)%num
  | _, _ => False
  end.
Proof.
  destruct (nth_error Samples.shortTimeline 7) as [r|] eqn:E;
    [|vm_compute in E; discriminate].
  destruct (nth_error Samples.shortTimeline 12) as [r'|] eqn:E';
    [|vm_compute in E'; discriminate].
  apply (invested_capital_frozen_after_investment_period
           Samples.approx_sin Samples.integral_pow
           (generatePortfolio Samples.shortFund) Samples.shortFund
           Samples.shortTimeline 7 12 r r');
    [exact shortTimeline_returned | exact E | exact E' | lia
    | discriminate].
Defined.

(** X6. When the investment period is a whole number [m > 0] of quarters,
    the fund size is positive and the sine stays within [-1, 1], cumulative
    invested capital never exceeds 72% of the committed capital, and from
    the last quarter of the investment period on it is at least 48% of
    it. *)
Theorem invested_capital_within_commitment
    (Math_sin : Q -> Q) (Math_pow : num -> num -> num)
    (portfolio : list PortfolioCompany) (inputs : EnhancedFundInputs)
    (tl : list TimelineMetrics) (m k : nat) (r : TimelineMetrics) :
  (forall x, -1 <= Math_sin x <= 1) ->
  0 < fundSize inputs ->
  (0 < m)%nat ->
  investmentPeriodYears inputs * 4 == inject_Z (Z.of_nat m) ->
  calculateTimeline Math_sin Math_pow portfolio inputs = Returned tl ->
  nth_error tl k = Some r ->
  exists c,
    totalInvested r = Fin c
    /\ 0 <= c <= 0.72 * (fundSize inputs * 1000000)
    /\ ((m <= S k)%nat -> 0.48 * (fundSize inputs * 1000000) <= c).
Proof.
  intros Hsin Hsize Hm Hperiod Htl Hr.
  destruct (record_of_quarter _ _ _ _ tl k r Htl Hr)
    as (a & g & Ha & -> & _).
  destruct (pushed_record _ _ _ _ k a Ha) as (_ & Hi & _).
  cbn [setIRRs totalInvested]. rewrite Hi.
  destruct (invested_between Math_sin Math_pow portfolio inputs Hsin Hsize
              m (S k) Hperiod) as (c & -> & Hlo & Hhi).
  exists c. split; [reflexivity|].
  set (n := inject_Z (Z.of_nat (Nat.min (S k) m))) in *.
  set (M := inject_Z (Z.of_nat m)) in *.
  set (x := fundSize inputs * 1000000 * 0.6) in *.
  assert (HM : 0 < M) by (apply of_nat_positive; exact Hm).
  rewrite Hperiod in Hlo, Hhi.
  set (share := x / M) in *.
  assert (Hshare : M * share == x)
    by (unfold share; field; intro; lra).
  assert (Hpos : 0 < share)
    by (unfold share; apply Qlt_shift_div_l; unfold x; lra).
  assert (Hn0 : 0 <= n) by apply of_nat_nonneg.
  assert (HnM : n <= M) by (unfold n, M; rewrite <- Zle_Qle; lia).
  split; [split|].
  - nra.
  - assert (n * (share * 1.2) <= M * (share * 1.2)) by nra.
    unfold x in Hshare. lra.
  - intro Hk. assert (Hn : n == M).
    { unfold n, M. replace (Nat.min (S k) m) with m by lia. reflexivity. }
    rewrite Hn in Hlo. unfold x in Hshare. lra.
Qed.

Lemma invested_capital_within_commitment_witness :
  match nth_error Samples.shortTimeline 9 with
  | Some r =>
      exists c,
        totalInvested r = Fin c
        /\ 0 <= c <= 0.72 * (50 * 1000000)
        /\ ((8 <= 10)%nat -> 0.48 * (50 * 1000000) <= c)
  | None => False
  end.
Proof.
  destruct (nth_error Samples.shortTimeline 9) as [r|] eqn:E;
    [|vm_compute in E; discriminate].
  apply (invested_capital_within_commitment
           Samples.approx_sin Samples.integral_pow
           (generatePortfolio Samples.shortFund) Samples.shortFund
           Samples.shortTimeline 8 9 r);
    [exact approx_sin_range | reflexivity | lia | reflexivity
    | exact shortTimeline_returned | exact E].
Defined.

(** ** Net asset value *)

Lemma calculateNAV_from (Math_pow : num -> num -> num)
    (portfolio : list PortfolioCompany) (q : nat) (start : num) :
  fold_left
    (fun sum company =>
       match status company with
       | active =>
           (sum + currentValuation company
                  * Math_pow 1.15 (of_nat q / 4)%num)%num
       | _ => sum
       end)
    portfolio start
  = fold_left
      (fun sum company =>
         (sum + currentValuation company
                * Math_pow 1.15 (of_nat q / 4)%num)%num)
      (filter isActive portfolio) start.
Proof.
  revert start. induction portfolio as [|c rest IH]; intro start;
    [reflexivity|].
  cbn [fold_left filter]. unfold isActive at 1.
  destruct (status c); cbn [fold_left]; apply IH.
Qed.

(** X7. Only active companies count towards the net asset value: it is the
    sum, over the active companies in portfolio order, of current valuation
    times the appreciation factor of the quarter, so exited and written-off
    companies can be dropped without changing it, and a portfolio without
    an active company is worth 0. *)
Theorem nav_counts_active_companies_only
    (Math_pow : num -> num -> num)
    (portfolio : list PortfolioCompany) (q : nat) :
  calculateNAV Math_pow portfolio q
  = fold_left
      (fun sum company =>
         (sum + currentValuation company
                * Math_pow 1.15 (of_nat q / 4)%num)%num)
      (filter isActive portfolio) (Fin 0)
  /\ calculateNAV Math_pow portfolio q
     = calculateNAV Math_pow (filter isActive portfolio) q
  /\ (Forall (fun c => status c <> active) portfolio ->
      calculateNAV Math_pow portfolio q = Fin 0).
Proof.
  assert (Hsum : forall p,
            calculateNAV Math_pow p q
            = fold_left
                (fun sum company =>
                   (sum + currentValuation company
                          * Math_pow 1.15 (of_nat q / 4)%num)%num)
                (filter isActive p) (Fin 0))
    by (intro p; apply calculateNAV_from).
  split; [apply Hsum|]. split.
  - rewrite (Hsum (filter isActive portfolio)), Hsum.
    f_equal. induction portfolio as [|c rest IH]; [reflexivity|].
    cbn [filter]. destruct (isActive c) eqn:E; [|exact IH].
    cbn [filter]. rewrite E. now f_equal.
  - intro Hnone. rewrite Hsum.
    replace (filter isActive portfolio) with (@nil PortfolioCompany);
      [reflexivity|].
    induction Hnone as [|c rest Hc _ IH]; [reflexivity|].
    cbn [filter]. unfold isActive at 1.
    destruct (status c); [contradiction | exact IH | exact IH].
Qed.

(** ** More on the waterfall *)

Section WaterfallTiers.

Variables total invested : Q.
Variable inputs : EnhancedFundInputs.

Hypothesis gp_below_one : gpCommitment inputs < 1.

Abbreviation summary := (calculateWaterfall total invested inputs).
Abbreviation hurdle :=
  (invested * hurdleRate inputs * (fundLifeYears inputs * 0.7)).

(** The summary in closed form: paid-in capital is the invested capital,
    and the three tiers follow from it. *)
Lemma waterfall_closed_form :
  let capitalReturn := Qmin total invested in
  let prefReturn := Qmin (total - capitalReturn) hurdle in
  let remainder := total - capitalReturn - prefReturn in
  0 <= remainder
  /\ (gpDistributions summary === carryRate inputs * remainder)%num
  /\ (carryPaid summary === carryRate inputs * remainder)%num
  /\ (lpDistributions summary === total - carryRate inputs * remainder)%num.
Proof.
  intros capitalReturn prefReturn remainder.
  unfold calculateWaterfall.
  cbn [nsub nopp nadd]. rewrite ndiv_finite by (intro; lra).
  cbn [nmul nmin nsub nopp nadd ngt nlt].
  set (lpCap := invested / (1 + - gpCommitment inputs)
                  * (1 + - gpCommitment inputs)).
  assert (Hcap : lpCap == invested) by (unfold lpCap; field; intro; lra).
  assert (Hmin : Qmin total lpCap == capitalReturn)
    by (unfold capitalReturn; now rewrite Hcap).
  assert (Hpref : Qmin (total + - Qmin total lpCap)
                       (lpCap * hurdleRate inputs
                          * (fundLifeYears inputs * 0.7))
                  == prefReturn).
  { unfold prefReturn, Qminus. now rewrite Hmin, Hcap. }
  assert (Hrem : 0 <= remainder).
  { unfold remainder, prefReturn, capitalReturn.
    destruct (Qmin_cases total invested) as [[Hc Ec]|[Hc Ec]];
    destruct (Qmin_cases (total - Qmin total invested) hurdle)
      as [[Hp Ep]|[Hp Ep]]; lra. }
  split; [exact Hrem|].
  set (rest := total + - Qmin total lpCap
               + - Qmin (total + - Qmin total lpCap)
                     (lpCap * hurdleRate inputs
                        * (fundLifeYears inputs * 0.7))).
  assert (Hrest : rest == remainder)
    by (unfold rest, remainder; rewrite Hpref, Hmin; ring).
  destruct (Qlt_bool 0 rest) eqn:E; cbn; rewrite ?Hpref, ?Hmin, ?Hrest.
  - repeat split; unfold remainder; ring.
  - apply Qlt_bool_false in E. assert (Hz : remainder == 0) by lra.
    repeat split; rewrite ?Hz; try ring.
    unfold remainder in Hz. lra.
Qed.

End WaterfallTiers.

Lemma num_eq_finite (x : num) (q : Q) :
  (x === Fin q)%num -> exists q', x = Fin q' /\ q' == q.
Proof.
  destruct x as [q'| | |]; cbn; try contradiction. intro H. now exists q'.
Qed.

(** The three ratios of the summary in terms of its amounts. *)
Lemma waterfall_ratios (total invested : num) (inputs : EnhancedFundInputs) :
  let w := calculateWaterfall total invested inputs in
  let called := (invested / (1 - gpCommitment inputs))%num in
  lpShare w
  = (if (total >? 0)%num then (lpDistributions w / total)%num else 0)
  /\ gpShare w
     = (if (total >? 0)%num then (gpDistributions w / total)%num else 0)
  /\ effectiveCarry w
     = (if (total >? called)%num
        then (carryPaid w / (total - called))%num else 0).
Proof.
  cbv zeta. unfold calculateWaterfall.
  match goal with
  | |- context [if ?c then (_, _, _) else _] => destruct c
  end; repeat split; reflexivity.
Qed.

(** X8. When distributions are positive (and the GP commitment is below
    1), the LP and GP shares of the summary add up to exactly 1. *)
Theorem waterfall_shares_sum_to_one
    (total invested : Q) (inputs : EnhancedFundInputs) :
  gpCommitment inputs < 1 ->
  0 < total ->
  let w := calculateWaterfall total invested inputs in
  (lpShare w + gpShare w === 1)%num.
Proof.
  intros Hgp Htotal w. subst w.
  destruct (waterfall_ratios total invested inputs) as (-> & -> & _).
  destruct (waterfall_closed_form total invested inputs Hgp)
    as (_ & Hg & _ & Hl).
  apply num_eq_finite in Hg as (g & -> & Hg).
  apply num_eq_finite in Hl as (l & -> & Hl).
  cbn [ngt nlt]. apply Qlt_bool_iff in Htotal as Ht. rewrite Ht.
  rewrite !ndiv_finite by (intro; lra). cbn. rewrite Hg, Hl.
  field. intro; lra.
Qed.

Lemma waterfall_shares_sum_to_one_witness :
  (lpShare (calculateWaterfall 300 100 Samples.seedFund)
   + gpShare (calculateWaterfall 300 100 Samples.seedFund) === 1)%num.
Proof.
  apply (waterfall_shares_sum_to_one 300 100 Samples.seedFund);
    reflexivity.
Defined.

(** X9. In exact arithmetic, the GP is paid only out of what exceeds the
    LPs' capital and preferred return: with [gpCommitment < 1], invested
    capital, hurdle rate and fund life not negative and a positive carry
    rate, [gpDistributions] is positive exactly when total distributions
    exceed [invested * (1 + hurdleRate * fundLifeYears * 0.7)], and
    otherwise the LPs receive everything.  Rounding is not modelled: in
    floating point a total a few units in the last place above the
    threshold can still pay the GP nothing. *)
Theorem gp_paid_only_above_capital_and_hurdle
    (total invested : Q) (inputs : EnhancedFundInputs) :
  gpCommitment inputs < 1 ->
  0 <= invested ->
  0 <= hurdleRate inputs ->
  0 <= fundLifeYears inputs ->
  0 < carryRate inputs ->
  let w := calculateWaterfall total invested inputs in
  let threshold :=
    invested
    + invested * hurdleRate inputs * (fundLifeYears inputs * 0.7) in
  exists gp,
    gpDistributions w = Fin gp
    /\ 0 <= gp
    /\ (0 < gp <-> threshold < total)
    /\ (total <= threshold -> (lpDistributions w === total)%num).
Proof.
  intros Hgp Hinv Hh Hlife Hcarry w threshold. subst w.
  destruct (waterfall_closed_form total invested inputs Hgp)
    as (Hrem & Hg & _ & Hl).
  apply num_eq_finite in Hg as (g & -> & Hg).
  apply num_eq_finite in Hl as (l & -> & Hl).
  exists g. split; [reflexivity|].
  set (hurdle := invested * hurdleRate inputs * (fundLifeYears inputs * 0.7))
    in *.
  assert (Hhurdle : 0 <= hurdle).
  { unfold hurdle. apply Qmult_le_0_compat; [apply Qmult_le_0_compat|]; lra. }
  set (capitalReturn := Qmin total invested) in *.
  set (prefReturn := Qmin (total - capitalReturn) hurdle) in *.
  set (remainder := total - capitalReturn - prefReturn) in *.
  assert (Hiff : 0 < remainder <-> threshold < total).
  { unfold remainder, prefReturn, capitalReturn, threshold. fold hurdle.
    destruct (Qmin_cases total invested) as [[Hc Ec]|[Hc Ec]];
    destruct (Qmin_cases (total - Qmin total invested) hurdle)
      as [[Hp Ep]|[Hp Ep]]; split; intro; lra. }
  split; [nra|]. split.
  - rewrite <- Hiff. split; intro; nra.
  - intro Hle. cbn. rewrite Hl.
    assert (Hz : remainder == 0).
    { destruct (Qlt_le_dec 0 remainder) as [Hpos|Hnp]; [|lra].
      apply Hiff in Hpos. lra. }
    rewrite Hz. ring.
Qed.

Lemma gp_paid_only_above_capital_and_hurdle_witness :
  exists gp,
    gpDistributions (calculateWaterfall 150 100 Samples.seedFund) = Fin gp
    /\ 0 <= gp
    /\ (0 < gp <-> 100 + 100 * 0.08 * (10 * 0.7) < 150)
    /\ (150 <= 100 + 100 * 0.08 * (10 * 0.7) ->
        (lpDistributions (calculateWaterfall 150 100 Samples.seedFund)
         === 150)%num).
Proof.
  apply (gp_paid_only_above_capital_and_hurdle 150 100 Samples.seedFund);
    (reflexivity || discriminate).
Defined.

(** X10. A GP commitment of exactly 1 makes the paid-in capital a division
    by zero: for all finite totals the summary's LP distributions and
    preferred return are [NaN], the GP receives 0, and the two no longer
    add up to the total. *)
Theorem full_gp_commitment_poisons_waterfall
    (total invested : Q) (inputs : EnhancedFundInputs) :
  gpCommitment inputs == 1 ->
  let w := calculateWaterfall total invested inputs in
  lpDistributions w = NaN
  /\ preferredReturn w = NaN
  /\ gpDistributions w = Fin 0
  /\ ~ (lpDistributions w + gpDistributions w === totalDistributions w)%num.
Proof.
  intros Hgp w. subst w. unfold calculateWaterfall.
  cbn [nsub nopp nadd ndiv].
  assert (Hz : Qeq_bool (1 + - gpCommitment inputs) 0 = true)
    by (apply Qeq_bool_iff; lra).
  rewrite Hz.
  assert (Hs : sgn (1 + - gpCommitment inputs) = Eq)
    by (apply Qeq_alt; lra).
  assert (Hcap : (scale_inf true (sgn invested)
                  * Fin (1 + - gpCommitment inputs))%num = NaN).
  { destruct (sgn invested); cbn; rewrite ?Hs; reflexivity. }
  rewrite Hcap. cbn. repeat split. intro H. exact H.
Qed.

Lemma full_gp_commitment_poisons_waterfall_witness :
  lpDistributions (calculateWaterfall 300 100 Cases.gpOnlyFund) = NaN.
Proof.
  apply (full_gp_commitment_poisons_waterfall 300 100 Cases.gpOnlyFund).
  reflexivity.
Defined.

(** X11. In exact arithmetic, without GP commitment, and with invested
    capital, hurdle rate, fund life and carry rate not negative, the
    effective carry of the summary is a finite rate between 0 and the
    carry rate; it equals the carry rate when there is no hurdle and
    distributions exceed the invested capital.  Rounding is not modelled:
    in floating point the quotient can exceed the carry rate by a unit in
    the last place. *)
Theorem effective_carry_within_carry_rate
    (total invested : Q) (inputs : EnhancedFundInputs) :
  gpCommitment inputs == 0 ->
  0 <= invested ->
  0 <= hurdleRate inputs ->
  0 <= fundLifeYears inputs ->
  0 <= carryRate inputs ->
  let w := calculateWaterfall total invested inputs in
  exists e,
    effectiveCarry w = Fin e
    /\ 0 <= e <= carryRate inputs
    /\ (hurdleRate inputs == 0 -> invested < total ->
        e == carryRate inputs).
Proof.
  intros Hgp Hinv Hh Hlife Hcarry w. subst w.
  assert (Hgp1 : gpCommitment inputs < 1) by lra.
  destruct (waterfall_ratios total invested inputs) as (_ & _ & ->).
  destruct (waterfall_closed_form total invested inputs Hgp1)
    as (Hrem & _ & Hc & _).
  apply num_eq_finite in Hc as (c & -> & Hc).
  cbn [nsub nopp nadd]. rewrite ndiv_finite by (intro; lra).
  cbn [ngt nlt nsub nopp nadd].
  set (called := invested / (1 + - gpCommitment inputs)).
  assert (Hcalled : called == invested)
    by (unfold called; rewrite Hgp; field).
  set (hurdle := invested * hurdleRate inputs * (fundLifeYears inputs * 0.7))
    in *.
  assert (Hhurdle : 0 <= hurdle).
  { unfold hurdle. apply Qmult_le_0_compat; [apply Qmult_le_0_compat|]; lra. }
  set (capitalReturn := Qmin total invested) in *.
  set (prefReturn := Qmin (total - capitalReturn) hurdle) in *.
  set (remainder := total - capitalReturn - prefReturn) in *.
  destruct (Qlt_bool called total) eqn:E.
  - apply Qlt_bool_iff in E. rewrite ndiv_finite by (intro; lra).
    eexists. split; [reflexivity|].
    assert (Hgap : 0 < total + - called) by lra.
    assert (Hle : remainder <= total + - called).
    { unfold remainder, prefReturn, capitalReturn.
      destruct (Qmin_cases total invested) as [[Hc' Ec]|[Hc' Ec]];
      destruct (Qmin_cases (total - Qmin total invested) hurdle)
        as [[Hp Ep]|[Hp Ep]]; lra. }
    split; [split|].
    + apply Qle_shift_div_l; [exact Hgap | nra].
    + apply Qle_shift_div_r; [exact Hgap | nra].
    + intros Hzero _.
      assert (Hhz : hurdle == 0) by (unfold hurdle; rewrite Hzero; ring).
      assert (Heq : remainder == total + - called).
      { unfold remainder, prefReturn, capitalReturn.
        destruct (Qmin_cases total invested) as [[Hc' Ec]|[Hc' Ec]];
        destruct (Qmin_cases (total - Qmin total invested) hurdle)
          as [[Hp Ep]|[Hp Ep]]; lra. }
      rewrite Hc, Heq. field. intro; lra.
  - apply Qlt_bool_false in E. exists 0. split; [reflexivity|].
    split; [lra|]. intros _ Hlt. exfalso. lra.
Qed.

Lemma effective_carry_within_carry_rate_witness :
  exists e,
    effectiveCarry (calculateWaterfall 300 100 Cases.lpOnlyFund) = Fin e
    /\ 0 <= e <= 0.2
    /\ (0.08 == 0 -> 100 < 300 -> e == 0.2).
Proof.
  apply (effective_carry_within_carry_rate 300 100 Cases.lpOnlyFund);
    (reflexivity || discriminate).
Defined.

(** ** Company identifiers *)

Lemma decimal_injective (a b : nat) : decimal a = decimal b -> a = b.
Proof.
  unfold decimal. intro H.
  apply (f_equal NilEmpty.uint_of_string) in H.
  rewrite !NilEmpty.usu in H. injection H as H.
  apply (f_equal Nat.of_uint) in H.
  now rewrite !DecimalNat.Unsigned.of_to in H.
Qed.

Lemma stageCompanies_id (s : StageStrategy) (companyId i n j : nat)
    (c : PortfolioCompany) :
  nth_error (stageCompanies s companyId i n) j = Some c ->
  id c = String.append "company-" (decimal (companyId + j)).
Proof.
  revert companyId i j. induction n as [|n IH]; intros companyId i j H.
  - destruct j; discriminate.
  - destruct j as [|j]; cbn in H.
    + injection H as <-. cbn [id newCompany]. now rewrite Nat.add_0_r.
    + apply IH in H. rewrite H. do 2 f_equal. lia.
Qed.

Lemma cohorts_id (strategies : list StageStrategy) (start k : nat)
    (c : PortfolioCompany) :
  nth_error (List.concat (cohortsFrom strategies start)) k = Some c ->
  id c = String.append "company-" (decimal (start + k)).
Proof.
  revert start k. induction strategies as [|s rest IH]; intros start k H.
  - destruct k; discriminate.
  - cbn [cohortsFrom List.concat] in H.
    destruct (Nat.lt_ge_cases k (companiesInStage s)) as [Hk|Hk].
    + rewrite nth_error_app1 in H by (now rewrite stageCompanies_length).
      now apply stageCompanies_id in H.
    + rewrite nth_error_app2 in H by (now rewrite stageCompanies_length).
      rewrite stageCompanies_length in H. apply IH in H. rewrite H.
      do 2 f_equal. lia.
Qed.

(** X12. Company identifiers number the portfolio from 1 in generation
    order, across stages: the company at position [k] is [company-<k+1>],
    and no two companies share an identifier. *)
Theorem company_identifiers_sequential_and_distinct
    (inputs : EnhancedFundInputs) :
  (forall k c,
     nth_error (generatePortfolio inputs) k = Some c ->
     id c = String.append "company-" (decimal (k + 1)))
  /\ NoDup (map id (generatePortfolio inputs)).
Proof.
  assert (Hid : forall k c,
            nth_error (generatePortfolio inputs) k = Some c ->
            id c = String.append "company-" (decimal (k + 1))).
  { intros k c H. rewrite generatePortfolio_cohorts in H.
    apply cohorts_id in H. rewrite H. do 2 f_equal. lia. }
  split; [exact Hid|].
  apply NoDup_nth_error. intros i j Hi Heq.
  rewrite length_map in Hi. rewrite !nth_error_map in Heq.
  destruct (nth_error (generatePortfolio inputs) i) as [c|] eqn:Ei.
  - destruct (nth_error (generatePortfolio inputs) j) as [c'|] eqn:Ej;
      [|discriminate].
    cbn in Heq. injection Heq as Heq.
    rewrite (Hid i c Ei), (Hid j c' Ej) in Heq.
    cbn in Heq. injection Heq as Heq.
    apply decimal_injective in Heq. lia.
  - apply nth_error_None in Ei. lia.
Qed.

(** ** The two validators *)

(** X13. A configuration without stage strategies is always rejected: its
    allocations sum to 0, so [validateInputs] throws and [runForecast]
    fails with the prefixed message before the engine is asked. *)
Theorem no_stage_strategy_is_rejected (inputs : EnhancedFundInputs) :
  stageStrategies inputs = [] ->
  exists reason,
    validateInputs inputs = Threw reason
    /\ forall engine,
         runForecast engine inputs
         = Threw (String.append "Forecast failed: " reason).
Proof.
  intro Hnone.
  destruct (validateInputs_throws inputs) as [reason Hv].
  - intros (_ & _ & _ & Halloc).
    unfold allocationsSumToOne, allocationSum in Halloc.
    rewrite Hnone in Halloc. vm_compute in Halloc. now apply Halloc.
  - exists reason. split; [exact Hv|]. intro engine.
    unfold runForecast. now rewrite Hv.
Qed.

Lemma no_stage_strategy_is_rejected_witness :
  exists reason,
    validateInputs Cases.stagelessFund = Threw reason
    /\ forall engine,
         runForecast engine Cases.stagelessFund
         = Threw (String.append "Forecast failed: " reason).
Proof.
  apply no_stage_strategy_is_rejected. reflexivity.
Defined.

Lemma pushIf_empty (condition : bool) (message : string) :
  EnhancedFundModel.pushIf condition message = [] <-> condition = false.
Proof.
  destruct condition; cbn; split; intro H; (discriminate || reflexivity).
Qed.

Lemma app_nil_both {A : Type} (l l' : list A) :
  l ++ l' = [] <-> l = [] /\ l' = [].
Proof.
  split; [apply app_eq_nil | intros [-> ->]; reflexivity].
Qed.

(** The model-level validator accepts exactly the configurations that pass
    its five tests. *)
Lemma model_validation_accepts (inputs : EnhancedFundInputs) :
  EnhancedFundModel.valid (EnhancedFundModel.validateInputs inputs) = true
  <-> (0 < fundSize inputs <= 10000
       /\ 0 <= managementFeeRate inputs <= 0.05
       /\ 0 <= carryRate inputs <= 0.5
       /\ allocationsSumToOne inputs
       /\ periodWithinLife inputs).
Proof.
  unfold EnhancedFundModel.validateInputs, allocationsSumToOne,
    periodWithinLife, Qminus.
  cbn [EnhancedFundModel.valid].
  fold (totalAllocation inputs). rewrite totalAllocation_finite.
  cbn [nle nlt ngt nsub nopp nadd nabs app].
  rewrite Nat.eqb_eq, length_zero_iff_nil.
  rewrite !app_nil_both, !pushIf_empty, !orb_false_iff.
  rewrite !Qlt_bool_false, Qle_bool_false. tauto.
Qed.

(** X14. Whatever the model-level validator accepts, the forecast service
    accepts too, and has its investment period within the fund life; the
    model-level validator is the stricter of the two. *)
Theorem model_validation_implies_service_validation
    (inputs : EnhancedFundInputs) :
  EnhancedFundModel.valid (EnhancedFundModel.validateInputs inputs) = true ->
  EnhancedFundModel.errors (EnhancedFundModel.validateInputs inputs) = []
  /\ validateInputs inputs = Returned tt
  /\ investmentPeriodYears inputs <= fundLifeYears inputs.
Proof.
  intro Hvalid. split; [|split].
  - cbn [EnhancedFundModel.validateInputs EnhancedFundModel.valid
         EnhancedFundModel.errors] in *.
    apply Nat.eqb_eq in Hvalid. now apply length_zero_iff_nil.
  - apply model_validation_accepts in Hvalid
      as (Hsize & Hfee & Hcarry & Halloc & _).
    apply validateInputs_passes. repeat split; (assumption || lra).
  - now apply model_validation_accepts in Hvalid as (_ & _ & _ & _ & H).
Qed.

Lemma model_validation_implies_service_validation_witness :
  validateInputs Samples.seedFund = Returned tt
  /\ investmentPeriodYears Samples.seedFund
     <= fundLifeYears Samples.seedFund.
Proof.
  apply (model_validation_implies_service_validation Samples.seedFund).
  reflexivity.
Defined.

(** ** What a returned forecast tells *)

(** X15. A forecast returned by [runForecast] always comes from a
    configuration that passed validation and from a forecast the engine
    returned: it carries the engine's portfolio, timeline, waterfall and
    totals unchanged, and fund metrics whose dry powder and remaining
    capital are both the committed capital less the invested capital.  An
    engine failure on a valid configuration is rethrown with the prefix. *)
Theorem returned_forecast_is_validated_and_post_processed
    (engine : EnhancedFundInputs -> outcome ForecastResult)
    (inputs : EnhancedFundInputs) :
  (forall result,
     runForecast engine inputs = Returned result ->
     passesValidation inputs
     /\ exists forecast metrics,
          engine inputs = Returned forecast
          /\ fr_portfolio result = fr_portfolio forecast
          /\ fr_timeline result = fr_timeline forecast
          /\ fr_waterfall result = fr_waterfall forecast
          /\ fr_totalInvested result = fr_totalInvested forecast
          /\ fr_totalDistributed result = fr_totalDistributed forecast
          /\ fr_fundMetrics result = Some metrics
          /\ fm_dryPowder metrics = fm_capitalRemaining metrics
          /\ fm_capitalRemaining metrics
             = (fundSize inputs * 1000000 - fr_totalInvested forecast)%num)
  /\ (forall message,
        passesValidation inputs ->
        engine inputs = Threw message ->
        runForecast engine inputs
        = Threw (String.append "Forecast failed: " message)).
Proof.
  split.
  - intros result Hrun.
    destruct (validateInputs_decides inputs) as [Hpass|Hfail].
    + split; [exact Hpass|]. unfold runForecast in Hrun.
      rewrite (validateInputs_passes inputs Hpass) in Hrun.
      destruct (engine inputs) as [forecast|message]; [|discriminate].
      injection Hrun as <-. exists forecast. eexists.
      repeat split; reflexivity.
    + destruct (validateInputs_throws inputs Hfail) as [reason Hv].
      unfold runForecast in Hrun. rewrite Hv in Hrun. discriminate.
  - intros message Hpass Hengine. unfold runForecast.
    now rewrite (validateInputs_passes inputs Hpass), Hengine.
Qed.

(** * The application state *)

Section AppState.

Variable ScenarioDefinition : Type.
Variable scenario_id : ScenarioDefinition -> string.
Variable ScenarioUpdates : Type.
Variable spread : ScenarioDefinition -> ScenarioUpdates -> ScenarioDefinition.
Variable ScenarioResult : Type.
Variable scenarioId : ScenarioResult -> string.
Variable ActualInvestment : Type.

Abbreviation State :=
  (AppContext.AppState ScenarioDefinition ScenarioResult ActualInvestment).
Abbreviation Action :=
  (AppContext.AppAction ScenarioDefinition ScenarioUpdates ScenarioResult
     ActualInvestment).
Abbreviation reduce :=
  (AppContext.appReducer scenario_id spread scenarioId
     (ActualInvestment := ActualInvestment)).
Abbreviation after_actions :=
  (AppContext.dispatched scenario_id spread scenarioId
     (ActualInvestment := ActualInvestment)).

Lemma filter_keeps_all {A : Type} (f : A -> bool) (l : list A) :
  (forall a, In a l -> f a = true) -> filter f l = l.
Proof.
  induction l as [|a l IH]; intro H; [reflexivity|].
  cbn. rewrite (H a (or_introl eq_refl)). f_equal. apply IH.
  intros b Hb. apply H. now right.
Qed.

Lemma differs_iff (a b : string) : negb (String.eqb a b) = true <-> a <> b.
Proof.
  rewrite negb_true_iff. split.
  - intros H ->. rewrite String.eqb_refl in H. discriminate.
  - intro H. now apply String.eqb_neq.
Qed.

(** X16. Deleting a scenario removes every trace of its identifier: no
    scenario and no scenario result with it remains, and it is no longer
    selected; every other scenario stays and another selection is kept. *)
Theorem delete_scenario_removes_every_trace (state : State) (id : string) :
  let state' :=
    AppContext.appReducer scenario_id spread scenarioId state
      (AppContext.DELETE_SCENARIO id) in
  Forall (fun s => scenario_id s <> id) (AppContext.scenarios state')
  /\ Forall (fun r => scenarioId r <> id) (AppContext.scenarioResults state')
  /\ AppContext.selectedScenarioId state' <> Some id
  /\ (forall s,
        In s (AppContext.scenarios state) -> scenario_id s <> id ->
        In s (AppContext.scenarios state'))
  /\ (forall other,
        AppContext.selectedScenarioId state = Some other -> other <> id ->
        AppContext.selectedScenarioId state' = Some other).
Proof.
  cbn. repeat split.
  - apply Forall_forall. intros s Hs. apply filter_In in Hs as [_ Hs].
    now apply differs_iff.
  - apply Forall_forall. intros r Hr. apply filter_In in Hr as [_ Hr].
    now apply differs_iff.
  - destruct (AppContext.selectedScenarioId state) as [selected|];
      [|discriminate].
    destruct (String.eqb selected id) eqn:E; [discriminate|].
    intros [= ->]. rewrite String.eqb_refl in E. discriminate.
  - intros s Hs Hne. apply filter_In. split; [exact Hs|].
    now apply differs_iff.
  - intros other -> Hne. apply String.eqb_neq in Hne. now rewrite Hne.
Qed.

(** X17. Adding a scenario whose identifier is not yet in use and then
    deleting that identifier restores the list of scenarios. *)
Theorem add_then_delete_restores_scenarios
    (state : State) (new : ScenarioDefinition) :
  (forall s, In s (AppContext.scenarios state) ->
             scenario_id s <> scenario_id new) ->
  AppContext.scenarios
    (AppContext.dispatched scenario_id spread scenarioId state
       [AppContext.ADD_SCENARIO new;
        AppContext.DELETE_SCENARIO (scenario_id new)])
  = AppContext.scenarios state.
Proof.
  intro Hfresh. cbn. rewrite filter_app. cbn.
  rewrite String.eqb_refl. cbn. rewrite app_nil_r.
  apply filter_keeps_all. intros s Hs. apply differs_iff.
  now apply Hfresh.
Qed.

(** X18. Unsaved edits are never lost track of: an action other than
    [LOAD_STATE] that changes the fund inputs or the scenarios leaves the
    state marked dirty. *)
Theorem edits_mark_state_dirty (state : State) (action : Action) :
  let state' :=
    AppContext.appReducer scenario_id spread scenarioId state action in
  (forall payload, action <> AppContext.LOAD_STATE payload) ->
  AppContext.fundInputs state' <> AppContext.fundInputs state
  \/ AppContext.scenarios state' <> AppContext.scenarios state ->
  AppContext.isDirty state' = true.
Proof.
  intros state' Hload Hchanged. subst state'.
  destruct action; cbn in *; try reflexivity;
    try (exfalso; destruct Hchanged as [H|H]; now apply H).
  exfalso. now apply (Hload payload).
Qed.

(** X19. A forecast calculation never leaves the calculating flag set:
    without fund inputs it dispatches nothing; otherwise the flag is off
    at the end, the forecast is stored when the engine returns one and
    left as it was, with the error rethrown, when the engine fails.  The
    fund inputs and the dirty mark are never touched. *)
Theorem forecast_calculation_clears_the_flag
    (engine : EnhancedFundInputs -> outcome ForecastResult)
    (state : State) :
  let run := AppContext.calculateForecast (ScenarioUpdates := ScenarioUpdates)
               engine state in
  let state' := after_actions state (fst run) in
  AppContext.fundInputs state' = AppContext.fundInputs state
  /\ AppContext.isDirty state' = AppContext.isDirty state
  /\ match AppContext.fundInputs state with
     | None => fst run = [] /\ snd run = Returned tt
     | Some inputs =>
         AppContext.isCalculating state' = false
         /\ match engine inputs with
            | Returned forecast =>
                AppContext.currentForecast state' = Some forecast
                /\ snd run = Returned tt
            | Threw message =>
                AppContext.currentForecast state'
                = AppContext.currentForecast state
                /\ snd run = Threw message
            end
     end.
Proof.
  cbv zeta. unfold AppContext.calculateForecast.
  destruct (AppContext.fundInputs state) as [inputs|] eqn:E.
  - destruct (engine inputs) as [forecast|message]; cbn;
      rewrite ?E; repeat split; reflexivity.
  - cbn. rewrite E. repeat split; reflexivity.
Qed.

(** X20. Updating a scenario keeps the number and the order of the
    scenarios and merges the updates into every scenario with the given
    identifier; when no scenario has it, the list is unchanged, yet the
    state is marked dirty all the same. *)
Theorem update_scenario_touches_matching_scenarios_only
    (state : State) (id : string) (updates : ScenarioUpdates) :
  let state' :=
    AppContext.appReducer scenario_id spread scenarioId state
      (AppContext.UPDATE_SCENARIO id updates) in
  List.length (AppContext.scenarios state')
  = List.length (AppContext.scenarios state)
  /\ (forall k s,
        nth_error (AppContext.scenarios state) k = Some s ->
        nth_error (AppContext.scenarios state') k
        = Some (if String.eqb (scenario_id s) id then spread s updates
                else s))
  /\ ((forall s, In s (AppContext.scenarios state) -> scenario_id s <> id) ->
      AppContext.scenarios state' = AppContext.scenarios state)
  /\ AppContext.isDirty state' = true.
Proof.
  cbn. split; [apply length_map|]. split; [|split; [|reflexivity]].
  - intros k s Hs. now rewrite nth_error_map, Hs.
  - intro Habsent. rewrite <- (map_id (AppContext.scenarios state)) at 2.
    apply map_ext_in. intros s Hs.
    apply Habsent in Hs. apply String.eqb_neq in Hs. now rewrite Hs.
Qed.

(** X21. Saving marks the state as saved only when both writes succeeded:
    then the dirty mark is cleared and the time recorded; when a write
    fails the error is rethrown and nothing is dispatched, the scenarios
    being written only after the fund inputs were; without fund inputs
    nothing is written or dispatched.  What is written is the fund inputs
    and the scenarios of the state. *)
Theorem save_marks_state_only_on_success
    (saveInputs : EnhancedFundInputs -> outcome unit)
    (saveScenarios : list ScenarioDefinition -> outcome unit)
    (now : Date) (state : State) :
  let run := AppContext.saveFund (ScenarioUpdates := ScenarioUpdates)
               saveInputs saveScenarios now state in
  let state' := after_actions state (AppContext.actions run) in
  match AppContext.fundInputs state with
  | None =>
      AppContext.writes run = [] /\ state' = state
      /\ AppContext.result run = Returned tt
  | Some inputs =>
      match saveInputs inputs with
      | Threw message =>
          AppContext.writes run = [AppContext.WriteFundInputs inputs]
          /\ state' = state /\ AppContext.result run = Threw message
      | Returned _ =>
          AppContext.writes run
          = [AppContext.WriteFundInputs inputs;
             AppContext.WriteScenarios (AppContext.scenarios state)]
          /\ match saveScenarios (AppContext.scenarios state) with
             | Threw message =>
                 state' = state /\ AppContext.result run = Threw message
             | Returned _ =>
                 AppContext.isDirty state' = false
                 /\ AppContext.lastSaved state' = Some now
                 /\ AppContext.fundInputs state' = Some inputs
                 /\ AppContext.scenarios state'
                    = AppContext.scenarios state
                 /\ AppContext.result run = Returned tt
             end
      end
  end.
Proof.
  cbv zeta. unfold AppContext.saveFund.
  destruct (AppContext.fundInputs state) as [inputs|] eqn:E;
    [|repeat split; reflexivity].
  destruct (saveInputs inputs); [|repeat split; reflexivity].
  destruct (saveScenarios (AppContext.scenarios state));
    [|repeat split; reflexivity].
  cbn. rewrite E. repeat split; reflexivity.
Qed.

(** X22. Loading replaces the fund inputs and the scenarios by what the
    storage holds (no scenarios when that key is missing), clears the dirty
    mark and keeps forecast, results and selection; when no fund inputs are
    stored, or a read fails, the state is left as it was. *)
Theorem load_replaces_inputs_and_scenarios
    (storedInputs : outcome (option EnhancedFundInputs))
    (storedScenarios : outcome (option (list ScenarioDefinition)))
    (now : Date) (state : State) :
  let run := AppContext.loadFund (ScenarioUpdates := ScenarioUpdates)
               (ScenarioResult := ScenarioResult)
               (ActualInvestment := ActualInvestment)
               storedInputs storedScenarios now in
  let state' := after_actions state (fst run) in
  match storedInputs, storedScenarios with
  | Returned (Some loaded), Returned stored =>
      AppContext.fundInputs state' = Some loaded
      /\ AppContext.scenarios state'
         = match stored with Some l => l | None => [] end
      /\ AppContext.isDirty state' = false
      /\ AppContext.lastSaved state' = Some now
      /\ AppContext.currentForecast state' = AppContext.currentForecast state
      /\ AppContext.scenarioResults state' = AppContext.scenarioResults state
      /\ AppContext.selectedScenarioId state'
         = AppContext.selectedScenarioId state
      /\ snd run = Returned tt
  | Returned None, Returned _ => state' = state /\ snd run = Returned tt
  | Threw message, _ => state' = state /\ snd run = Threw message
  | Returned _, Threw message => state' = state /\ snd run = Threw message
  end.
Proof.
  cbv zeta. unfold AppContext.loadFund.
  destruct storedInputs as [[loaded|]|message];
    destruct storedScenarios as [stored|message'];
    cbn; repeat split; reflexivity.
Qed.

End AppState.

Lemma add_then_delete_restores_scenarios_witness :
  AppContext.scenarios
    (AppContext.dispatched (fun s : string => s)
       (fun (s : string) (u : string) => u) (fun r : string => r)
       (AppContext.initialState string string unit)
       [AppContext.ADD_SCENARIO "base"%string;
        AppContext.DELETE_SCENARIO "base"%string])
  = [].
Proof.
  apply (add_then_delete_restores_scenarios string (fun s => s) string
           (fun s u => u) string (fun r => r) unit
           (AppContext.initialState string string unit) "base"%string).
  intros s [].
Defined.

Lemma edits_mark_state_dirty_witness :
  AppContext.isDirty
    (AppContext.appReducer (fun s : string => s)
       (fun (s : string) (u : string) => u) (fun r : string => r)
       (AppContext.initialState string string unit)
       (AppContext.ADD_SCENARIO "base"%string))
  = true.
Proof.
  apply (edits_mark_state_dirty string (fun s => s) string
           (fun s u => u) string (fun r => r) unit).
  - discriminate.
  - right. discriminate.
Defined.

(** * The fund set-up form *)

Lemma sumOf_finite (values : list Q) :
  FundSetup.sumOf values = Fin (qsum values).
Proof.
  unfold FundSetup.sumOf, qsum. generalize 0.
  induction values as [|v rest IH]; intro a; cbn; [reflexivity | apply IH].
Qed.

Lemma strategyError_none (strategy : FundSetup.FormStrategy) :
  FundSetup.strategyError strategy = []
  <-> Qabs (qsum (FundSetup.exitProbabilities strategy) - 1) <= 0.001.
Proof.
  unfold FundSetup.strategyError, Qminus. rewrite sumOf_finite.
  cbn [nsub nopp nadd nabs ngt nlt].
  destruct (Qlt_bool 0.001 _) eqn:E.
  - apply Qlt_bool_iff in E. split; [discriminate | intro; exfalso; lra].
  - apply Qlt_bool_false in E. split; [intro; exact E | reflexivity].
Qed.

Lemma strategy_errors_fold (strategies : list FundSetup.FormStrategy)
    (errors : list string) :
  fold_left (fun errors strategy =>
               errors ++ FundSetup.strategyError strategy)
            strategies errors
  = errors ++ flat_map FundSetup.strategyError strategies.
Proof.
  revert errors. induction strategies as [|s rest IH]; intro errors; cbn.
  - now rewrite app_nil_r.
  - now rewrite IH, app_assoc.
Qed.

Lemma flat_map_nil {A B : Type} (f : A -> list B) (l : list A) :
  flat_map f l = [] <-> Forall (fun a => f a = []) l.
Proof.
  induction l as [|a l IH]; cbn.
  - split; [constructor | reflexivity].
  - rewrite app_nil_both, IH. split.
    + intros [Ha Hl]. now constructor.
    + intro H. inversion H. now split.
Qed.

Lemma complaint_none (condition : bool) (message : string) :
  (if condition then [message] else []) = [] <-> condition = false.
Proof.
  destruct condition; split; intro H; (discriminate || reflexivity).
Qed.

Section SetupForm.

Variable trim : string -> string.

(** X23. With the sums taken in exact arithmetic, the form validates
    exactly when the trimmed fund name is not empty, the fund size is
    positive, the stage allocations sum to 1 within 1e-3, and the exit
    probabilities of every stage do so too.  Rounding is not modelled: in
    floating point a sum at the edge of the tolerance can fall on the
    other side. *)
Theorem form_validates_iff (formData : FundSetup.FormData) :
  FundSetup.validateForm trim formData = []
  <-> (trim (FundSetup.fundName formData) <> ""%string
       /\ 0 < FundSetup.fundSize formData
       /\ Qabs (qsum (map FundSetup.allocationPercent
                        (FundSetup.stageStrategies formData)) - 1)
          <= 0.001
       /\ Forall
            (fun s => Qabs (qsum (FundSetup.exitProbabilities s) - 1)
                      <= 0.001)
            (FundSetup.stageStrategies formData)).
Proof.
  unfold FundSetup.validateForm, Qminus.
  rewrite strategy_errors_fold, sumOf_finite.
  cbn [nsub nopp nadd nabs ngt nlt nle app].
  rewrite !app_nil_both, flat_map_nil.
  assert (Hall : Forall (fun a => FundSetup.strategyError a = [])
                   (FundSetup.stageStrategies formData)
                 <-> Forall
                       (fun s =>
                          Qabs (qsum (FundSetup.exitProbabilities s)
                                + - (1)) <= 0.001)
                       (FundSetup.stageStrategies formData)).
  { rewrite !Forall_forall. split; intros H s Hs;
      apply strategyError_none; now apply H. }
  rewrite Hall, !complaint_none.
  rewrite String.eqb_neq, Qle_bool_false, Qlt_bool_false. tauto.
Qed.

Variable ScenarioDefinition ScenarioUpdates ScenarioResult : Type.
Variable ActualInvestment : Type.
Variable payloadOf : FundSetup.FormData -> EnhancedFundInputs.
Variable saveInputs : EnhancedFundInputs -> outcome unit.
Variable saveScenarios : list ScenarioDefinition -> outcome unit.
Variable now : Date.
Variable rendered :
  AppContext.AppState ScenarioDefinition ScenarioResult ActualInvestment.

Abbreviation save_effects formData :=
  (FundSetup.handleSave trim (ScenarioUpdates := ScenarioUpdates)
     payloadOf saveInputs saveScenarios now rendered formData).

(** X24. A form that does not validate is neither dispatched nor saved and
    the page stays: the only effect is an error toast with the first
    complaint, which is the missing fund name whenever the trimmed name is
    empty, whatever else is wrong. *)
Theorem invalid_form_is_only_reported (formData : FundSetup.FormData) :
  FundSetup.validateForm trim formData <> [] ->
  FundSetup.dispatchedActions (save_effects formData) = []
  /\ FundSetup.storageWrites (save_effects formData) = []
  /\ FundSetup.navigatedTo (save_effects formData) = None
  /\ (exists first,
        hd_error (FundSetup.validateForm trim formData) = Some first
        /\ FundSetup.toast (save_effects formData)
           = FundSetup.ToastError first)
  /\ (trim (FundSetup.fundName formData) = ""%string ->
      FundSetup.toast (save_effects formData)
      = FundSetup.ToastError "Fund name is required").
Proof.
  intro Hbad. unfold FundSetup.handleSave.
  destruct (FundSetup.validateForm trim formData) as [|first rest] eqn:E;
    [contradiction|].
  cbn. repeat split.
  - now exists first.
  - intro Hblank. unfold FundSetup.validateForm in E.
    rewrite Hblank, strategy_errors_fold in E. cbn in E.
    now injection E as <-.
Qed.

(** X25. On a valid form the storage is handed the fund inputs of the
    state as rendered before the click, never the form data as such: every
    fund-inputs write carries the previous inputs.  When there were none,
    nothing is written at all, yet success is reported and the page
    changes, and the state ends with the form data as fund inputs, marked
    dirty. *)
Theorem save_button_persists_previous_inputs
    (scenario_id : ScenarioDefinition -> string)
    (spread : ScenarioDefinition -> ScenarioUpdates -> ScenarioDefinition)
    (scenarioId : ScenarioResult -> string)
    (formData : FundSetup.FormData) :
  FundSetup.validateForm trim formData = [] ->
  (forall written,
     In (AppContext.WriteFundInputs written)
        (FundSetup.storageWrites (save_effects formData)) ->
     AppContext.fundInputs rendered = Some written)
  /\ (AppContext.fundInputs rendered = None ->
      let state' :=
        AppContext.dispatched scenario_id spread scenarioId rendered
          (FundSetup.dispatchedActions (save_effects formData)) in
      FundSetup.storageWrites (save_effects formData) = []
      /\ FundSetup.toast (save_effects formData)
         = FundSetup.ToastSuccess "Fund configuration saved"
      /\ FundSetup.navigatedTo (save_effects formData)
         = Some "/dashboard"%string
      /\ AppContext.fundInputs state' = Some (payloadOf formData)
      /\ AppContext.isDirty state' = true).
Proof.
  intro Hvalid. unfold FundSetup.handleSave. rewrite Hvalid.
  cbn [FundSetup.storageWrites FundSetup.toast FundSetup.navigatedTo
       FundSetup.dispatchedActions].
  unfold AppContext.saveFund. split.
  - intros written Hin.
    destruct (AppContext.fundInputs rendered) as [inputs|];
      [|contradiction].
    destruct (saveInputs inputs);
      [destruct (saveScenarios (AppContext.scenarios rendered))|];
      cbn in Hin;
      repeat (destruct Hin as [Hin|Hin];
              [try discriminate; now injection Hin as <-|]);
      contradiction.
  - intros ->. cbn. repeat split; reflexivity.
Qed.

End SetupForm.

Lemma invalid_form_is_only_reported_witness :
  FundSetup.toast
    (FundSetup.handleSave (fun s => s) (ScenarioUpdates := unit)
       FormCases.formInputs (fun _ => Returned tt)
       (fun _ : list string => Returned tt) 0%nat
       (AppContext.initialState string string unit) FormCases.blankForm)
  = FundSetup.ToastError "Fund name is required".
Proof.
  apply (invalid_form_is_only_reported (fun s => s) string unit string unit
           FormCases.formInputs (fun _ => Returned tt)
           (fun _ => Returned tt) 0%nat
           (AppContext.initialState string string unit)
           FormCases.blankForm);
    [discriminate | reflexivity].
Defined.

Lemma save_button_persists_previous_inputs_witness :
  FundSetup.storageWrites
    (FundSetup.handleSave (fun s => s) (ScenarioUpdates := unit)
       FormCases.formInputs (fun _ => Returned tt)
       (fun _ : list string => Returned tt) 0%nat
       (AppContext.initialState string string unit) FormCases.seedForm)
  = [].
Proof.
  apply (save_button_persists_previous_inputs (fun s => s) string unit
           string unit FormCases.formInputs (fun _ => Returned tt)
           (fun _ => Returned tt) 0%nat
           (AppContext.initialState string string unit)
           (fun s => s) (fun s _ => s) (fun r => r) FormCases.seedForm);
    reflexivity.
Defined.

(** * Percentage inputs *)

Example parseInput_reads_digits_and_dots :
  PercentCases.parse "12.5%" = Some 12.5
  /\ PercentCases.parse "-5" = Some (0 * 10 + 5 + 0 / 1)
  /\ PercentCases.parse "1e1" = Some (11 + 0 / 1)
  /\ PercentCases.parse "1.2.3" = Some (1 + 2 / 10)
  /\ PercentCases.parse "." = None
  /\ PercentCases.parse "abc" = None
  /\ PercentCases.parse "150" = None.
Proof. repeat split. Qed.

Lemma cleaned_app (a b : string) :
  PercentInput.cleaned (String.append a b)
  = String.append (PercentInput.cleaned a) (PercentInput.cleaned b).
Proof.
  induction a as [|c a IH]; cbn; [reflexivity|].
  destruct (PercentInput.isDigit c || PercentInput.isDot c); cbn;
    now rewrite IH.
Qed.

Section ParseInput.

Variable parseFloat : string -> num.
Variable Percent : Type.
Variable fromPercentage : num -> outcome Percent.
Variables min max : Q.

Abbreviation parse_input :=
  (PercentInput.parseInput parseFloat Percent fromPercentage min max).

(** X26. Parsing a typed percentage looks at digits and dots only: any
    other character, a minus sign or an exponent letter included, can be
    inserted anywhere without changing the result.  A parsed value always
    comes from the number that [parseFloat] reads off the digits and dots
    that were typed: there is at least one of them, and that number is
    finite, lies between [min] and [max] and is what
    [Percent.fromPercentage] was given. *)
Theorem parse_input_reads_digits_and_dots_only :
  (forall before c after,
     PercentInput.isDigit c || PercentInput.isDot c = false ->
     parse_input (String.append before (String c after))
     = parse_input (String.append before after))
  /\ (forall input percent,
        parse_input input = Some percent ->
        PercentInput.cleaned input <> ""%string
        /\ exists n,
             parseFloat (PercentInput.cleaned input) = Fin n
             /\ min <= n <= max
             /\ fromPercentage (Fin n) = Returned percent).
Proof.
  split.
  - intros before c after Hc. unfold PercentInput.parseInput.
    rewrite !cleaned_app. cbn [PercentInput.cleaned]. now rewrite Hc.
  - intros input percent. unfold PercentInput.parseInput.
    destruct (String.eqb (PercentInput.cleaned input) "") eqn:Hempty;
      [discriminate|].
    apply String.eqb_neq in Hempty.
    destruct (parseFloat (PercentInput.cleaned input))
      as [n| | |] eqn:E; try discriminate.
    cbn [nlt ngt].
    destruct (Qlt_bool n min) eqn:L; [discriminate|].
    destruct (Qlt_bool max n) eqn:U; [discriminate|]. cbn.
    destruct (fromPercentage n) as [p|] eqn:F; [|discriminate].
    intros [= <-]. split; [exact Hempty|]. exists n.
    apply Qlt_bool_false in L, U. repeat split; assumption.
Qed.

End ParseInput.

(** ** Allocation inputs *)

Lemma qsum_from (values : list Q) (start : Q) :
  fold_left Qplus values start == start + qsum values.
Proof.
  unfold qsum. revert start.
  induction values as [|v rest IH]; intro start; cbn; [ring|].
  rewrite (IH (start + v)), (IH (0 + v)). ring.
Qed.

Lemma qsum_cons (v : Q) (values : list Q) :
  qsum (v :: values) == v + qsum values.
Proof.
  unfold qsum at 1. cbn. rewrite qsum_from. ring.
Qed.

Lemma qsum_app (a b : list Q) : qsum (a ++ b) == qsum a + qsum b.
Proof.
  induction a as [|v a IH]; cbn [app].
  - unfold qsum at 2. cbn. ring.
  - rewrite !qsum_cons, IH. ring.
Qed.

Lemma nth_error_split_at {A : Type} (l : list A) (i : nat) (a : A) :
  nth_error l i = Some a -> l = firstn i l ++ a :: skipn (S i) l.
Proof.
  revert i. induction l as [|b l IH]; intros [|i] H; try discriminate.
  - injection H as ->. reflexivity.
  - cbn. f_equal. now apply IH.
Qed.

Section Allocation.

Variable Percent : Type.
Variable toPercentage : Percent -> Q.
Variable fromPercentage : num -> outcome Percent.

(** The entry at [index] replaced by [value]. *)
Abbreviation replaced l index value :=
  (firstn index l ++ value :: skipn (S index) l).

Lemma totalOf_dense (l : list Percent) :
  PercentInput.totalOf Percent toPercentage (map Some l)
  = Fin (qsum (map toPercentage l)).
Proof.
  unfold PercentInput.totalOf, qsum. generalize 0.
  induction l as [|p l IH]; intro a; cbn; [reflexivity | apply IH].
Qed.

Lemma assignAt_dense (l : list Percent) (index : nat) (value : Percent) :
  (index < List.length l)%nat ->
  PercentInput.assignAt Percent (map Some l) index value
  = map Some (replaced l index value).
Proof.
  intro Hi. unfold PercentInput.assignAt. rewrite length_map.
  apply Nat.ltb_lt in Hi. rewrite Hi.
  now rewrite map_app, firstn_map, skipn_map.
Qed.

Lemma replaced_length (l : list Percent) (index : nat) (value : Percent) :
  (index < List.length l)%nat ->
  List.length (replaced l index value) = List.length l.
Proof.
  intro Hi. rewrite length_app, length_firstn. cbn [List.length].
  rewrite length_skipn. lia.
Qed.

Lemma replaced_sum (l : list Percent) (index : nat) (old value : Percent) :
  nth_error l index = Some old ->
  qsum (map toPercentage (replaced l index value))
  == qsum (map toPercentage l) - toPercentage old + toPercentage value.
Proof.
  intro Hold. rewrite (nth_error_split_at l index old Hold) at 3.
  rewrite !map_app. cbn [map]. rewrite !qsum_app, !qsum_cons. ring.
Qed.

(** X27. When an allocation other than the last is edited and the new
    total is within 1 of 100, the last allocation is replaced so that the
    total is exactly 100, provided the replacement lies between 0 and 100
    and [Percent] gives a percentage back as it was built from it.  The
    edited entry holds the new value and the number of allocations is
    unchanged. *)
Theorem allocation_auto_adjust_reaches_100
    (allocations : list Percent) (index : nat) (value last : Percent) :
  (forall q,
     0 <= q <= 100 ->
     exists p, fromPercentage (Fin q) = Returned p /\ toPercentage p == q) ->
  (index + 1 < List.length allocations)%nat ->
  let edited := replaced allocations index value in
  let total := qsum (map toPercentage edited) in
  nth_error edited (List.length allocations - 1) = Some last ->
  Qabs (total - 100) < 1 ->
  0 <= 100 - total + toPercentage last <= 100 ->
  exists result,
    PercentInput.handleChange Percent toPercentage fromPercentage
      allocations index (Some value)
    = Returned (Some (map Some result))
    /\ List.length result = List.length allocations
    /\ qsum (map toPercentage result) == 100
    /\ nth_error result index = Some value.
Proof.
  intros Hround Hindex edited total Hlast Hnear Hadj.
  assert (Hlen : List.length edited = List.length allocations)
    by (apply replaced_length; lia).
  unfold PercentInput.handleChange.
  rewrite assignAt_dense by lia. fold edited.
  rewrite totalOf_dense. fold total.
  cbn [nsub nopp nadd nabs nlt].
  assert (Hguard : Qlt_bool (Qabs (total + - (100))) 1 = true)
    by (apply Qlt_bool_iff; exact Hnear).
  rewrite Hguard.
  assert (Hin : (index + 1 <? List.length allocations)%nat = true)
    by (apply Nat.ltb_lt; exact Hindex).
  rewrite Hin. cbn [andb].
  rewrite nth_error_map, Hlast. cbn [option_map nadd nge nle].
  assert (H0 : Qle_bool 0 (100 + - total + toPercentage last) = true)
    by (apply Qle_bool_iff; lra).
  assert (H100 : Qle_bool (100 + - total + toPercentage last) 100 = true)
    by (apply Qle_bool_iff; lra).
  rewrite H0, H100. cbn [andb].
  destruct (Hround (100 + - total + toPercentage last)) as (p & -> & Hp);
    [lra|].
  rewrite assignAt_dense by lia.
  exists (replaced edited (List.length allocations - 1) p).
  split; [reflexivity|]. split; [|split].
  - rewrite replaced_length by lia. exact Hlen.
  - rewrite (replaced_sum edited _ last p Hlast). fold total.
    rewrite Hp. ring.
  - rewrite nth_error_app1 by (rewrite length_firstn; lia).
    rewrite nth_error_firstn.
    assert (Hlt : (index <? List.length allocations - 1)%nat = true)
      by (apply Nat.ltb_lt; lia).
    rewrite Hlt. unfold edited.
    rewrite nth_error_app2 by (rewrite length_firstn; lia).
    rewrite length_firstn.
    replace (index - Nat.min index (List.length allocations))%nat
      with 0%nat by lia.
    reflexivity.
Qed.

End Allocation.

Lemma allocation_auto_adjust_reaches_100_witness :
  exists result,
    PercentInput.handleChange Q (fun p => p) PercentCases.fromPercentage
      [50; 30; 20.5] 0 (Some 49.8)
    = Returned (Some (map Some result))
    /\ List.length result = 3%nat
    /\ qsum (map (fun p => p) result) == 100
    /\ nth_error result 0 = Some 49.8.
Proof.
  apply (allocation_auto_adjust_reaches_100 Q (fun p => p)
           PercentCases.fromPercentage [50; 30; 20.5] 0 49.8 20.5).
  - intros q _. exists q. split; reflexivity.
  - cbn. lia.
  - reflexivity.
  - reflexivity.
  - split; discriminate.
Defined.

(** ** The Excel export *)

Section Workbook.

Import ExcelExportService.

Variables ReserveAllocation PacingAnalysis : Type.

Lemma sheets_distinct (b1 b2 b3 b4 b5 b6 b7 : bool) :
  NoDup (map sheetName
           (sheetIf b1 SummarySheet ++ sheetIf b2 CashFlowSheet
            ++ sheetIf b3 PortfolioSheet ++ sheetIf b4 ReserveAnalysisSheet
            ++ sheetIf b5 PacingAnalysisSheet
            ++ sheetIf b6 AssumptionsSheet ++ sheetIf b7 WaterfallSheet)).
Proof.
  destruct b1, b2, b3, b4, b5, b6, b7; cbn;
    repeat (constructor; [cbn; intuition discriminate|]); constructor.
Qed.

Lemma sheet_present (b1 b2 b3 b4 b5 b6 b7 : bool) :
  let sheets :=
    sheetIf b1 SummarySheet ++ sheetIf b2 CashFlowSheet
    ++ sheetIf b3 PortfolioSheet ++ sheetIf b4 ReserveAnalysisSheet
    ++ sheetIf b5 PacingAnalysisSheet
    ++ sheetIf b6 AssumptionsSheet ++ sheetIf b7 WaterfallSheet in
  (In PortfolioSheet sheets <-> b3 = true)
  /\ (In ReserveAnalysisSheet sheets <-> b4 = true)
  /\ (In PacingAnalysisSheet sheets <-> b5 = true).
Proof.
  destruct b1, b2, b3, b4, b5, b6, b7; cbn; intuition discriminate.
Qed.

(** X29. Whatever the options and the additional data, no two sheets of
    the workbook share a name; the portfolio sheet is there exactly when
    [includePortfolio] is not [false] and [lpFriendly] is not [true];
    without additional data there is neither a reserve nor a pacing sheet,
    whatever the flags.  The LP report therefore consists of the summary,
    cash-flow, assumptions and waterfall sheets, although it asks for the
    pacing sheet. *)
Theorem workbook_sheets_distinct_and_lp_report_hides_companies
    (forecastResult : ForecastResult) (fundInputs : EnhancedFundInputs)
    (additionalData :
       option (AdditionalData ReserveAllocation PacingAnalysis))
    (options : ExcelExportOptions) :
  let sheets :=
    exportFundModel forecastResult fundInputs additionalData options in
  NoDup (map sheetName sheets)
  /\ (In PortfolioSheet sheets
      <-> includePortfolio options <> Some false
          /\ lpFriendly options <> Some true)
  /\ (additionalData = None ->
      ~ In ReserveAnalysisSheet sheets /\ ~ In PacingAnalysisSheet sheets)
  /\ map sheetName
       (exportLPReport ReserveAllocation PacingAnalysis
          forecastResult fundInputs)
     = ["Summary"; "Cash Flows"; "Assumptions"; "Waterfall"]%string.
Proof.
  cbv zeta. unfold exportFundModel. split; [apply sheets_distinct|].
  split; [|split].
  - match goal with
    | |- In _ (sheetIf ?b1 _ ++ sheetIf ?b2 _ ++ sheetIf ?b3 _
               ++ sheetIf ?b4 _ ++ sheetIf ?b5 _ ++ sheetIf ?b6 _
               ++ sheetIf ?b7 _) <-> _ =>
        rewrite (proj1 (sheet_present b1 b2 b3 b4 b5 b6 b7))
    end.
    destruct (includePortfolio options) as [[|]|],
             (lpFriendly options) as [[|]|]; cbn;
      intuition (discriminate || congruence).
  - intros ->.
    match goal with
    | |- ~ In _ (sheetIf ?b1 _ ++ sheetIf ?b2 _ ++ sheetIf ?b3 _
                 ++ sheetIf ?b4 _ ++ sheetIf ?b5 _ ++ sheetIf ?b6 _
                 ++ sheetIf ?b7 _) /\ _ =>
        destruct (sheet_present b1 b2 b3 b4 b5 b6 b7) as (_ & Hr & Hp)
    end.
    cbv zeta in Hr, Hp. rewrite Hr, Hp. cbn [given].
    rewrite !andb_false_r. split; discriminate.
  - reflexivity.
Qed.

End Workbook.

Section PortfolioSheet.

Import ExcelExportService.

Lemma invested_total (rounds : list Investment) (amounts : list Q)
    (start : Q) :
  map amount rounds = map Fin amounts ->
  fold_left (fun sum inv => (sum + amount inv)%num) rounds (Fin start)
  = Fin (fold_left Qplus amounts start).
Proof.
  revert amounts start.
  induction rounds as [|inv rounds IH]; intros [|a amounts] start H;
    try discriminate; [reflexivity|].
  cbn in H. injection H as Ha Hrest. cbn. rewrite Ha. cbn.
  now apply IH.
Qed.

(** X30. In a row of the portfolio sheet whose company has finite round
    amounts and a finite current valuation, the total invested is the sum
    of the amounts and the multiple is never a division by zero: it is 0
    unless the total is positive.  With a positive total it is the exit
    value over the total when the company has a finite exit value other
    than zero; a missing exit value and an exit value of zero alike leave
    the exit cell empty and give the current valuation over the total. *)
Theorem portfolio_multiple_falls_back_to_valuation
    (company : PortfolioCompany) (amounts : list Q) (valuation : Q)
    (exitValue : option num) :
  map amount (investments company) = map Fin amounts ->
  currentValuation company = Fin valuation ->
  let row := portfolioRow company exitValue in
  let total := qsum amounts in
  totalInvested row = Fin total
  /\ numberOfRounds row = List.length amounts
  /\ (~ 0 < total -> multiple row = Fin 0)
  /\ (0 < total ->
      (forall e,
         exitValue = Some (Fin e) -> ~ e == 0 ->
         exitValueCell row = Some (Fin e)
         /\ multiple row = Fin (e / total))
      /\ (exitValue = None
          \/ (exists e, exitValue = Some (Fin e) /\ e == 0) ->
          exitValueCell row = None
          /\ multiple row = Fin (valuation / total))).
Proof.
  intros Hamounts Hvaluation row total.
  assert (Htotal : totalInvested row = Fin total)
    by (apply invested_total; exact Hamounts).
  split; [exact Htotal|]. split.
  { unfold row, portfolioRow. cbn [numberOfRounds].
    rewrite <- (length_map amount), Hamounts. apply length_map. }
  unfold row, portfolioRow in *. cbn [totalInvested] in Htotal.
  cbn [multiple exitValueCell]. rewrite Htotal, Hvaluation.
  cbn [ngt nlt]. split.
  - intro Hnot.
    assert (Hguard : Qlt_bool 0 total = false)
      by (apply Qlt_bool_false, Qnot_lt_le; exact Hnot).
    rewrite Hguard. reflexivity.
  - intro Hpos.
    assert (Hguard : Qlt_bool 0 total = true)
      by (apply Qlt_bool_iff; exact Hpos).
    rewrite Hguard. split.
    + intros e -> He. cbn [truthy].
      assert (Hne : Qeq_bool e 0 = false).
      { destruct (Qeq_bool e 0) eqn:E; [|reflexivity].
        apply Qeq_bool_eq in E. contradiction. }
      rewrite Hne. cbn [negb]. split; [reflexivity|].
      apply ndiv_finite. intro; lra.
    + intros [-> | (e & -> & He)].
      * split; [reflexivity|]. apply ndiv_finite. intro; lra.
      * cbn [truthy]. apply Qeq_eq_bool in He. rewrite He. cbn [negb].
        split; [reflexivity|]. apply ndiv_finite. intro; lra.
Qed.

End PortfolioSheet.

Lemma portfolio_multiple_falls_back_to_valuation_witness :
  let company := FundForecastService.newCompany (Samples.seedStrategy 10) 1 0 in
  let row := ExcelExportService.portfolioRow company (Some (Fin 0)) in
  ExcelExportService.exitValueCell row = None
  /\ ExcelExportService.multiple row
     = Fin (15000000 * (1 + 0.12) / qsum [1000000]).
Proof.
  cbv zeta.
  destruct (portfolio_multiple_falls_back_to_valuation
              (FundForecastService.newCompany (Samples.seedStrategy 10) 1 0)
              [1000000] (15000000 * (1 + 0.12)) (Some (Fin 0))
              eq_refl eq_refl)
    as (_ & _ & _ & Hpositive).
  apply Hpositive; [reflexivity|].
  right. exists 0. split; reflexivity.
Defined.
